(** * saws: command execution across accounts and regions

    A shallow embedding of the command-execution mode of [saws]: account
    selection, region resolution, role assumption, the per-unit worker
    with its isolated subprocess environment, the fan-out over the cross
    product and the final verdict.

    Go strings are byte strings: they are embedded as [string], [len] is
    [String.length] and [s[:n]] is [substring 0 n s]. Calls that leave the
    process (STS, the subprocess, the AWS configuration, the process
    environment) are answered by a [World] record, and everything the program
    does is collected in a trace of events. The success counter is the state
    of the monad. A goroutine is embedded as a computation that runs to its
    end where it is started, which is one of the schedules of the program;
    the workers share nothing but the counter, and [tally_Permutation] shows
    that the counter does not depend on the order in which they reach it.

    The modules [pkg], [saws] and [main] follow the packages of the program;
    [legacy] holds what the earlier single-file program [saws.go] does
    differently. *)

From Stdlib Require Import ZArith NArith Ascii String List Permutation Lia.
From stdpp Require Import base option strings list gmap sorting pretty.

Local Open Scope string_scope.
Local Open Scope list_scope.
Local Open Scope Z_scope.

(** ** The Go library functions the program calls *)

Module strings.

(** The six ASCII bytes of [unicode.IsSpace]: tab, line feed, vertical tab,
    form feed, carriage return and space. *)
Definition asciiSpace (c : ascii) : bool :=
  let n := N_of_ascii c in
  ((9 <=? n)%N && (n <=? 13)%N) || (n =? 32)%N.

(** The two-byte UTF-8 encodings of white space: U+0085 and U+00A0. *)
Definition space2 (c1 c2 : ascii) : bool :=
  (N_of_ascii c1 =? 194)%N &&
  ((N_of_ascii c2 =? 133)%N || (N_of_ascii c2 =? 160)%N).

(** The three-byte encodings: U+1680, U+2000 to U+200A, U+2028, U+2029,
    U+202F, U+205F and U+3000. *)
Definition space3 (c1 c2 c3 : ascii) : bool :=
  let n1 := N_of_ascii c1 in
  let n2 := N_of_ascii c2 in
  let n3 := N_of_ascii c3 in
  ((n1 =? 225)%N && (n2 =? 154)%N && (n3 =? 128)%N)
  || ((n1 =? 226)%N && (n2 =? 128)%N &&
      (((128 <=? n3)%N && (n3 <=? 138)%N)
       || (n3 =? 168)%N || (n3 =? 169)%N || (n3 =? 175)%N))
  || ((n1 =? 226)%N && (n2 =? 129)%N && (n3 =? 159)%N)
  || ((n1 =? 227)%N && (n2 =? 128)%N && (n3 =? 128)%N).

(** [strings.TrimLeftFunc(s, unicode.IsSpace)]. *)
Fixpoint trimLeft (s : string) : string :=
  match s with
  | EmptyString => EmptyString
  | String c1 t1 =>
      if asciiSpace c1 then trimLeft t1
      else match t1 with
           | EmptyString => s
           | String c2 t2 =>
               if space2 c1 c2 then trimLeft t2
               else match t2 with
                    | EmptyString => s
                    | String c3 t3 =>
                        if space3 c1 c2 c3 then trimLeft t3 else s
                    end
           end
  end.

(** The same scan on the reversed string: the bytes of a rune arrive last
    byte first. *)
Fixpoint trimLeftRev (s : string) : string :=
  match s with
  | EmptyString => EmptyString
  | String c1 t1 =>
      if asciiSpace c1 then trimLeftRev t1
      else match t1 with
           | EmptyString => s
           | String c2 t2 =>
               if space2 c2 c1 then trimLeftRev t2
               else match t2 with
                    | EmptyString => s
                    | String c3 t3 =>
                        if space3 c3 c2 c1 then trimLeftRev t3 else s
                    end
           end
  end.

(** [strings.TrimRightFunc(s, unicode.IsSpace)]. *)
Definition trimRight (s : string) : string :=
  String.rev (trimLeftRev (String.rev s)).

(** [strings.TrimSpace]. *)
Definition TrimSpace (s : string) : string := trimRight (trimLeft s).

(** [strings.Split(s, sep)] for a one-byte separator: the pieces between
    the separators, empty pieces included; the empty string gives one
    empty piece. *)
Fixpoint Split (s : string) (sep : ascii) : list string :=
  match s with
  | EmptyString => [EmptyString]
  | String c t =>
      if Ascii.eqb c sep then EmptyString :: Split t sep
      else match Split t sep with
           | [] => [String c EmptyString]
           | piece :: rest => String c piece :: rest
           end
  end.

(** [strings.HasPrefix]. *)
Definition HasPrefix (s pre : string) : bool := String.prefix pre s.

(** [strings.ReplaceAll(s, old, new)] where [old] and [new] are one byte
    each, as in both calls of the program. *)
Fixpoint ReplaceAll (s : string) (old new : ascii) : string :=
  match s with
  | EmptyString => EmptyString
  | String c t =>
      String (if Ascii.eqb c old then new else c) (ReplaceAll t old new)
  end.

(** [strings.Contains(s, string(c))]. *)
Fixpoint ContainsByte (s : string) (c : ascii) : bool :=
  match s with
  | EmptyString => false
  | String d t => Ascii.eqb d c || ContainsByte t c
  end.

(** [strings.Fields]: the maximal runs of bytes between white space. [cur]
    is the field being read, if any. *)
Fixpoint fieldsGo (cur : option string) (s : string) : list string :=
  let flush := match cur with Some f => [String.rev f] | None => [] end in
  let push c := Some (String c (default EmptyString cur)) in
  match s with
  | EmptyString => flush
  | String c1 t1 =>
      if asciiSpace c1 then flush ++ fieldsGo None t1
      else match t1 with
           | EmptyString => fieldsGo (push c1) t1
           | String c2 t2 =>
               if space2 c1 c2 then flush ++ fieldsGo None t2
               else match t2 with
                    | EmptyString => fieldsGo (push c1) t1
                    | String c3 t3 =>
                        if space3 c1 c2 c3 then flush ++ fieldsGo None t3
                        else fieldsGo (push c1) t1
                    end
           end
  end.

Definition Fields (s : string) : list string := fieldsGo None s.

End strings.

(** [s[:n]] when [len(s) > n]: the first [n] bytes. *)
Definition sliceTo (n : nat) (s : string) : string := substring 0 n s.

(** The one-byte string that holds a double quote. *)
Definition dquote : string := String (ascii_of_nat 34) EmptyString.

(** [fmt]'s [%d]. *)
Definition fmtInt (z : Z) : string := pretty z.

(** [fmt]'s [%v] for a [[]string]. *)
Definition fmtStrings (l : list string) : string :=
  "[" +:+ String.concat " " l +:+ "]".

(** [sort.Strings]: ascending byte-wise order. *)
Definition sortStrings (l : list string) : list string :=
  merge_sort String.le l.

(** [int] and [int64] arithmetic wraps around at 64 bits. *)
Definition wrap64 (z : Z) : Z := (z + 2 ^ 63) `mod` 2 ^ 64 - 2 ^ 63.

(** The order in which a [range] over a Go map visits its keys is chosen by
    the runtime. [shuffle seed l] is the order picked by [seed]: at each step
    the element at position [seed_i mod (remaining length)] comes next. *)
Fixpoint pick {A} (i : nat) (l : list A) : option (A * list A) :=
  match l with
  | [] => None
  | x :: t =>
      match i with
      | O => Some (x, t)
      | S j => match pick j t with
               | Some (y, r) => Some (y, x :: r)
               | None => None
               end
      end
  end.

Fixpoint shuffleGo {A} (fuel : nat) (seed : list nat) (l : list A) : list A :=
  match fuel with
  | O => l
  | S fuel' =>
      let i := match seed with [] => O | k :: _ => (k `mod` length l)%nat end in
      match pick i l with
      | Some (x, r) => x :: shuffleGo fuel' (tail seed) r
      | None => l
      end
  end.

Definition shuffle {A} (seed : list nat) (l : list A) : list A :=
  shuffleGo (length l) seed l.

(** ** Data *)

(** [pkg.AppConfig]. *)
Record AppConfig := {
  Accounts : gmap string string;
  CommonRegions : list string;
  Roles : gmap string string
}.

(** [aws.Config], as far as the program reads it. *)
Record Config := { Region : string }.

(** [ststypes.Credentials]: every field is a pointer and may be nil. *)
Record Credentials := {
  AccessKeyId : option string;
  SecretAccessKey : option string;
  SessionToken : option string
}.

(** [sts.AssumeRoleInput]. *)
Record AssumeRoleInput := {
  RoleArn : string;
  RoleSessionName : string;
  DurationSeconds : Z
}.

(** A worker is identified by the account name and region it was started
    for. *)
Definition Unit : Type := string * string.

(** Where [exec.Cmd] sends a stream of the subprocess. *)
Inductive Buffer := outb | errb.

Inductive Stream := StdoutStream | StderrStream.

(** [exec.Cmd]. *)
Record Cmd := {
  Args : list string;
  Env : list string;
  Stdout : Buffer;
  Stderr : Buffer
}.

(** The error of [cmd.Run]: the subprocess ran and failed
    ([*exec.ExitError]), or it could not be run at all. *)
Inductive RunError :=
| ExitError (code : Z)
| StartError (msg : string).

(** What a subprocess does: the chunks it writes, in order, each on one of
    its two streams; how [cmd.Run] returns; the elapsed time as the result
    header prints it. *)
Record ProcResult := {
  chunks : list (Stream * string);
  runErr : option RunError;
  elapsed : string
}.

(** What a run reads from outside the program: the operating system, the
    AWS SDK, the Go runtime and [path/filepath.Match]. *)
Record World := {
  Getpid : Z;
  Environ : list string;
  LookPath : string → bool;
  LoadDefaultConfig : option string → string + Config;
  STSAssumeRole : Unit → AssumeRoleInput → string + option Credentials;
  Run : Unit → list string → list string → ProcResult;
  Match : string → string → bool * option string;
  rangeSeed : list nat;
  totalDuration : string
}.

(** ** Effects *)

(** What a run does, in order: a line on standard output, a line on standard
    error, a line handed to the [log] package, the usage text, a nil pointer
    dereference, a load of the AWS configuration (with the region passed to
    [WithRegion], if any), a call of STS, a subprocess, and the three steps
    of the wait group: [wg.Add(1)] with the [go] statement, the deferred
    [wg.Done()] of a worker, and the return of [wg.Wait()]. *)
Inductive event :=
| Print (line : string)
| Eprint (line : string)
| LogLine (line : string)
| UsageText
| NilDereference
| LoadConfigCall (withRegion : option string)
| AssumeRoleCall (who : Unit) (input : AssumeRoleInput)
| Exec (who : Unit) (cmd : Cmd)
| Go (who : Unit)
| Done (who : Unit)
| Wait.

(** How a computation ends: it goes on with a value and the success
    counter, or the process exits. *)
Inductive outcome (A : Type) :=
| Next (a : A) (counter : Z)
| Exit (code : Z).
Arguments Next {A} a counter.
Arguments Exit {A} code.

(** A computation reads the success counter and yields the events it
    performs and its outcome. *)
Definition M (A : Type) : Type := Z → list event * outcome A.

Global Instance M_ret : MRet M := λ A a s, ([], Next a s).
Global Instance M_bind : MBind M := λ A B f m s,
  match m s with
  | (t, Next a s') => let '(t', r) := f a s' in (t ++ t', r)
  | (t, Exit c) => (t, Exit c)
  end.

Definition emit (e : event) : M unit := λ s, ([e], Next tt s).
Definition exit {A} (code : Z) : M A := λ _, ([], Exit code).
Definition skip : M unit := mret tt.

(** [successCounter.Add(1)] and [successfulExecutions.Load()]. *)
Definition counterAdd (n : Z) : M unit := λ s, ([], Next tt (wrap64 (s + n))).
Definition counterLoad : M Z := λ s, ([], Next s s).

(** [r] after the events [t]. *)
Definition prepend {A} (t : list event) (r : list event * outcome A)
    : list event * outcome A :=
  (t ++ r.1, r.2).

Definition trace {A} (r : list event * outcome A) : list event := r.1.
Definition result {A} (r : list event * outcome A) : outcome A := r.2.

Fixpoint forM_ {A} (l : list A) (body : A → M unit) : M unit :=
  match l with
  | [] => skip
  | x :: t => body x ;; forM_ t body
  end.

Definition Println (line : string) : M unit := emit (Print line).
Definition Eprintln (line : string) : M unit := emit (Eprint line).
Definition log_Printf (line : string) : M unit := emit (LogLine line).

(** [usage()] prints the usage text and exits with status 1. *)
Definition usage : M unit := emit UsageText ;; exit 1.

(** Dereferencing a nil pointer panics: the process dies with status 2. *)
Definition deref (p : option string) : M string :=
  match p with
  | Some v => mret v
  | None => emit NilDereference ;; exit 2
  end.

(** What reaches the terminal. [main] starts with
    [log.SetOutput(io.Discard)] unless [-v] is given, and with
    [log.SetOutput(os.Stderr)] when it is: the lines of the logger reach
    standard error in verbose mode only. The time stamp the logger puts before
    a line is left out. *)
Fixpoint stdoutOf (t : list event) : list string :=
  match t with
  | [] => []
  | Print l :: t' => l :: stdoutOf t'
  | _ :: t' => stdoutOf t'
  end.

Fixpoint stderrOf (verbose : bool) (t : list event) : list string :=
  match t with
  | [] => []
  | Eprint l :: t' => l :: stderrOf verbose t'
  | LogLine l :: t' => if verbose then l :: stderrOf verbose t' else stderrOf verbose t'
  | _ :: t' => stderrOf verbose t'
  end.

(** ** internal/pkg *)

Module pkg.

Definition BaseProfileForAssume : string := "default".
Definition FallbackRegion : string := "eu-west-1".
Definition SessionDurationSeconds : Z := 3600.

(** [LogVerbosef]. *)
Definition LogVerbosef (VerboseMode : bool) (line : string) : M unit :=
  if VerboseMode then log_Printf line else skip.

(** The role part of the session name, as [AssumeRole] prepares it. *)
Definition safeRolePart (roleToAssume : string) : string :=
  let safeRolePart := strings.ReplaceAll roleToAssume "/" "-" in
  let safeRolePart := strings.ReplaceAll safeRolePart " " "_" in
  if (30 <? String.length safeRolePart)%nat
  then sliceTo 30 safeRolePart
  else safeRolePart.

(** The [RoleSessionName] that [AssumeRole] sends. *)
Definition sessionName (sessionNameSuffix roleToAssume : string) (pid : Z) : string :=
  let sessionName :=
    sessionNameSuffix +:+ "-" +:+ safeRolePart roleToAssume +:+ "-" +:+ fmtInt pid in
  if (64 <? String.length sessionName)%nat
  then sliceTo 64 sessionName
  else sessionName.

Definition roleArn (accountID roleToAssume : string) : string :=
  "arn:aws:iam::" +:+ accountID +:+ ":role/" +:+ roleToAssume.

(** [AssumeRole]: the error text, or the credentials of the response. *)
Definition AssumeRole (w : World) (VerboseMode : bool) (who : Unit) (baseCfg : Config)
    (accountID roleToAssume sessionNameSuffix : string) : M (string + Credentials) :=
  baseCfg ← (if decide (Region baseCfg = "")
             then LogVerbosef VerboseMode
                    ("Warning: base AWS config for STS AssumeRole call had no region, defaulting to "
                     +:+ FallbackRegion) ;;
                  mret {| Region := FallbackRegion |}
             else mret baseCfg);
  let roleArn := roleArn accountID roleToAssume in
  let sessionName := sessionName sessionNameSuffix roleToAssume (Getpid w) in
  let AssumeRoleInput :=
    {| RoleArn := roleArn;
       RoleSessionName := sessionName;
       DurationSeconds := SessionDurationSeconds |} in
  LogVerbosef VerboseMode
    ("Attempting AssumeRole: ARN=" +:+ roleArn +:+ ", SessionName=" +:+ sessionName) ;;
  emit (AssumeRoleCall who AssumeRoleInput) ;;
  match STSAssumeRole w who AssumeRoleInput with
  | inl err =>
      mret (inl ("sts:AssumeRole call failed for role ARN " +:+ roleArn +:+ ": " +:+ err))
  | inr (Some ({| AccessKeyId := Some _;
                  SecretAccessKey := Some _;
                  SessionToken := Some _ |} as creds)) =>
      LogVerbosef VerboseMode ("Successfully assumed role " +:+ roleArn) ;;
      mret (inr creds)
  | inr _ =>
      mret (inl ("assume role response for role ARN " +:+ roleArn
                 +:+ " did not contain valid credentials"))
  end.

End pkg.

(** ** internal/app/saws *)

Module saws.

(** The test of the loop over [os.Environ()]: the variable is kept. *)
Definition keepVar (envVar : string) : bool :=
  negb (strings.HasPrefix envVar "AWS_PROFILE=") &&
  negb (strings.HasPrefix envVar "AWS_ACCESS_KEY_ID=") &&
  negb (strings.HasPrefix envVar "AWS_SECRET_ACCESS_KEY=") &&
  negb (strings.HasPrefix envVar "AWS_SESSION_TOKEN=") &&
  negb (strings.HasPrefix envVar "AWS_SECURITY_TOKEN=") &&
  negb (strings.HasPrefix envVar "AWS_REGION=") &&
  negb (strings.HasPrefix envVar "AWS_DEFAULT_REGION=") &&
  negb (strings.HasPrefix envVar "AWS_CONFIG_FILE=") &&
  negb (strings.HasPrefix envVar "AWS_SHARED_CREDENTIALS_FILE=").

Fixpoint cleanEnv (originalEnv : list string) : list string :=
  match originalEnv with
  | [] => []
  | envVar :: rest =>
      if keepVar envVar then envVar :: cleanEnv rest else cleanEnv rest
  end.

(** [cmd.Env] once the five variables of the unit are appended. *)
Definition subprocessEnv (originalEnv : list string)
    (accessKeyId secretAccessKey sessionToken region : string) : list string :=
  cleanEnv originalEnv
  ++ ["AWS_ACCESS_KEY_ID=" +:+ accessKeyId]
  ++ ["AWS_SECRET_ACCESS_KEY=" +:+ secretAccessKey]
  ++ ["AWS_SESSION_TOKEN=" +:+ sessionToken]
  ++ ["AWS_REGION=" +:+ region]
  ++ ["AWS_DEFAULT_REGION=" +:+ region].

(** What a [bytes.Buffer] attached to [cmd] holds after [cmd.Run]. *)
Fixpoint captured (cmd : Cmd) (b : Buffer) (cs : list (Stream * string)) : string :=
  match cs with
  | [] => ""
  | (st, data) :: rest =>
      let sink := match st with StdoutStream => Stdout cmd | StderrStream => Stderr cmd end in
      match sink, b with
      | outb, outb | errb, errb => data +:+ captured cmd b rest
      | _, _ => captured cmd b rest
      end
  end.

Definition resultHeader (accountName region status : string) (exitCode : Z)
    (duration : string) : string :=
  "--- Result (Account: " +:+ accountName +:+ ", Region: " +:+ region
  +:+ ", Status: " +:+ status +:+ ", Exit Code: " +:+ fmtInt exitCode
  +:+ ", Duration: " +:+ duration +:+ ") ---".

Definition ProcessAccountRegion (w : World) (VerboseMode : bool) (baseCfg : Config)
    (appCfg : AppConfig) (accountName roleToAssume commandToRun region : string) : M unit :=
  let who : Unit := (accountName, region) in
  match Accounts appCfg !! accountName with
  | None =>
      log_Printf ("ERROR: Account ID not found for SAWS config account name '"
                  +:+ accountName +:+ "'. Skipping.") ;;
      emit (Done who)
  | Some accountID =>
      r ← pkg.AssumeRole w VerboseMode who baseCfg accountID roleToAssume "CmdExecSess";
      match r with
      | inl err =>
          log_Printf ("ERROR: Assume Role Failed Account:" +:+ accountName
                      +:+ " Region:" +:+ region +:+ " Role:" +:+ roleToAssume
                      +:+ ": " +:+ err) ;;
          emit (Done who)
      | inr assumedRoleCreds =>
          accessKeyId ← deref (AccessKeyId assumedRoleCreds);
          secretAccessKey ← deref (SecretAccessKey assumedRoleCreds);
          sessionToken ← deref (SessionToken assumedRoleCreds);
          let cmd :=
            {| Args := ["bash"; "-c"; commandToRun];
               Env := subprocessEnv (Environ w) accessKeyId secretAccessKey sessionToken region;
               Stdout := outb;
               Stderr := errb |} in
          emit (Exec who cmd) ;;
          let ran := Run w who (Args cmd) (Env cmd) in
          let duration := elapsed ran in
          '(exitCode, status) ←
            match runErr ran with
            | None => mret (0, "SUCCESS")
            | Some (ExitError code) => mret (code, "FAILED")
            | Some (StartError msg) =>
                log_Printf ("ERROR executing command '" +:+ commandToRun
                            +:+ "' for Account: " +:+ accountName
                            +:+ ", Region: " +:+ region +:+ ": " +:+ msg) ;;
                mret (-1, "FAILED")
            end;
          Println (resultHeader accountName region status exitCode duration) ;;
          let stdOutput := strings.TrimSpace (captured cmd outb (chunks ran)) in
          let errOutput := strings.TrimSpace (captured cmd errb (chunks ran)) in
          (if decide (stdOutput = "") then skip
           else Println "[STDOUT]" ;; Println stdOutput) ;;
          (if decide (errOutput = "") then skip
           else (if decide (exitCode = 0)
                 then Println "[STDERR (Exit Code 0)]"
                 else Println "[STDERR]") ;;
                Println errOutput) ;;
          Println "--- End Result ---" ;;
          (if decide (exitCode = 0) then counterAdd 1 else skip) ;;
          emit (Done who)
      end
  end.

End saws.

(** ** The command-execution mode of [main] *)

Module main.

(** The flags the command mode reads, as [flag.Parse] leaves them. *)
Record Flags := {
  roleCmd : string;
  selector : string;
  verbose : bool;
  command : string;
  cmdRegionsStr : string;
  processAll : bool;
  instanceIDFlag : string;
  ecsClusterFlag : string;
  ecsTaskFlag : string;
  ecsContainerFlag : string;
  ecsCommandFlag : string
}.

(** The loop that trims every piece and keeps the non-empty ones; the
    regions and the selector patterns are both read with it. *)
Fixpoint trimmedNonEmpty (raw : list string) : list string :=
  match raw with
  | [] => []
  | p :: rest =>
      let trimmed := strings.TrimSpace p in
      if decide (trimmed = "") then trimmedNonEmpty rest
      else trimmed :: trimmedNonEmpty rest
  end.

(** The target regions. *)
Definition targetRegions (w : World) (fl : Flags) : M (list string) :=
  let regionsInput := strings.TrimSpace (cmdRegionsStr fl) in
  if decide (regionsInput = "") then
    pkg.LogVerbosef (verbose fl)
      "Cmd Mode: No -regions flag provided. Determining default region..." ;;
    emit (LoadConfigCall None) ;;
    defaultCmdRegion ←
      match LoadDefaultConfig w None with
      | inl errCfg =>
          pkg.LogVerbosef (verbose fl)
            ("Warning: Could not load AWS config to determine default region: "
             +:+ errCfg +:+ ". Falling back to '" +:+ pkg.FallbackRegion +:+ "'.") ;;
          mret pkg.FallbackRegion
      | inr tempCfg =>
          if decide (Region tempCfg = "") then
            pkg.LogVerbosef (verbose fl)
              ("Warning: Could not determine default region from AWS config/environment. Falling back to '"
               +:+ pkg.FallbackRegion +:+ "'.") ;;
            mret pkg.FallbackRegion
          else
            pkg.LogVerbosef (verbose fl)
              ("Cmd Mode: Using default region from AWS config/environment: "
               +:+ Region tempCfg) ;;
            mret (Region tempCfg)
      end;
    mret [defaultCmdRegion]
  else
    let rawRegions := strings.Split regionsInput "," in
    let targetRegionsCmd := trimmedNonEmpty rawRegions in
    if decide (length targetRegionsCmd = 0%nat) then
      Eprintln "Error: -regions flag provided but contained no valid region names after trimming." ;;
      exit 1
    else
      pkg.LogVerbosef (verbose fl)
        ("Cmd Mode: Using specified regions: " +:+ fmtStrings targetRegionsCmd) ;;
      mret targetRegionsCmd.

(** The patterns of the selector. *)
Definition selectorPatterns (selector : string) : list string :=
  trimmedNonEmpty (strings.Split selector ",").

(** The inner loop: does one of the patterns match the account name? An
    invalid pattern is reported to the verbose log and skipped. *)
Fixpoint matchesAny (w : World) (VerboseMode : bool) (patterns : list string)
    (accName : string) : M bool :=
  match patterns with
  | [] => mret false
  | pattern :: rest =>
      match Match w pattern accName with
      | (_, Some errMatch) =>
          pkg.LogVerbosef VerboseMode
            ("Warning: Invalid pattern '" +:+ pattern +:+ "' in selector: "
             +:+ errMatch +:+ ".") ;;
          matchesAny w VerboseMode rest accName
      | (true, None) => mret true
      | (false, None) => matchesAny w VerboseMode rest accName
      end
  end.

(** The outer loop: the set of the matched account names. *)
Fixpoint matchAccounts (w : World) (VerboseMode : bool) (patterns : list string)
    (names : list string) (matchedAccountsMap : gset string) : M (gset string) :=
  match names with
  | [] => mret matchedAccountsMap
  | accName :: rest =>
      found ← matchesAny w VerboseMode patterns accName;
      matchAccounts w VerboseMode patterns rest
        (if found : bool then {[accName]} ∪ matchedAccountsMap else matchedAccountsMap)
  end.

(** The target account names. *)
Definition targetAccounts (w : World) (fl : Flags) (appConfig : AppConfig)
    : M (list string) :=
  let allAccountNamesSorted :=
    sortStrings (shuffle (rangeSeed w) (elements (dom (Accounts appConfig)))) in
  if processAll fl then
    pkg.LogVerbosef (verbose fl)
      ("Cmd Mode Accounts: Processing all "
       +:+ fmtInt (Z.of_nat (length allAccountNamesSorted)) +:+ " defined accounts.") ;;
    mret allAccountNamesSorted
  else
    let selectorPatterns := selectorPatterns (selector fl) in
    if decide (length selectorPatterns = 0%nat) then
      Eprintln ("Error: Selector flag '-s " +:+ dquote +:+ selector fl
                +:+ dquote +:+ "' provided no valid names/patterns.") ;;
      exit 1
    else
      pkg.LogVerbosef (verbose fl)
        ("Cmd Mode: Applying selector patterns: " +:+ fmtStrings selectorPatterns) ;;
      matchedAccountsMap ←
        matchAccounts w (verbose fl) selectorPatterns allAccountNamesSorted ∅;
      let targetAccountNames :=
        sortStrings (shuffle (rangeSeed w) (elements matchedAccountsMap)) in
      pkg.LogVerbosef (verbose fl)
        ("Cmd Mode: Selected " +:+ fmtInt (Z.of_nat (length targetAccountNames))
         +:+ " account(s) using selector '" +:+ selector fl +:+ "': "
         +:+ fmtStrings targetAccountNames) ;;
      if decide (length targetAccountNames = 0%nat) then
        Eprintln ("Error: No accounts found matching selector patterns: "
                  +:+ fmtStrings selectorPatterns) ;;
        exit 1
      else mret targetAccountNames.

(** The two nested loops that start the workers. A goroutine may run as
    soon as it is started: here each worker runs to its end at that
    point. *)
Definition fanOut (w : World) (fl : Flags) (baseCfgAWS : Config) (appConfig : AppConfig)
    (targetAccountNames targetRegionsCmd : list string) : M unit :=
  forM_ targetAccountNames (λ accountName,
    forM_ targetRegionsCmd (λ region,
      emit (Go (accountName, region)) ;;
      saws.ProcessAccountRegion w (verbose fl) baseCfgAWS appConfig
        accountName (roleCmd fl) (command fl) region)).

(** The end of [main]: the exit status and what is said about it. *)
Definition finalVerdict (VerboseMode : bool) (totalExecutions finalSuccessCount : Z)
    : M unit :=
  if decide (finalSuccessCount = totalExecutions) then
    pkg.LogVerbosef VerboseMode
      ("Cmd Mode: All " +:+ fmtInt finalSuccessCount
       +:+ " executions completed successfully.") ;;
    exit 0
  else
    Eprintln ("Cmd Mode: " +:+ fmtInt finalSuccessCount +:+ " out of "
              +:+ fmtInt totalExecutions
              +:+ " targeted executions completed successfully. "
              +:+ fmtInt (wrap64 (totalExecutions - finalSuccessCount))
              +:+ " failed.") ;;
    exit 1.

(** From the planned total to the exit: the fan-out, the join and the
    verdict. *)
Definition execute (w : World) (fl : Flags) (baseCfgAWS : Config) (appConfig : AppConfig)
    (targetAccountNames targetRegionsCmd : list string) : M unit :=
  let totalExecutions :=
    wrap64 (Z.of_nat (length targetAccountNames) * Z.of_nat (length targetRegionsCmd)) in
  pkg.LogVerbosef (verbose fl)
    ("Cmd Mode: Planning " +:+ fmtInt totalExecutions +:+ " executions ("
     +:+ fmtInt (Z.of_nat (length targetAccountNames)) +:+ " accounts x "
     +:+ fmtInt (Z.of_nat (length targetRegionsCmd)) +:+ " regions).") ;;
  fanOut w fl baseCfgAWS appConfig targetAccountNames targetRegionsCmd ;;
  emit Wait ;;
  finalSuccessCount ← counterLoad;
  pkg.LogVerbosef (verbose fl)
    ("Cmd Mode: Finished " +:+ fmtInt totalExecutions +:+ " executions in "
     +:+ totalDuration w +:+ ".") ;;
  finalVerdict (verbose fl) totalExecutions finalSuccessCount.

(** The branch of [main] for the command-execution mode ([-c]). *)
Definition commandMode (w : World) (fl : Flags) (appConfig : AppConfig) : M unit :=
  (if decide (roleCmd fl = "") then
     Eprintln "Error: Role (-r) is mandatory for Command Execution Mode." ;; usage
   else skip) ;;
  (if processAll fl && negb (bool_decide (selector fl = "")) then
     Eprintln "Error: Cannot use both -a and -s in Command Mode." ;; usage
   else skip) ;;
  (if negb (processAll fl) && bool_decide (selector fl = "") then
     Eprintln "Error: Must use -a or -s in Command Mode." ;; usage
   else skip) ;;
  (if LookPath w "aws" then skip
   else Eprintln "Error: AWS CLI ('aws') not found in PATH. Required for Command Mode." ;;
        exit 1) ;;
  (if negb (bool_decide (ecsClusterFlag fl = "")) || negb (bool_decide (ecsTaskFlag fl = ""))
      || negb (bool_decide (ecsContainerFlag fl = ""))
      || negb (bool_decide (ecsCommandFlag fl = ""))
   then Eprintln "Warning: --ecs-* flags are ignored in command execution mode (-c). Used with -ecs."
   else skip) ;;
  (if decide (instanceIDFlag fl = "") then skip
   else Eprintln "Warning: -i (instance-id) flag ignored in command execution mode (-c). Used with -ssm.") ;;
  targetRegionsCmd ← targetRegions w fl;
  targetAccountNames ← targetAccounts w fl appConfig;
  emit (LoadConfigCall (Some pkg.FallbackRegion)) ;;
  baseCfgAWS ←
    match LoadDefaultConfig w (Some pkg.FallbackRegion) with
    | inl errCfg =>
        Eprintln ("Error loading base AWS configuration (profile '"
                  +:+ pkg.BaseProfileForAssume +:+ "'): " +:+ errCfg) ;;
        exit 1
    | inr cfg => mret cfg
    end;
  execute w fl baseCfgAWS appConfig targetAccountNames targetRegionsCmd.

End main.

(** ** What a trace holds *)

Fixpoint spawned (t : list event) : list Unit :=
  match t with
  | [] => []
  | Go who :: t' => who :: spawned t'
  | _ :: t' => spawned t'
  end.

Fixpoint finished (t : list event) : list Unit :=
  match t with
  | [] => []
  | Done who :: t' => who :: finished t'
  | _ :: t' => finished t'
  end.

Fixpoint assumeCalls (t : list event) : list (Unit * AssumeRoleInput) :=
  match t with
  | [] => []
  | AssumeRoleCall who input :: t' => (who, input) :: assumeCalls t'
  | _ :: t' => assumeCalls t'
  end.

Fixpoint execs (t : list event) : list (Unit * Cmd) :=
  match t with
  | [] => []
  | Exec who cmd :: t' => (who, cmd) :: execs t'
  | _ :: t' => execs t'
  end.

Fixpoint probes (t : list event) : list (option string) :=
  match t with
  | [] => []
  | LoadConfigCall r :: t' => r :: probes t'
  | _ :: t' => probes t'
  end.

(** The entries of an environment for the variable [name]. *)
Definition entriesFor (name : string) (env : list string) : list string :=
  List.filter (λ e, strings.HasPrefix e (name +:+ "=")) env.

(** The data a subprocess wrote on one of its streams. *)
Fixpoint written (st : Stream) (cs : list (Stream * string)) : string :=
  match cs with
  | [] => ""
  | (StdoutStream, data) :: rest =>
      match st with
      | StdoutStream => data +:+ written st rest
      | StderrStream => written st rest
      end
  | (StderrStream, data) :: rest =>
      match st with
      | StdoutStream => written st rest
      | StderrStream => data +:+ written st rest
      end
  end.

(** ** The earlier single-file program *)

(** [saws.go] is the earlier form of the same command mode, kept in the
    repository. Its logger is never silenced: every [LogLine] of these
    definitions reaches standard error. Only what differs from the packages
    above is embedded. *)
Module legacy.

(** The [RoleSessionName] of [assumeRole]: only "/" is replaced. *)
Definition sessionName (sessionNameSuffix roleToAssume : string) (pid : Z) : string :=
  let sessionName :=
    sessionNameSuffix +:+ "-" +:+ strings.ReplaceAll roleToAssume "/" "-"
    +:+ "-" +:+ fmtInt pid in
  if (64 <? String.length sessionName)%nat
  then sliceTo 64 sessionName
  else sessionName.

Definition assumeRole (w : World) (who : Unit)
    (accountID roleToAssume sessionNameSuffix : string) : M (string + Credentials) :=
  let roleArn := pkg.roleArn accountID roleToAssume in
  let assumeRoleInput :=
    {| RoleArn := roleArn;
       RoleSessionName := sessionName sessionNameSuffix roleToAssume (Getpid w);
       DurationSeconds := 3600 |} in
  emit (AssumeRoleCall who assumeRoleInput) ;;
  match STSAssumeRole w who assumeRoleInput with
  | inl err =>
      mret (inl ("sts:AssumeRole call failed for role " +:+ roleArn +:+ ": " +:+ err))
  | inr (Some ({| AccessKeyId := Some _;
                  SecretAccessKey := Some _;
                  SessionToken := Some _ |} as creds)) =>
      mret (inr creds)
  | inr _ =>
      mret (inl ("assume role response for " +:+ roleArn
                 +:+ " did not contain valid credentials"))
  end.

(** The test of the loop over [os.Environ()]: eight prefixes. *)
Definition keepVar (envVar : string) : bool :=
  negb (strings.HasPrefix envVar "AWS_PROFILE=") &&
  negb (strings.HasPrefix envVar "AWS_ACCESS_KEY_ID=") &&
  negb (strings.HasPrefix envVar "AWS_SECRET_ACCESS_KEY=") &&
  negb (strings.HasPrefix envVar "AWS_SESSION_TOKEN=") &&
  negb (strings.HasPrefix envVar "AWS_REGION=") &&
  negb (strings.HasPrefix envVar "AWS_DEFAULT_REGION=") &&
  negb (strings.HasPrefix envVar "AWS_CONFIG_FILE=") &&
  negb (strings.HasPrefix envVar "AWS_SHARED_CREDENTIALS_FILE=").

Fixpoint cleanEnv (originalEnv : list string) : list string :=
  match originalEnv with
  | [] => []
  | envVar :: rest =>
      if keepVar envVar then envVar :: cleanEnv rest else cleanEnv rest
  end.

Definition subprocessEnv (originalEnv : list string)
    (accessKeyId secretAccessKey sessionToken region : string) : list string :=
  cleanEnv originalEnv
  ++ ["AWS_ACCESS_KEY_ID=" +:+ accessKeyId]
  ++ ["AWS_SECRET_ACCESS_KEY=" +:+ secretAccessKey]
  ++ ["AWS_SESSION_TOKEN=" +:+ sessionToken]
  ++ ["AWS_REGION=" +:+ region]
  ++ ["AWS_DEFAULT_REGION=" +:+ region].

(** [processAccountRegion]: both streams of the subprocess go to the one
    buffer, and the block is a header and the trimmed buffer. *)
Definition processAccountRegion (w : World) (accounts : gmap string string)
    (accountName roleToAssume commandToRun region : string) : M unit :=
  let who : Unit := (accountName, region) in
  match accounts !! accountName with
  | None =>
      log_Printf ("Error: Account ID not found for name '" +:+ accountName
                  +:+ "' (check config file 'saws-config.yaml'). Skipping.") ;;
      emit (Done who)
  | Some accountID =>
      r ← assumeRole w who accountID roleToAssume "CmdExecSession";
      match r with
      | inl err =>
          log_Printf ("ERROR: Assume Role Failed for Account: " +:+ accountName
                      +:+ " Region: " +:+ region +:+ " Role: " +:+ roleToAssume
                      +:+ ": " +:+ err) ;;
          emit (Done who)
      | inr finalCreds =>
          accessKeyId ← deref (AccessKeyId finalCreds);
          secretAccessKey ← deref (SecretAccessKey finalCreds);
          sessionToken ← deref (SessionToken finalCreds);
          let cmd :=
            {| Args := ["bash"; "-c"; commandToRun];
               Env := subprocessEnv (Environ w) accessKeyId secretAccessKey sessionToken region;
               Stdout := outb;
               Stderr := outb |} in
          emit (Exec who cmd) ;;
          let ran := Run w who (Args cmd) (Env cmd) in
          exitCode ←
            match runErr ran with
            | None => mret 0
            | Some (ExitError code) => mret code
            | Some (StartError msg) =>
                log_Printf ("ERROR executing command for Account: " +:+ accountName
                            +:+ " Region: " +:+ region +:+ ": " +:+ msg) ;;
                mret (-1)
            end;
          Println ("--- Command Output (Account: " +:+ accountName +:+ ", Region: "
                   +:+ region +:+ ", Exit Code: " +:+ fmtInt exitCode
                   +:+ ", Duration: " +:+ elapsed ran +:+ ") ---") ;;
          Println (strings.TrimSpace (saws.captured cmd outb (chunks ran))) ;;
          (if decide (exitCode = 0) then counterAdd 1 else skip) ;;
          emit (Done who)
      end
  end.

(** The patterns of the selector: its fields between white space. *)
Definition selectorPatterns (selector : string) : list string :=
  strings.Fields selector.

(** The end of [main]: both lines are logged. *)
Definition finalVerdict (totalExecutions finalSuccessCount : Z) : M unit :=
  if decide (finalSuccessCount = totalExecutions) then
    log_Printf ("All " +:+ fmtInt finalSuccessCount
                +:+ " targeted executions (account/region pairs) processed successfully.") ;;
    exit 0
  else
    log_Printf (fmtInt finalSuccessCount +:+ " out of " +:+ fmtInt totalExecutions
                +:+ " targeted executions (account/region pairs) processed successfully. One or more failed. Please review logs above.") ;;
    exit 1.

End legacy.

(** ** Reading a run *)

(** The request of a unit to STS. *)
Definition stsInput (w : World) (accountID role tag : string) : AssumeRoleInput :=
  {| RoleArn := pkg.roleArn accountID role;
     RoleSessionName := pkg.sessionName tag role (Getpid w);
     DurationSeconds := pkg.SessionDurationSeconds |}.

(** The temporary credentials STS grants to a unit, when the call succeeds
    and the response holds all three of them. *)
Definition grantedTo (w : World) (who : Unit) (accountID role tag : string)
    : option (string * string * string) :=
  match STSAssumeRole w who (stsInput w accountID role tag) with
  | inr (Some {| AccessKeyId := Some k; SecretAccessKey := Some sk; SessionToken := Some t |}) =>
      Some (k, sk, t)
  | _ => None
  end.

(** The exit code and the status a worker derives from [cmd.Run]. *)
Definition exitCodeOf (ran : ProcResult) : Z :=
  match runErr ran with
  | None => 0
  | Some (ExitError code) => code
  | Some (StartError _) => -1
  end.

Definition statusOf (ran : ProcResult) : string :=
  match runErr ran with
  | None => "SUCCESS"
  | Some _ => "FAILED"
  end.

(** The command a worker runs for its unit. *)
Definition unitCmd (w : World) (command region k sk tk : string) : Cmd :=
  {| Args := ["bash"; "-c"; command];
     Env := saws.subprocessEnv (Environ w) k sk tk region;
     Stdout := outb;
     Stderr := errb |}.

(** The lines of the result block of a unit whose subprocess returned
    [ran]. *)
Definition resultBlock (accountName region : string) (ran : ProcResult) : list string :=
  let out := strings.TrimSpace (written StdoutStream (chunks ran)) in
  let err := strings.TrimSpace (written StderrStream (chunks ran)) in
  [saws.resultHeader accountName region (statusOf ran) (exitCodeOf ran) (elapsed ran)]
  ++ (if decide (out = "") then [] else ["[STDOUT]"; out])
  ++ (if decide (err = "") then []
      else [if decide (exitCodeOf ran = 0) then "[STDERR (Exit Code 0)]" else "[STDERR]";
            err])
  ++ ["--- End Result ---"].

(** The world [w] with a fault injected into STS: the call of the unit [u]
    fails, every other call is answered as in [w]. *)
Definition failAt (u : Unit) (w : World) : World :=
  {| Getpid := Getpid w;
     Environ := Environ w;
     LookPath := LookPath w;
     LoadDefaultConfig := LoadDefaultConfig w;
     STSAssumeRole := λ who input,
       if decide (who = u) then inl "injected failure" else STSAssumeRole w who input;
     Run := Run w;
     Match := Match w;
     rangeSeed := rangeSeed w;
     totalDuration := totalDuration w |}.

(** Does the unit end with exit code 0, and what does it print? *)
Definition unitRan (w : World) (appCfg : AppConfig) (role command : string) (u : Unit)
    : option ProcResult :=
  accountID ← Accounts appCfg !! u.1;
  '(k, sk, tk) ← grantedTo w u accountID role "CmdExecSess";
  let cmd := unitCmd w command u.2 k sk tk in
  Some (Run w u (Args cmd) (Env cmd)).

Definition succeeds (w : World) (appCfg : AppConfig) (role command : string) (u : Unit)
    : bool :=
  match unitRan w appCfg role command u with
  | Some ran => bool_decide (exitCodeOf ran = 0)
  | None => false
  end.

Definition unitOutput (w : World) (appCfg : AppConfig) (role command : string) (u : Unit)
    : list string :=
  match unitRan w appCfg role command u with
  | Some ran => resultBlock u.1 u.2 ran
  | None => []
  end.

(** The success counter after the workers of [outcomes] have ended, in this
    order, each adding one if its unit succeeded. *)
Definition tally (counter : Z) (outcomes : list bool) : Z :=
  fold_left (λ c (ok : bool), if ok then wrap64 (c + 1) else c) outcomes counter.

(** A trace made of lines for the logger only. *)
Definition onlyLogs (t : list event) : Prop :=
  Forall (λ e, ∃ line, e = LogLine line) t.

(** The pattern matches the account name and is well formed. *)
Definition matches (w : World) (accName pattern : string) : bool :=
  match Match w pattern accName with
  | (true, None) => true
  | _ => false
  end.

(** The world [w] with another order of ranging over maps. *)
Definition withSeed (seed : list nat) (w : World) : World :=
  {| Getpid := Getpid w;
     Environ := Environ w;
     LookPath := LookPath w;
     LoadDefaultConfig := LoadDefaultConfig w;
     STSAssumeRole := STSAssumeRole w;
     Run := Run w;
     Match := Match w;
     rangeSeed := seed;
     totalDuration := totalDuration w |}.

(** Strings made of ASCII white space only, and of commas and ASCII white
    space only. *)
Fixpoint blank (s : string) : bool :=
  match s with
  | EmptyString => true
  | String c t => strings.asciiSpace c && blank t
  end.

Fixpoint commasAndBlanks (s : string) : bool :=
  match s with
  | EmptyString => true
  | String c t => (Ascii.eqb c "," || strings.asciiSpace c) && commasAndBlanks t
  end.

(** A trace in which nothing is printed, started, run or finished. *)
Definition silent (t : list event) : Prop :=
  stdoutOf t = [] ∧ stderrOf false t = [] ∧ execs t = [] ∧ spawned t = []
  ∧ finished t = [].

(** ** Worlds for examples *)

(** A matcher for the worlds of the examples. It follows
    [filepath.Match] on the patterns made of literal bytes, [*] (any run of
    bytes other than the separator), [?] (one such byte) and backslash
    escapes. Character classes are outside of it: it reports every pattern
    with an opening bracket as malformed, as it does a pattern that ends in
    a lone backslash. *)
Fixpoint wellFormed (pattern : string) : bool :=
  match pattern with
  | EmptyString => true
  | String c rest =>
      if Ascii.eqb c "[" then false
      else if Ascii.eqb c "\" then
             match rest with
             | EmptyString => false
             | String _ rest' => wellFormed rest'
             end
           else wellFormed rest
  end.

Fixpoint globGo (pattern name : string) : bool :=
  match pattern with
  | EmptyString => match name with EmptyString => true | _ => false end
  | String c rest =>
      if Ascii.eqb c "*" then
        (fix star (name : string) : bool :=
           globGo rest name
           || match name with
              | EmptyString => false
              | String d name' => negb (Ascii.eqb d "/") && star name'
              end) name
      else if Ascii.eqb c "?" then
        match name with
        | EmptyString => false
        | String d name' => negb (Ascii.eqb d "/") && globGo rest name'
        end
      else if Ascii.eqb c "\" then
        match rest, name with
        | String e rest', String d name' => Ascii.eqb e d && globGo rest' name'
        | _, _ => false
        end
      else
        match name with
        | EmptyString => false
        | String d name' => Ascii.eqb c d && globGo rest name'
        end
  end.

Definition globMatch (pattern name : string) : bool * option string :=
  if wellFormed pattern then (globGo pattern name, None)
  else (false, Some "syntax error in pattern").

Definition demoConfig : AppConfig :=
  {| Accounts := list_to_map [("dev-a", "111111111111"); ("dev-b", "222222222222");
                              ("prod-a", "333333333333")];
     CommonRegions := ["eu-west-1"; "us-east-1"];
     Roles := ∅ |}.

(** A world in which STS refuses the role in account 333333333333, the
    command prints a line and exits 0 in eu-west-1 and warns and exits 3 in
    any other region. *)
Definition demoWorld : World :=
  {| Getpid := 4242;
     Environ := ["PATH=/usr/bin"; "AWS_PROFILE=work"; "AWS_ACCESS_KEY_ID=AKIAOLD";
                 "AWS_SECURITY_TOKEN=old"; "AWS_REGION=ap-south-1"; "HOME=/root";
                 "AWS_ACCESS_KEY_ID=AKIAOLDER"];
     LookPath := λ _, true;
     LoadDefaultConfig := λ withRegion,
       inr {| Region := default "us-east-1" withRegion |};
     STSAssumeRole := λ who input,
       if String.prefix "arn:aws:iam::333333333333:" (RoleArn input)
       then inl "AccessDenied"
       else inr (Some {| AccessKeyId := Some ("ASIA-" +:+ who.1 +:+ "-" +:+ who.2);
                         SecretAccessKey := Some "secret";
                         SessionToken := Some "token" |});
     Run := λ who args env,
       if String.eqb who.2 "eu-west-1"
       then {| chunks := [(StdoutStream, "bucket-1  ")];
               runErr := None;
               elapsed := "12ms" |}
       else {| chunks := [(StderrStream, "warning: slow"); (StdoutStream, " ")];
               runErr := Some (ExitError 3);
               elapsed := "40ms" |};
     Match := globMatch;
     rangeSeed := [2; 0; 1]%nat;
     totalDuration := "1s" |}.

Definition flagsFor (selector regions : string) : main.Flags :=
  {| main.roleCmd := "ReadOnly";
     main.selector := selector;
     main.verbose := false;
     main.command := "aws s3 ls";
     main.cmdRegionsStr := regions;
     main.processAll := false;
     main.instanceIDFlag := "";
     main.ecsClusterFlag := "";
     main.ecsTaskFlag := "";
     main.ecsContainerFlag := "";
     main.ecsCommandFlag := "" |}.

Definition demoFlags : main.Flags := flagsFor "dev-*, prod-a" "eu-west-1, us-east-1".

(** * The configuration file and the interactive modes *)

(** [s[n:]]. *)
Definition sliceFrom (n : nat) (s : string) : string :=
  substring n (String.length s - n) s.

(** ** The file system *)

(** What the program reads of the file system: [os.UserHomeDir] (an error
    or the directory), whether [os.Stat] finds a path, [os.ReadFile] (an
    error or the data), [yaml.Unmarshal] into the [AppConfig] that
    [LoadConfig] has prepared (an error or the decoded structure) and
    [filepath.Join]. *)
Record Files := {
  UserHomeDir : string + string;
  Stat : string → bool;
  ReadFile : string → string + string;
  Unmarshal : string → string + AppConfig;
  Join : list string → string
}.

Module config.

Definition ConfigFileName : string := "saws-config.yaml".
Definition AWSConfigDir : string := ".aws".
Definition envRoleVar : string := "SAWS_ROLE".
Definition envRegionVar : string := "SAWS_REGION".
Definition envAccountVar : string := "SAWS_ACCOUNT".

(** [LoadConfig]: the error text, or the loaded configuration. The package
    variables [accounts], [commonRegions] and [roles] it sets are the
    fields of the configuration it returns. *)
Definition LoadConfig (fs : Files) (VerboseMode : bool) (filePath : string)
    : M (string + AppConfig) :=
  match ReadFile fs filePath with
  | inl err =>
      mret (inl ("failed to read SAWS config file '" +:+ filePath +:+ "': " +:+ err))
  | inr data =>
      match Unmarshal fs data with
      | inl err =>
          mret (inl ("failed to parse YAML from SAWS config file '" +:+ filePath
                     +:+ "': " +:+ err))
      | inr loadedAppConfig =>
          if decide (size (Accounts loadedAppConfig) = 0%nat) then
            mret (inl ("SAWS config validation failed: 'accounts' map cannot be empty in '"
                       +:+ filePath +:+ "'"))
          else
            (if decide (length (CommonRegions loadedAppConfig) = 0%nat) then
               pkg.LogVerbosef VerboseMode
                 ("Warning: 'common_regions' list is empty in SAWS config '" +:+ filePath
                  +:+ "'. Region selection might be limited.")
             else skip) ;;
            (if decide (size (Roles loadedAppConfig) = 0%nat) then
               pkg.LogVerbosef VerboseMode
                 ("Info: 'roles' map is empty or missing in SAWS config '" +:+ filePath
                  +:+ "'. Roles must be provided via -r flag or " +:+ envRoleVar
                  +:+ " env var for session modes, or selected manually.")
             else skip) ;;
            pkg.LogVerbosef VerboseMode
              ("Loaded SAWS config: "
               +:+ fmtInt (Z.of_nat (size (Accounts loadedAppConfig))) +:+ " accounts, "
               +:+ fmtInt (Z.of_nat (length (CommonRegions loadedAppConfig)))
               +:+ " regions, "
               +:+ fmtInt (Z.of_nat (size (Roles loadedAppConfig))) +:+ " roles from "
               +:+ filePath) ;;
            mret (inr loadedAppConfig)
      end
  end.

(** [FindConfigPath]: the error text, or the path of the configuration
    file. *)
Definition FindConfigPath (fs : Files) (VerboseMode : bool) (configFileOverride : string)
    : M (string + string) :=
  if decide (configFileOverride = "") then
    found ←
      match UserHomeDir fs with
      | inr homeDir =>
          let configPath := Join fs [homeDir; AWSConfigDir; ConfigFileName] in
          if Stat fs configPath then mret (Some configPath) else mret None
      | inl err =>
          pkg.LogVerbosef VerboseMode
            ("Warning: Could not determine home directory: " +:+ err
             +:+ ". Cannot check default ~/" +:+ AWSConfigDir +:+ "/" +:+ ConfigFileName
             +:+ " location.") ;;
          mret None
      end;
    match found with
    | Some configPath => mret (inr configPath)
    | None =>
        let configPathLocal := ConfigFileName in
        if Stat fs configPathLocal then mret (inr configPathLocal)
        else
          mret (inl ("SAWS configuration file ('" +:+ ConfigFileName
                     +:+ "') not found in standard locations (~/" +:+ AWSConfigDir
                     +:+ "/" +:+ ConfigFileName +:+ ", ./" +:+ ConfigFileName
                     +:+ ") and no -config flag provided"))
    end
  else
    expandedPath ←
      (if strings.HasPrefix configFileOverride "~" then
         match UserHomeDir fs with
         | inr homeDir => mret (Join fs [homeDir; sliceFrom 1 configFileOverride])
         | inl errHome =>
             pkg.LogVerbosef VerboseMode
               ("Warning: Could not expand '~' in config path '" +:+ configFileOverride
                +:+ "': " +:+ errHome) ;;
             mret configFileOverride
         end
       else mret configFileOverride);
    if Stat fs expandedPath then
      pkg.LogVerbosef VerboseMode
        ("Using specified SAWS config file: " +:+ expandedPath) ;;
      mret (inr expandedPath)
    else
      mret (inl ("specified SAWS config file '" +:+ configFileOverride
                 +:+ "' (expanded to '" +:+ expandedPath +:+ "') not found")).

End config.

(** ** The terminal *)

(** A [survey.Select] prompt. *)
Record SelectPrompt := {
  Message : string;
  Options : list string;
  Default : option string;
  PageSize : Z
}.

(** What the interactive modes read of the terminal and of the process:
    [os.Getenv], the answer to a [survey.Select] and to a [survey.Input]
    prompt asked with [survey.AskOne] (an error or the answer), the error of
    [cmd.Run] for a command attached to the standard streams of the
    process, and the [Expiration] of credentials, in local time as
    RFC 1123, when the response of STS bears one. *)
Record Terminal := {
  Getenv : string → string;
  AskSelect : SelectPrompt → string + string;
  AskInput : string → string + string;
  RunAttached : list string → list string → option RunError;
  Expiration : Credentials → option string
}.

(** The events of an interactive mode: those of the command mode, a prompt
    of either kind, a command run on the terminal, and a call of
    [DescribeTasks] for the tasks of a cluster. *)
Inductive ievent :=
| Core (e : event)
| Ask (p : SelectPrompt)
| AskLine (message : string)
| Attached (args env : list string)
| DescribeTasksCall (cluster : string) (tasks : list string).

(** How an interactive computation ends: with a value, or the process
    exits. *)
Inductive ended (A : Type) :=
| Ret (a : A)
| Halt (code : Z).
Arguments Ret {A} a.
Arguments Halt {A} code.

Definition J (A : Type) : Type := list ievent * ended A.

Global Instance J_ret : MRet J := λ A a, ([], Ret a).
Global Instance J_bind : MBind J := λ A B f m,
  match m with
  | (t, Ret a) => let '(t', r) := f a in (t ++ t', r)
  | (t, Halt c) => (t, Halt c)
  end.

(** A computation of the command mode within an interactive one. The
    success counter is at zero, as it is when [main] starts. *)
Definition liftM {A} (m : M A) : J A :=
  match m 0 with
  | (t, Next a _) => (map Core t, Ret a)
  | (t, Exit c) => (map Core t, Halt c)
  end.

Definition logv (VerboseMode : bool) (line : string) : J unit :=
  liftM (pkg.LogVerbosef VerboseMode line).
Definition eprintln (line : string) : J unit := liftM (Eprintln line).
Definition halt {A} (code : Z) : J A := ([], Halt code).

(** [survey.AskOne] with a [survey.Select] and with a [survey.Input]. *)
Definition askSelect (term : Terminal) (p : SelectPrompt) : J (string + string) :=
  ([Ask p], Ret (AskSelect term p)).
Definition askInput (term : Terminal) (message : string) : J (string + string) :=
  ([AskLine message], Ret (AskInput term message)).

(** The events of the command mode among those of an interactive one, the
    prompts, and the commands run on the terminal. *)
Fixpoint core (t : list ievent) : list event :=
  match t with
  | [] => []
  | Core e :: t' => e :: core t'
  | _ :: t' => core t'
  end.

Fixpoint prompts (t : list ievent) : list ievent :=
  match t with
  | [] => []
  | Ask p :: t' => Ask p :: prompts t'
  | AskLine m :: t' => AskLine m :: prompts t'
  | _ :: t' => prompts t'
  end.

Fixpoint attached (t : list ievent) : list (list string * list string) :=
  match t with
  | [] => []
  | Attached args env :: t' => (args, env) :: attached t'
  | _ :: t' => attached t'
  end.

Fixpoint described (t : list ievent) : list (string * list string) :=
  match t with
  | [] => []
  | DescribeTasksCall cluster tasks :: t' => (cluster, tasks) :: described t'
  | _ :: t' => described t'
  end.

Fixpoint forJ {A} (l : list A) (body : A → J unit) : J unit :=
  match l with
  | [] => mret tt
  | x :: rest => body x ;; forJ rest body
  end.

(** ** The context of a session *)

Module SelectedContext.
Record t := {
  AccountName : string;
  AccountID : string;
  RoleName : string;
  Region : string
}.
End SelectedContext.

Module establish.

(** [accounts[name]]: the empty string for a name that is not a key. *)
Definition accountOf (accounts : gmap string string) (name : string) : string :=
  default "" (accounts !! name).

Definition displayStr (accounts : gmap string string) (name : string) : string :=
  name +:+ " (" +:+ accountOf accounts name +:+ ")".

(** The loop that fills [optionToAccountNameMap]. *)
Fixpoint optionToAccountNameMap (accounts : gmap string string) (names : list string)
    (m : gmap string string) : gmap string string :=
  match names with
  | [] => m
  | name :: rest =>
      optionToAccountNameMap accounts rest (<[displayStr accounts name := name]> m)
  end.

(** The loop over the account names: a name equal to the selector ends it
    with this name alone. *)
Fixpoint matchSelector (w : World) (VerboseMode : bool) (currentAccountSelector : string)
    (names matchedAccountNames : list string) : M (list string) :=
  match names with
  | [] => mret matchedAccountNames
  | accName :: rest =>
      if decide (currentAccountSelector = accName) then mret [accName]
      else
        match Match w currentAccountSelector accName with
        | (_, Some err) =>
            pkg.LogVerbosef VerboseMode
              ("Warning: Invalid pattern '" +:+ currentAccountSelector
               +:+ "' in selector: " +:+ err
               +:+ ". Skipping this pattern for account '" +:+ accName +:+ "'.") ;;
            matchSelector w VerboseMode currentAccountSelector rest matchedAccountNames
        | (true, None) =>
            matchSelector w VerboseMode currentAccountSelector rest
              (matchedAccountNames ++ [accName])
        | (false, None) =>
            matchSelector w VerboseMode currentAccountSelector rest matchedAccountNames
        end
  end.

(** The account: the error text, or the selected account name. *)
Definition selectAccount (w : World) (term : Terminal) (VerboseMode : bool)
    (accounts : gmap string string) (accountSelectorFlag : string) : J (string + string) :=
  let allAccountNames := sortStrings (shuffle (rangeSeed w) (elements (dom accounts))) in
  currentAccountSelector ←
    (if decide (accountSelectorFlag = "") then
       let currentAccountSelector := Getenv term config.envAccountVar in
       (if decide (currentAccountSelector = "") then mret tt
        else logv VerboseMode
               ("Using account selector '" +:+ currentAccountSelector +:+ "' from "
                +:+ config.envAccountVar +:+ " environment variable.")) ;;
       mret currentAccountSelector
     else
       logv VerboseMode
         ("Using account selector '" +:+ accountSelectorFlag +:+ "' from -s flag.") ;;
       mret accountSelectorFlag);
  r ←
    (if decide (currentAccountSelector = "") then mret (inr "")
     else
       matchedAccountNames ←
         liftM (matchSelector w VerboseMode currentAccountSelector allAccountNames []);
       match matchedAccountNames with
       | [] =>
           mret (inl ("selector '" +:+ currentAccountSelector +:+ "' (from flag or "
                      +:+ config.envAccountVar
                      +:+ ") did not match any accounts in SAWS config"))
       | [selectedAccountName] =>
           logv VerboseMode
             ("Automatically selected account '" +:+ selectedAccountName
              +:+ "' based on unique selector match '" +:+ currentAccountSelector
              +:+ "'") ;;
           mret (inr selectedAccountName)
       | _ =>
           logv VerboseMode
             ("Selector '" +:+ currentAccountSelector
              +:+ "' matched multiple accounts. Please choose one:") ;;
           let matchedAccountNames := sortStrings matchedAccountNames in
           let displayOptions := map (displayStr accounts) matchedAccountNames in
           answer ←
             askSelect term {| Message := "Choose an AWS Account:";
                               Options := displayOptions;
                               Default := None;
                               PageSize := 15 |};
           match answer with
           | inl err =>
               mret (inl ("account selection from multiple matches failed: " +:+ err))
           | inr chosenDisplayStr =>
               mret (inr (default ""
                            (optionToAccountNameMap accounts matchedAccountNames ∅
                               !! chosenDisplayStr)))
           end
       end);
  match r with
  | inl err => mret (inl err)
  | inr selectedAccountName =>
      if decide (selectedAccountName = "") then
        eprintln "Please select an account:" ;;
        let displayOptions := map (displayStr accounts) allAccountNames in
        answer ←
          askSelect term {| Message := "Choose an AWS Account:";
                            Options := displayOptions;
                            Default := None;
                            PageSize := 15 |};
        match answer with
        | inl err => mret (inl ("interactive account selection failed: " +:+ err))
        | inr chosenDisplayStr =>
            mret (inr (default ""
                         (optionToAccountNameMap accounts allAccountNames ∅
                            !! chosenDisplayStr)))
        end
      else mret (inr selectedAccountName)
  end.

(** The role: the error text, or the selected role name. *)
Definition selectRole (w : World) (term : Terminal) (VerboseMode : bool)
    (roles : gmap string string) (roleFlag : string) : J (string + string) :=
  currentRoleName ←
    (if decide (roleFlag = "") then
       let currentRoleName := Getenv term config.envRoleVar in
       (if decide (currentRoleName = "") then mret tt
        else logv VerboseMode
               ("Using role '" +:+ currentRoleName +:+ "' from " +:+ config.envRoleVar
                +:+ " environment variable.")) ;;
       mret currentRoleName
     else
       logv VerboseMode ("Using role '" +:+ roleFlag +:+ "' from -r flag.") ;;
       mret roleFlag);
  if decide (currentRoleName = "") then
    if decide (size roles = 0%nat) then
      eprintln "No 'roles' section in config. Please provide role name:" ;;
      answer ← askInput term "Enter the exact IAM Role Name to Assume:";
      match answer with
      | inl err => mret (inl ("manual role input failed: " +:+ err))
      | inr selectedRoleName => mret (inr selectedRoleName)
      end
    else
      eprintln "Please select a role:" ;;
      let friendlyRoleNames :=
        sortStrings (shuffle (rangeSeed w) (elements (dom roles))) in
      answer ←
        askSelect term {| Message := "Choose Role to Assume:";
                          Options := friendlyRoleNames;
                          Default := None;
                          PageSize := 15 |};
      match answer with
      | inl err => mret (inl ("interactive role selection failed: " +:+ err))
      | inr chosenFriendlyName =>
          let selectedRoleName := default "" (roles !! chosenFriendlyName) in
          logv VerboseMode
            ("Selected friendly role '" +:+ chosenFriendlyName +:+ "' -> actual role '"
             +:+ selectedRoleName +:+ "'.") ;;
          mret (inr selectedRoleName)
      end
  else
    match roles !! currentRoleName with
    | Some friendlyRole =>
        logv VerboseMode
          ("Interpreted non-interactive role '" +:+ currentRoleName
           +:+ "' as friendly name for actual role '" +:+ friendlyRole +:+ "'.") ;;
        mret (inr friendlyRole)
    | None => mret (inr currentRoleName)
    end.

(** [awsconfig.LoadDefaultConfig] with the base profile: the region it
    names, if it loads and names one. *)
Definition detectRegion (w : World) : J (option string) :=
  liftM (emit (LoadConfigCall None)) ;;
  match LoadDefaultConfig w None with
  | inr tempCfg => if decide (Region tempCfg = "") then mret None
                   else mret (Some (Region tempCfg))
  | inl _ => mret None
  end.

(** The region: the error text, or the selected region. *)
Definition selectRegion (w : World) (term : Terminal) (VerboseMode : bool)
    (commonRegions : list string) (regionFlagFromCmd : string) : J (string + string) :=
  currentRegion ←
    (if decide (regionFlagFromCmd = "") then
       let currentRegion := Getenv term config.envRegionVar in
       (if decide (currentRegion = "") then mret tt
        else logv VerboseMode
               ("Using region '" +:+ currentRegion +:+ "' from " +:+ config.envRegionVar
                +:+ " environment variable.")) ;;
       mret currentRegion
     else
       logv VerboseMode ("Using region '" +:+ regionFlagFromCmd +:+ "' from -region flag.") ;;
       mret regionFlagFromCmd);
  if decide (currentRegion = "") then
    availablePromptRegions ←
      (if decide (length commonRegions = 0%nat) then
         logv VerboseMode
           "No 'common_regions' defined in SAWS config. Trying to detect default AWS region from your environment..." ;;
         detected ← detectRegion w;
         match detected with
         | Some region =>
             logv VerboseMode
               ("Detected default AWS region: " +:+ region
                +:+ ". Using it as the only option for selection.") ;;
             mret [region]
         | None =>
             logv VerboseMode
               "Could not detect default AWS region from environment. Please provide the region manually." ;;
             mret commonRegions
         end
       else mret commonRegions);
    match availablePromptRegions with
    | first :: _ =>
        detected ← detectRegion w;
        let defaultRegionChoice := default pkg.FallbackRegion detected in
        let foundDefaultInList :=
          existsb (λ r, bool_decide (r = defaultRegionChoice)) availablePromptRegions in
        let defaultRegionChoice :=
          if foundDefaultInList then defaultRegionChoice else first in
        eprintln "Please select a region:" ;;
        answer ←
          askSelect term {| Message := "Choose AWS Region:";
                            Options := availablePromptRegions;
                            Default := Some defaultRegionChoice;
                            PageSize := 10 |};
        match answer with
        | inl err => mret (inl ("interactive region selection failed: " +:+ err))
        | inr selectedRegion => mret (inr selectedRegion)
        end
    | [] =>
        eprintln "Please provide region manually:" ;;
        answer ← askInput term "Enter the AWS Region:";
        match answer with
        | inl err => mret (inl ("manual region input failed: " +:+ err))
        | inr selectedRegion => mret (inr selectedRegion)
        end
    end
  else mret (inr currentRegion).

(** [EstablishAWSContextAndAssumeRole]: the error text, or the context and
    the credentials. [appConfig] holds the package variables [accounts],
    [commonRegions] and [roles] as [LoadConfig] has set them. *)
Definition EstablishAWSContextAndAssumeRole (w : World) (term : Terminal)
    (VerboseMode : bool) (appConfig : AppConfig)
    (accountSelectorFlag roleFlag regionFlagFromCmd sessionType : string)
    : J (string + (SelectedContext.t * Credentials)) :=
  let accounts := Accounts appConfig in
  if decide (size accounts = 0%nat) then
    mret (inl "internal error: accounts map is empty (SAWS config not loaded or no accounts defined)")
  else
    r ← selectAccount w term VerboseMode accounts accountSelectorFlag;
    match r with
    | inl err => mret (inl err)
    | inr selectedAccountName =>
        let accountID := accountOf accounts selectedAccountName in
        r ← selectRole w term VerboseMode (Roles appConfig) roleFlag;
        match r with
        | inl err => mret (inl err)
        | inr selectedRoleName =>
            if decide (selectedRoleName = "") then
              mret (inl "could not determine role to assume")
            else
              r ← selectRegion w term VerboseMode (CommonRegions appConfig)
                    regionFlagFromCmd;
              match r with
              | inl err => mret (inl err)
              | inr selectedRegion =>
                  if decide (selectedRegion = "") then
                    mret (inl "could not determine region")
                  else
                    let sCtx :=
                      {| SelectedContext.AccountName := selectedAccountName;
                         SelectedContext.AccountID := accountID;
                         SelectedContext.RoleName := selectedRoleName;
                         SelectedContext.Region := selectedRegion |} in
                    logv VerboseMode
                      ("Context established: Account=" +:+ selectedAccountName +:+ "("
                       +:+ accountID +:+ "), Role=" +:+ selectedRoleName +:+ ", Region="
                       +:+ selectedRegion +:+ ". Assuming role for session type: "
                       +:+ sessionType) ;;
                    liftM (emit (LoadConfigCall (Some pkg.FallbackRegion))) ;;
                    match LoadDefaultConfig w (Some pkg.FallbackRegion) with
                    | inl err =>
                        mret (inl ("failed to load base AWS configuration for STS AssumeRole call: "
                                   +:+ err))
                    | inr baseCfg =>
                        r ← liftM (pkg.AssumeRole w VerboseMode
                                     (selectedAccountName, selectedRegion) baseCfg
                                     accountID selectedRoleName sessionType);
                        match r with
                        | inl err =>
                            mret (inl ("failed to assume role '" +:+ selectedRoleName
                                       +:+ "' in account " +:+ selectedAccountName +:+ " ("
                                       +:+ accountID +:+ ") for region " +:+ selectedRegion
                                       +:+ ": " +:+ err))
                        | inr finalCreds => mret (inr (sCtx, finalCreds))
                        end
                    end
              end
        end
    end.

End establish.

(** ** The interactive sub-shell *)

Module subshell.

(** The test of the loop over [os.Environ()]: the variable is kept. *)
Definition keepVar (e : string) : bool :=
  negb (strings.HasPrefix e "AWS_ACCESS_KEY_ID=") &&
  negb (strings.HasPrefix e "AWS_SECRET_ACCESS_KEY=") &&
  negb (strings.HasPrefix e "AWS_SESSION_TOKEN=") &&
  negb (strings.HasPrefix e "AWS_SECURITY_TOKEN=") &&
  negb (strings.HasPrefix e "AWS_REGION=") &&
  negb (strings.HasPrefix e "AWS_DEFAULT_REGION=") &&
  negb (strings.HasPrefix e "AWS_PROFILE=") &&
  negb (strings.HasPrefix e "SAWS_INFO_").

Fixpoint keptEnv (currentEnv : list string) : list string :=
  match currentEnv with
  | [] => []
  | e :: rest => if keepVar e then e :: keptEnv rest else keptEnv rest
  end.

(** [newEnv] once the nine variables of the session are appended. *)
Definition newEnv (currentEnv : list string)
    (accessKeyId secretAccessKey sessionToken : string) (sCtx : SelectedContext.t)
    : list string :=
  keptEnv currentEnv
  ++ ["AWS_ACCESS_KEY_ID=" +:+ accessKeyId]
  ++ ["AWS_SECRET_ACCESS_KEY=" +:+ secretAccessKey]
  ++ ["AWS_SESSION_TOKEN=" +:+ sessionToken]
  ++ ["AWS_REGION=" +:+ SelectedContext.Region sCtx]
  ++ ["AWS_DEFAULT_REGION=" +:+ SelectedContext.Region sCtx]
  ++ ["SAWS_INFO_ACCOUNT_NAME=" +:+ SelectedContext.AccountName sCtx]
  ++ ["SAWS_INFO_ACCOUNT_ID=" +:+ SelectedContext.AccountID sCtx]
  ++ ["SAWS_INFO_ROLE_NAME=" +:+ SelectedContext.RoleName sCtx]
  ++ ["SAWS_INFO_REGION=" +:+ SelectedContext.Region sCtx].

(** [StartInteractiveSubShell]: the error text, if any. The text of
    [exitErr.String()] is the one of a process that has exited. *)
Definition StartInteractiveSubShell (w : World) (term : Terminal) (VerboseMode : bool)
    (sCtx : SelectedContext.t) (creds : Credentials) : J (option string) :=
  logv VerboseMode "Preparing interactive sub-shell environment..." ;;
  let currentEnv := Environ w in
  accessKeyId ← liftM (deref (AccessKeyId creds));
  secretAccessKey ← liftM (deref (SecretAccessKey creds));
  sessionToken ← liftM (deref (SessionToken creds));
  let newEnv := newEnv currentEnv accessKeyId secretAccessKey sessionToken sCtx in
  shell ←
    (let shell := Getenv term "SHELL" in
     if decide (shell = "") then
       logv VerboseMode
         "SHELL environment variable not set, defaulting to bash for sub-shell" ;;
       mret "bash"
     else mret shell);
  logv VerboseMode ("Starting interactive sub-shell: " +:+ shell) ;;
  eprintln ("AWS context configured for: Account=" +:+ SelectedContext.AccountName sCtx
            +:+ "(" +:+ SelectedContext.AccountID sCtx +:+ "), Role="
            +:+ SelectedContext.RoleName sCtx +:+ ", Region="
            +:+ SelectedContext.Region sCtx) ;;
  match Expiration term creds with
  | Some expires => eprintln ("Session expires around: " +:+ expires)
  | None => mret tt
  end ;;
  eprintln "Type 'exit' or press Ctrl+D to end this session." ;;
  (([Attached [shell] newEnv], Ret tt) : J unit) ;;
  let err := RunAttached term [shell] newEnv in
  logv VerboseMode "Interactive sub-shell session ended." ;;
  match err with
  | None => mret None
  | Some (ExitError code) =>
      logv VerboseMode ("Sub-shell exited with status: exit status " +:+ fmtInt code) ;;
      mret None
  | Some (StartError msg) =>
      mret (Some ("failed to run interactive sub-shell '" +:+ shell +:+ "': " +:+ msg))
  end.

End subshell.

(** ** The whole program *)

Module entry.

(** The flags as [flag.Parse] leaves them: those the command mode reads
    and the others. *)
Record Args := {
  flags : main.Flags;
  configFile : string;
  help : bool;
  contextRegionFlag : string;
  sessionModeFlag : bool;
  ssmSessionFlag : bool;
  ecsModeFlag : bool
}.

(** The handlers of the SSM and of the ECS mode, as [main] calls them:
    each gives the error text, if any. *)
Record Handlers := {
  HandleSSMSession :
    string → string → string → string → J (option string);
  HandleEcsExecSession :
    AppConfig → string → string → string → string → string → string → string
    → J (option string)
}.

Definition anyEcsFlag (fl : main.Flags) : bool :=
  negb (bool_decide (main.ecsClusterFlag fl = ""))
  || negb (bool_decide (main.ecsTaskFlag fl = ""))
  || negb (bool_decide (main.ecsContainerFlag fl = ""))
  || negb (bool_decide (main.ecsCommandFlag fl = "")).

Definition warnIf (condition : bool) (line : string) : J unit :=
  if condition then eprintln line else mret tt.

(** [main] once the configuration is loaded: from the test of [-h] on. *)
Definition dispatch (w : World) (term : Terminal) (h : Handlers) (a : Args)
    (appConfig : AppConfig) : J unit :=
  let fl := flags a in
  let VerboseMode := main.verbose fl in
  (if help a then liftM usage else mret tt) ;;
  let isCommandMode := negb (bool_decide (main.command fl = "")) in
  let isSessionMode := sessionModeFlag a in
  let isSSMSessionMode := ssmSessionFlag a in
  let isECSMode := ecsModeFlag a in
  let modeCount :=
    ((if isCommandMode then 1 else 0) + (if isSessionMode then 1 else 0)
     + (if isSSMSessionMode then 1 else 0) + (if isECSMode then 1 else 0))%nat in
  (if decide (1 < modeCount)%nat then
     eprintln "Error: Cannot use -c, -e, -ssm, and -ecs flags together. Please choose one mode." ;;
     liftM usage
   else mret tt) ;;
  (if decide (modeCount = 0%nat) then
     eprintln "Error: No mode selected. Please specify -c, -e, -ssm, or -ecs." ;;
     liftM usage
   else mret tt) ;;
  if isSessionMode then
    warnIf (negb (bool_decide (main.cmdRegionsStr fl = "")))
      "Warning: -regions flag ignored in interactive session mode (-e). Use -region for context." ;;
    warnIf (main.processAll fl)
      "Warning: -a flag ignored in interactive session mode (-e)." ;;
    warnIf (negb (bool_decide (main.instanceIDFlag fl = "")))
      "Warning: -i (instance-id) flag ignored in interactive sub-shell mode (-e). Used with -ssm." ;;
    warnIf (anyEcsFlag fl)
      "Warning: --ecs-* flags are ignored in interactive sub-shell mode (-e). Used with -ecs." ;;
    r ← establish.EstablishAWSContextAndAssumeRole w term VerboseMode appConfig
          (main.selector fl) (main.roleCmd fl) (contextRegionFlag a)
          "InteractiveSubShell";
    match r with
    | inl errCtx =>
        eprintln ("Failed to establish AWS context for sub-shell: " +:+ errCtx) ;;
        halt 1
    | inr (sCtx, creds) =>
        eprintln "# Optional: To show saws context in your prompt (for -e sub-shell), add to your ~/.bashrc or ~/.zshrc:" ;;
        eprintln ("#   if [ -n " +:+ dquote +:+ "$SAWS_INFO_ACCOUNT_NAME" +:+ dquote
                  +:+ " ]; then") ;;
        eprintln ("#     SAWS_PROMPT=" +:+ dquote
                  +:+ "(\[\033[01;32m\]${SAWS_INFO_ACCOUNT_NAME}(${SAWS_INFO_ACCOUNT_ID})/${SAWS_INFO_ROLE_NAME}/${SAWS_INFO_REGION}\[\033[00m\]):\[\033[01;34m\]\w\[\033[00m\]\$ "
                  +:+ dquote) ;;
        eprintln ("#     PS1=" +:+ dquote +:+ "$SAWS_PROMPT" +:+ dquote
                  +:+ " # Or integrate into your existing PS1 logic") ;;
        eprintln "#   fi" ;;
        eprintln "# -------------------------------------------------------------------------------------------------" ;;
        errCtx ← subshell.StartInteractiveSubShell w term VerboseMode sCtx creds;
        match errCtx with
        | Some err =>
            eprintln ("Interactive sub-shell session failed: " +:+ err) ;;
            halt 1
        | None => halt 0
        end
    end
  else if isSSMSessionMode then
    warnIf (negb (bool_decide (main.cmdRegionsStr fl = "")))
      "Warning: -regions flag ignored in SSM session mode (-ssm). Use -region for context." ;;
    warnIf (main.processAll fl)
      "Warning: -a flag ignored in SSM session mode (-ssm)." ;;
    warnIf (negb (bool_decide (main.command fl = "")))
      "Warning: -c (command) flag ignored in SSM session mode (-ssm)." ;;
    warnIf (anyEcsFlag fl)
      "Warning: --ecs-* flags are ignored in SSM session mode (-ssm). Used with -ecs." ;;
    errCtx ← HandleSSMSession h (main.instanceIDFlag fl) (main.selector fl)
               (main.roleCmd fl) (contextRegionFlag a);
    match errCtx with
    | Some err => eprintln ("SSM session failed: " +:+ err) ;; halt 1
    | None => halt 0
    end
  else if isECSMode then
    warnIf (negb (bool_decide (main.cmdRegionsStr fl = "")))
      "Warning: -regions flag ignored in ECS exec session mode (-ecs). Use -region for context." ;;
    warnIf (main.processAll fl)
      "Warning: -a flag ignored in ECS exec session mode (-ecs)." ;;
    warnIf (negb (bool_decide (main.command fl = "")))
      "Warning: -c (command execution mode command) flag ignored in ECS exec session mode (-ecs). Use --ecs-command for container command." ;;
    warnIf (negb (bool_decide (main.instanceIDFlag fl = "")))
      "Warning: -i (instance-id) flag ignored in ECS exec session mode (-ecs)." ;;
    errCtx ← HandleEcsExecSession h appConfig (main.ecsClusterFlag fl)
               (main.ecsTaskFlag fl) (main.ecsContainerFlag fl) (main.ecsCommandFlag fl)
               (main.selector fl) (main.roleCmd fl) (contextRegionFlag a);
    match errCtx with
    | Some err => eprintln ("ECS exec session failed: " +:+ err) ;; halt 1
    | None => halt 0
    end
  else if isCommandMode then liftM (main.commandMode w fl appConfig)
  else mret tt.

(** [main], from the search of the configuration file on. *)
Definition main (w : World) (fs : Files) (term : Terminal) (h : Handlers) (a : Args)
    : J unit :=
  let VerboseMode := main.verbose (flags a) in
  r ← liftM (config.FindConfigPath fs VerboseMode (configFile a));
  sawsConfigPath ←
    match r with
    | inl err => eprintln ("SAWS Config Error: " +:+ err) ;; halt 1
    | inr path => mret path
    end;
  r ← liftM (config.LoadConfig fs VerboseMode sawsConfigPath);
  appConfig ←
    match r with
    | inl err => eprintln ("SAWS Config Error: " +:+ err) ;; halt 1
    | inr loaded => mret loaded
    end;
  dispatch w term h a appConfig.

End entry.

(** ** The tasks of an ECS cluster *)

Module ecs.

(** A task that [DescribeTasks] could not describe. *)
Record Failure := {
  Arn : option string;
  Reason : option string
}.

(** What [describeEcsTasks] reads of the SDK: the error, if any, of
    loading the configuration for the credentials and the region, and the
    answer of [DescribeTasks] to the call the loop makes at the index [i],
    for a cluster and a batch of tasks (an error, or the tasks described
    and the failures). Two calls for the same batch need not be answered
    alike. *)
Record Client (Task : Type) := {
  LoadSDKConfig : string * string * string → string → option string;
  DescribeTasks : nat → string → list string → string + (list Task * list Failure)
}.
Arguments LoadSDKConfig {Task} _ _ _.
Arguments DescribeTasks {Task} _ _ _ _.

Definition batchSize : nat := 100.

(** The loop over the batches, from the index [i] on. It is entered at
    most once for each task and once more: [fuel] counts the entries that
    are left, and [None] says that none is. *)
Fixpoint describeBatches {Task} (c : Client Task) (VerboseMode : bool)
    (clusterArn : string) (taskArns : list string) (fuel i : nat)
    (describedTasks : list Task) : J (option (string + list Task)) :=
  match fuel with
  | O => mret None
  | S fuel' =>
      if decide (i < length taskArns)%nat then
        let end_ :=
          (if decide (length taskArns < i + batchSize)%nat then length taskArns
           else i + batchSize)%nat in
        let batch := take (end_ - i) (drop i taskArns) in
        logv VerboseMode
          ("Describing batch of " +:+ fmtInt (Z.of_nat (length batch))
           +:+ " tasks (starting index " +:+ fmtInt (Z.of_nat i) +:+ ")...") ;;
        (([DescribeTasksCall clusterArn batch], Ret tt) : J unit) ;;
        match DescribeTasks c i clusterArn batch with
        | inl err =>
            mret (Some (inl ("failed to describe ECS tasks batch (starting index "
                             +:+ fmtInt (Z.of_nat i) +:+ "): " +:+ err)))
        | inr (tasks, failures) =>
            forJ failures (λ failure,
              logv VerboseMode
                ("Warning: Failed to describe task " +:+ default "N/A" (Arn failure)
                 +:+ ": " +:+ default "N/A" (Reason failure))) ;;
            describeBatches c VerboseMode clusterArn taskArns fuel' (i + batchSize)
              (describedTasks ++ tasks)
        end
      else mret (Some (inr describedTasks))
  end.

(** [describeEcsTasks]: the error text, or the tasks described. *)
Definition describeEcsTasks {Task} (c : Client Task) (VerboseMode : bool)
    (credsaws : string * string * string) (region clusterArn : string)
    (taskArns : list string) : J (option (string + list Task)) :=
  if decide (length taskArns = 0%nat) then mret (Some (inr []))
  else
    match LoadSDKConfig c credsaws region with
    | Some err =>
        mret (Some (inl ("failed to load SDK config for ECS describe tasks: " +:+ err)))
    | None =>
        r ← describeBatches c VerboseMode clusterArn taskArns (S (length taskArns)) 0 [];
        match r with
        | Some (inr describedTasks) =>
            logv VerboseMode
              ("Finished describing tasks. Total described: "
               +:+ fmtInt (Z.of_nat (length describedTasks))) ;;
            mret (Some (inr describedTasks))
        | _ => mret r
        end
    end.

End ecs.

(** ** Reading an interactive run *)

(** [r] after the events [t]. *)
Definition jprepend {A} (t : list ievent) (r : J A) : J A := (t ++ r.1, r.2).

(** A trace made of lines for the logger only. *)
Definition onlyLogsJ (t : list ievent) : Prop :=
  Forall (λ e, ∃ line, e = Core (LogLine line)) t.

(** What the search and the load of the configuration file give [main]:
    the error text, or the configuration. *)
Definition startup (fs : Files) (VerboseMode : bool) (configFileOverride : string)
    : string + AppConfig :=
  match result (config.FindConfigPath fs VerboseMode configFileOverride 0) with
  | Next (inr path) _ =>
      match result (config.LoadConfig fs VerboseMode path 0) with
      | Next r _ => r
      | Exit _ => inl ""
      end
  | Next (inl err) _ => inl err
  | Exit _ => inl ""
  end.

(** The path [FindConfigPath] tests for a [-config] value. *)
Definition expandedPath (fs : Files) (configFileOverride : string) : string :=
  if strings.HasPrefix configFileOverride "~" then
    match UserHomeDir fs with
    | inr homeDir => Join fs [homeDir; sliceFrom 1 configFileOverride]
    | inl _ => configFileOverride
    end
  else configFileOverride.

(** The number of the modes the flags select. *)
Definition modeCount (a : entry.Args) : nat :=
  (if bool_decide (main.command (entry.flags a) = "") then 0 else 1)
  + (if entry.sessionModeFlag a then 1 else 0)
  + (if entry.ssmSessionFlag a then 1 else 0)
  + (if entry.ecsModeFlag a then 1 else 0).

(** ** A file system and a terminal for examples *)

(** A home directory with a configuration file that holds [demoConfig];
    no other file exists. *)
Definition demoFiles : Files :=
  {| UserHomeDir := inr "/home/op";
     Stat := λ path, String.eqb path "/home/op/.aws/saws-config.yaml";
     ReadFile := λ path,
       if String.eqb path "/home/op/.aws/saws-config.yaml" then inr "accounts: ..."
       else inl "no such file or directory";
     Unmarshal := λ data,
       if String.eqb data "accounts: ..." then inr demoConfig else inl "yaml: bad";
     Join := λ parts,
       match parts with
       | [] => ""
       | p :: rest => fold_left (λ acc q, acc +:+ "/" +:+ q) rest p
       end |}.

(** A terminal on which the first option of every list is chosen, nothing
    is typed, and the shell ends with status 3. *)
Definition demoTerminal : Terminal :=
  {| Getenv := λ name, if String.eqb name "SHELL" then "/bin/zsh" else "";
     AskSelect := λ p,
       match Options p with
       | first :: _ => inr first
       | [] => inl "interrupt"
       end;
     AskInput := λ _, inl "interrupt";
     RunAttached := λ _ _, Some (ExitError 3);
     Expiration := λ _, None |}.

Definition demoHandlers : entry.Handlers :=
  {| entry.HandleSSMSession := λ _ _ _ _, ([], Ret None);
     entry.HandleEcsExecSession := λ _ _ _ _ _ _ _ _, ([], Ret None) |}.

Definition argsFor (fl : main.Flags) (configFile : string) (help e : bool)
    : entry.Args :=
  {| entry.flags := fl;
     entry.configFile := configFile;
     entry.help := help;
     entry.contextRegionFlag := "";
     entry.sessionModeFlag := e;
     entry.ssmSessionFlag := false;
     entry.ecsModeFlag := false |}.

(** The value of a flag, or of the environment variable that stands for
    it when the flag is not given. *)
Definition flagOrEnv (term : Terminal) (flag var : string) : string :=
  if decide (flag = "") then Getenv term var else flag.

(** The account names a selector of a session mode stands for: the name
    equal to it, if there is one, or else the names it matches as a
    pattern, in ascending order. *)
Definition selectorMatches (w : World) (accounts : gmap string string) (sel : string)
    : list string :=
  if decide (is_Some (accounts !! sel)) then [sel]
  else List.filter (λ name, matches w name sel) (sortStrings (elements (dom accounts))).

(** What may happen while the context of a session is established, before
    STS is called: lines for the logger and for standard error, loads of
    the AWS configuration, and prompts; a list to choose from is not empty
    and holds the choice that is offered as the default, if one is. *)
Definition wellAsked (e : ievent) : Prop :=
  match e with
  | Core (LogLine _) | Core (Eprint _) | Core (LoadConfigCall _) => True
  | Ask p => Options p ≠ [] ∧ ∀ d, Default p = Some d → d ∈ Options p
  | AskLine _ => True
  | _ => False
  end.

(** The terminal answers a list prompt with one of its options. *)
Definition answersWithinOptions (term : Terminal) : Prop :=
  ∀ p answer, AskSelect term p = inr answer → answer ∈ Options p.

(** ** The goroutines of the fan-out *)

(** A worker shares two things with [main]: the success counter and the
    wait group. Its steps on them are [successCounter.Add(1)], taken when
    the exit code is 0, and the deferred [wg.Done()], its last step. *)
Inductive action := AddOne | DoneWg.


(** Where [main] stands between the two loops and the verdict: before
    [wg.Add(1)] for the next pair -- which is before [wg.Wait()] when no
    pair is left --, before the [go] statement of a pair, before
    [successfulExecutions.Load()], and with the count it has loaded. *)
Inductive mainPc :=
| AtAdd (pending : list Unit)
| AtGo (who : Unit) (pending : list Unit)
| AtLoad
| AtVerdict (finalSuccessCount : Z).

(** What [main] and the workers share: the place of [main], the workers
    started so far with the steps each has still to take, the count of the
    wait group and the success counter. *)
Record Shared := {
  place : mainPc;
  goroutines : list (Unit * list action);
  wgCount : Z;
  successfulExecutions : Z
}.

(** One step of [main] or of one of the workers. [wg.Wait()] returns only
    when the count of the wait group is zero. *)
Inductive step (steps : Unit → list action) : Shared → Shared → Prop :=
| step_add who pending gs n c :
    step steps
      {| place := AtAdd (who :: pending); goroutines := gs; wgCount := n;
         successfulExecutions := c |}
      {| place := AtGo who pending; goroutines := gs; wgCount := n + 1;
         successfulExecutions := c |}
| step_go who pending gs n c :
    step steps
      {| place := AtGo who pending; goroutines := gs; wgCount := n;
         successfulExecutions := c |}
      {| place := AtAdd pending; goroutines := gs ++ [(who, steps who)]; wgCount := n;
         successfulExecutions := c |}
| step_wait gs c :
    step steps
      {| place := AtAdd []; goroutines := gs; wgCount := 0; successfulExecutions := c |}
      {| place := AtLoad; goroutines := gs; wgCount := 0; successfulExecutions := c |}
| step_load gs n c :
    step steps
      {| place := AtLoad; goroutines := gs; wgCount := n; successfulExecutions := c |}
      {| place := AtVerdict c; goroutines := gs; wgCount := n;
         successfulExecutions := c |}
| step_counter pc l1 who rest l2 n c :
    step steps
      {| place := pc; goroutines := l1 ++ (who, AddOne :: rest) :: l2; wgCount := n;
         successfulExecutions := c |}
      {| place := pc; goroutines := l1 ++ (who, rest) :: l2; wgCount := n;
         successfulExecutions := wrap64 (c + 1) |}
| step_done pc l1 who rest l2 n c :
    step steps
      {| place := pc; goroutines := l1 ++ (who, DoneWg :: rest) :: l2; wgCount := n;
         successfulExecutions := c |}
      {| place := pc; goroutines := l1 ++ (who, rest) :: l2; wgCount := n - 1;
         successfulExecutions := c |}.









(** ** The batches of [describeEcsTasks] *)

(** The tasks [DescribeTasks] gives for the call made at the index
    [start], none when it fails. *)
Definition answered {Task} (c : ecs.Client Task) (start : nat)
    (call : string * list string) : list Task :=
  match ecs.DescribeTasks c start call.1 call.2 with
  | inr (tasks, _) => tasks
  | inl _ => []
  end.

(** [DescribeTasks] gives no error for the call made at the index [start]. *)
Definition answers {Task} (c : ecs.Client Task) (start : nat)
    (call : string * list string) : Prop :=
  ∃ a, ecs.DescribeTasks c start call.1 call.2 = inr a.

(** * Properties *)

Example TrimSpace_ex : strings.TrimSpace "  eu-west-1 " = "eu-west-1".
Proof. reflexivity. Qed.
Example Split_ex : strings.Split "a, b,,c" "," = ["a"; " b"; ""; "c"].
Proof. reflexivity. Qed.
Example Fields_ex : strings.Fields " a  b,c " = ["a"; "b,c"].
Proof. reflexivity. Qed.
Example sortStrings_ex : sortStrings ["b"; "a"; "ab"] = ["a"; "ab"; "b"].
Proof. vm_compute. reflexivity. Qed.
Example fmtInt_ex : fmtInt 64 = "64" /\ fmtInt (-1) = "-1".
Proof. vm_compute. split; reflexivity. Qed.

(** ** Strings *)

Lemma sliceTo_length (n : nat) (s : string) :
  String.length (sliceTo n s) = Nat.min n (String.length s).
Proof.
  unfold sliceTo. revert n.
  induction s as [|c s IH]; intros [|n]; simpl; auto.
Qed.

Lemma sliceTo_all (n : nat) (s : string) :
  (String.length s <= n)%nat → sliceTo n s = s.
Proof.
  unfold sliceTo. revert n.
  induction s as [|c s IH]; intros [|n] H; simpl in *; auto; try lia.
  f_equal. apply IH. lia.
Qed.

Lemma sliceTo_ContainsByte (n : nat) (s : string) (c : ascii) :
  strings.ContainsByte s c = false → strings.ContainsByte (sliceTo n s) c = false.
Proof.
  unfold sliceTo. revert n.
  induction s as [|d s IH]; intros [|n] H; simpl in *; auto.
  apply orb_false_iff in H as [-> H]. simpl. auto.
Qed.

Lemma ReplaceAll_removes (s : string) (old new : ascii) :
  old ≠ new → strings.ContainsByte (strings.ReplaceAll s old new) old = false.
Proof.
  intros Hne. induction s as [|c s IH]; simpl; auto.
  rewrite IH, orb_false_r.
  destruct (Ascii.eqb_spec c old) as [->|Hc].
  - apply Ascii.eqb_neq. congruence.
  - apply Ascii.eqb_neq. exact Hc.
Qed.

Lemma ReplaceAll_keeps_out (s : string) (old new c : ascii) :
  c ≠ new → strings.ContainsByte s c = false →
  strings.ContainsByte (strings.ReplaceAll s old new) c = false.
Proof.
  intros Hne. induction s as [|d s IH]; simpl; auto.
  intros H. apply orb_false_iff in H as [Hd H].
  rewrite (IH H), orb_false_r.
  destruct (Ascii.eqb d old); auto.
  apply Ascii.eqb_neq. congruence.
Qed.

(** ** The monad *)

Lemma bind_next {A B} (m : M A) (f : A → M B) (s s' : Z) (t : list event) (a : A) :
  m s = (t, Next a s') → (m ≫= f) s = prepend t (f a s').
Proof.
  intros H. unfold mbind, M_bind, prepend. rewrite H. by destruct (f a s').
Qed.

Lemma bind_exit {A B} (m : M A) (f : A → M B) (s : Z) (t : list event) (c : Z) :
  m s = (t, Exit c) → (m ≫= f) s = (t, Exit c).
Proof. intros H. unfold mbind, M_bind. by rewrite H. Qed.

Lemma prepend_prepend {A} (t u : list event) (r : list event * outcome A) :
  prepend t (prepend u r) = prepend (t ++ u) r.
Proof. unfold prepend. simpl. by rewrite app_assoc. Qed.

Lemma LogVerbosef_run (v : bool) (line : string) (s : Z) :
  pkg.LogVerbosef v line s = ((if v then [LogLine line] else []), Next tt s).
Proof. destruct v; reflexivity. Qed.

(** ** The role session name *)

Lemma safeRolePart_unfold (role : string) :
  pkg.safeRolePart role
  = sliceTo 30 (strings.ReplaceAll (strings.ReplaceAll role "/" "-") " " "_").
Proof.
  unfold pkg.safeRolePart.
  destruct (Nat.ltb_spec 30
    (String.length (strings.ReplaceAll (strings.ReplaceAll role "/" "-") " " "_")));
    [reflexivity | symmetry; apply sliceTo_all; lia].
Qed.

Lemma sessionName_unfold (tag role : string) (pid : Z) :
  pkg.sessionName tag role pid
  = sliceTo 64 (tag +:+ "-" +:+ pkg.safeRolePart role +:+ "-" +:+ fmtInt pid).
Proof.
  unfold pkg.sessionName.
  destruct (Nat.ltb_spec 64
    (String.length (tag +:+ "-" +:+ pkg.safeRolePart role +:+ "-" +:+ fmtInt pid)));
    [reflexivity | symmetry; apply sliceTo_all; lia].
Qed.

Lemma AssumeRole_calls (w : World) (v : bool) (who : Unit) (baseCfg : Config)
    (accountID role tag : string) (s : Z) :
  assumeCalls (trace (pkg.AssumeRole w v who baseCfg accountID role tag s))
  = [(who, {| RoleArn := pkg.roleArn accountID role;
              RoleSessionName := pkg.sessionName tag role (Getpid w);
              DurationSeconds := 3600 |})].
Proof.
  unfold pkg.AssumeRole.
  generalize (pkg.sessionName tag role (Getpid w)) as name.
  generalize (pkg.roleArn accountID role) as arn. intros arn name.
  unfold mbind, M_bind, mret, M_ret, emit, trace, pkg.SessionDurationSeconds.
  destruct (decide (Region baseCfg = "")); rewrite ?LogVerbosef_run; simpl;
    rewrite ?LogVerbosef_run; simpl;
    destruct (STSAssumeRole w who _) as [err|[[[k|] [sk|] [tk|]]|]]; simpl;
    rewrite ?LogVerbosef_run; simpl; destruct v; reflexivity.
Qed.

(** C9. The role session name that [AssumeRole] sends is the session tag, the
    role name with every "/" replaced by "-" and every space by "_" (cut to
    30 bytes), and the process id, joined by "-"; the whole is cut to its
    first 64 bytes, so it is never longer than 64. *)
Theorem sessionName_joined_and_bounded (w : World) (v : bool) (who : Unit)
    (baseCfg : Config) (accountID role tag : string) (s : Z) :
  let name := pkg.sessionName tag role (Getpid w) in
  let safe := pkg.safeRolePart role in
  map (λ c, RoleSessionName c.2)
      (assumeCalls (trace (pkg.AssumeRole w v who baseCfg accountID role tag s)))
    = [name]
  ∧ name = sliceTo 64 (tag +:+ "-" +:+ safe +:+ "-" +:+ fmtInt (Getpid w))
  ∧ (String.length name <= 64)%nat
  ∧ safe = sliceTo 30 (strings.ReplaceAll (strings.ReplaceAll role "/" "-") " " "_")
  ∧ strings.ContainsByte safe "/" = false
  ∧ strings.ContainsByte safe " " = false.
Proof.
  intros name safe. subst name safe.
  split; [by rewrite AssumeRole_calls|].
  split; [apply sessionName_unfold|].
  split; [rewrite sessionName_unfold, sliceTo_length; lia|].
  split; [apply safeRolePart_unfold|].
  rewrite safeRolePart_unfold.
  split; apply sliceTo_ContainsByte.
  - apply ReplaceAll_keeps_out; [discriminate|].
    apply ReplaceAll_removes. discriminate.
  - apply ReplaceAll_removes. discriminate.
Qed.

(** ** Traces *)

Ltac run_monad :=
  unfold mbind, M_bind, mret, M_ret, emit, exit, skip, usage, Println, Eprintln,
    log_Printf, counterAdd, counterLoad, deref in *.

Lemma stdoutOf_app (a b : list event) : stdoutOf (a ++ b) = stdoutOf a ++ stdoutOf b.
Proof. induction a as [|[] a IH]; simpl; auto. by rewrite IH. Qed.

Lemma stderrOf_app (v : bool) (a b : list event) :
  stderrOf v (a ++ b) = stderrOf v a ++ stderrOf v b.
Proof. induction a as [|[] a IH]; simpl; auto; try by rewrite IH. destruct v; auto. by rewrite IH. Qed.

Lemma execs_app (a b : list event) : execs (a ++ b) = execs a ++ execs b.
Proof. induction a as [|[] a IH]; simpl; auto. by rewrite IH. Qed.

Lemma spawned_app (a b : list event) : spawned (a ++ b) = spawned a ++ spawned b.
Proof. induction a as [|[] a IH]; simpl; auto. by rewrite IH. Qed.

Lemma finished_app (a b : list event) : finished (a ++ b) = finished a ++ finished b.
Proof. induction a as [|[] a IH]; simpl; auto. by rewrite IH. Qed.

Lemma assumeCalls_app (a b : list event) :
  assumeCalls (a ++ b) = assumeCalls a ++ assumeCalls b.
Proof. induction a as [|[] a IH]; simpl; auto. by rewrite IH. Qed.

Lemma probes_app (a b : list event) : probes (a ++ b) = probes a ++ probes b.
Proof. induction a as [|[] a IH]; simpl; auto. by rewrite IH. Qed.

Lemma silent_app (a b : list event) : silent a → silent b → silent (a ++ b).
Proof.
  unfold silent. intros (?&?&?&?&?) (?&?&?&?&?).
  rewrite stdoutOf_app, stderrOf_app, execs_app, spawned_app, finished_app.
  repeat split; by apply app_nil.
Qed.

(** The outcome of [AssumeRole]. *)
Lemma AssumeRole_run (w : World) (v : bool) (who : Unit) (baseCfg : Config)
    (accountID role tag : string) (s : Z) :
  ∃ t r,
    pkg.AssumeRole w v who baseCfg accountID role tag s = (t, Next r s)
    ∧ silent t
    ∧ match grantedTo w who accountID role tag with
      | Some (k, sk, tk) =>
          r = inr {| AccessKeyId := Some k; SecretAccessKey := Some sk;
                     SessionToken := Some tk |}
      | None => ∃ err, r = inl err
      end.
Proof.
  unfold pkg.AssumeRole, grantedTo, stsInput.
  generalize (pkg.sessionName tag role (Getpid w)) as name.
  generalize (pkg.roleArn accountID role) as arn. intros arn name.
  run_monad.
  destruct (decide (Region baseCfg = "")); rewrite ?LogVerbosef_run; simpl;
    rewrite ?LogVerbosef_run; simpl;
    destruct (STSAssumeRole w who _) as [err|[[[k|] [sk|] [tk|]]|]]; simpl;
    rewrite ?LogVerbosef_run; simpl;
    eexists _, _; (split; [reflexivity|]); (split; [destruct v; repeat split|]);
    eauto.
Qed.

(** ** The worker *)

Lemma captured_separate (args env : list string) (cs : list (Stream * string)) :
  let cmd := {| Args := args; Env := env; Stdout := outb; Stderr := errb |} in
  saws.captured cmd outb cs = written StdoutStream cs
  ∧ saws.captured cmd errb cs = written StderrStream cs.
Proof.
  simpl. induction cs as [|[[] data] cs [IH1 IH2]]; simpl; auto;
    rewrite IH1, IH2; auto.
Qed.

(** A unit whose account is unknown, or whose role cannot be assumed, ends
    with one line for the logger and nothing else. *)
Lemma worker_dropped (w : World) (v : bool) (baseCfg : Config) (appCfg : AppConfig)
    (acc role command region : string) (s : Z) :
  match Accounts appCfg !! acc with
  | None => True
  | Some accountID => grantedTo w (acc, region) accountID role "CmdExecSess" = None
  end →
  ∃ t line,
    saws.ProcessAccountRegion w v baseCfg appCfg acc role command region s
    = (t ++ [LogLine line; Done (acc, region)], Next tt s)
    ∧ silent t.
Proof.
  unfold saws.ProcessAccountRegion. intros H.
  destruct (Accounts appCfg !! acc) as [accountID|].
  - destruct (AssumeRole_run w v (acc, region) baseCfg accountID role "CmdExecSess" s)
      as (t & r & Hrun & Hsil & Hr).
    rewrite H in Hr. destruct Hr as [err ->].
    rewrite (bind_next _ _ _ _ _ _ Hrun).
    eexists t, _. split; [reflexivity | exact Hsil].
  - eexists [], _. split; [reflexivity | repeat split].
Qed.

Ltac step := erewrite bind_next; [| reflexivity].

(** A unit whose role is assumed runs its command once and prints one
    result block. *)
Lemma worker_reached (w : World) (v : bool) (baseCfg : Config) (appCfg : AppConfig)
    (acc role command region accountID k sk tk : string) (s : Z) :
  Accounts appCfg !! acc = Some accountID →
  grantedTo w (acc, region) accountID role "CmdExecSess" = Some (k, sk, tk) →
  let cmd := unitCmd w command region k sk tk in
  let ran := Run w (acc, region) (Args cmd) (Env cmd) in
  ∃ pre mid,
    saws.ProcessAccountRegion w v baseCfg appCfg acc role command region s
    = (pre ++ [Exec (acc, region) cmd] ++ mid
         ++ map Print (resultBlock acc region ran) ++ [Done (acc, region)],
       Next tt (if decide (exitCodeOf ran = 0) then wrap64 (s + 1) else s))
    ∧ silent pre ∧ silent mid.
Proof.
  intros Hacc Hgr cmd ran.
  unfold saws.ProcessAccountRegion. rewrite Hacc.
  destruct (AssumeRole_run w v (acc, region) baseCfg accountID role "CmdExecSess" s)
    as (t & r & Hrun & Hsil & Hr).
  rewrite Hgr in Hr. subst r.
  rewrite (bind_next _ _ _ _ _ _ Hrun).
  cbn [AccessKeyId SecretAccessKey SessionToken deref].
  do 4 step.
  fold (unitCmd w command region k sk tk). fold cmd. fold ran.
  destruct (captured_separate (Args cmd) (Env cmd) (chunks ran)) as [Ho He].
  change {| Args := Args cmd; Env := Env cmd; Stdout := outb; Stderr := errb |}
    with cmd in Ho, He.
  rewrite Ho, He. clear Ho He.
  unfold resultBlock, exitCodeOf, statusOf.
  destruct (runErr ran) as [[code|msg]|]; repeat step; cbn beta iota;
    repeat case_decide; try lia; try congruence; repeat step;
    rewrite ?prepend_prepend; unfold prepend; cbn [fst snd];
    first [ exists t, []; split;
            [cbn [app map]; rewrite <- ?app_assoc; reflexivity
            | split; [exact Hsil | repeat split] ]
          | eexists t, [LogLine _]; split;
            [cbn [app map]; rewrite <- ?app_assoc; reflexivity
            | split; [exact Hsil | repeat split] ] ].
Qed.

(** ** The environment of the subprocess *)

Lemma prefix_empty (k : string) : String.prefix "" k = true.
Proof. by destruct k. Qed.

Lemma entriesFor_app (name : string) (a b : list string) :
  entriesFor name (a ++ b) = entriesFor name a ++ entriesFor name b.
Proof. unfold entriesFor. induction a as [|e a IH]; simpl; auto. destruct (strings.HasPrefix _ _); simpl; by rewrite IH. Qed.

Lemma entriesFor_cleanEnv (name : string) (env : list string) :
  (∀ e, saws.keepVar e = true → strings.HasPrefix e (name +:+ "=") = false) →
  entriesFor name (saws.cleanEnv env) = [].
Proof.
  intros H. induction env as [|e env IH]; simpl; auto.
  destruct (saws.keepVar e) eqn:Hk; auto.
  unfold entriesFor in *. simpl. by rewrite (H e Hk).
Qed.

Ltac keepVar_excludes :=
  let e := fresh "e" in
  let H := fresh "H" in
  intros e H; unfold saws.keepVar in H;
  repeat (apply andb_true_iff in H as [H ?]);
  repeat match goal with
         | G : negb _ = true |- _ => apply negb_true_iff in G
         end;
  assumption.

Lemma subprocessEnv_entries (env : list string) (k sk tk region : string) :
  let e := saws.subprocessEnv env k sk tk region in
  entriesFor "AWS_ACCESS_KEY_ID" e = ["AWS_ACCESS_KEY_ID=" +:+ k]
  ∧ entriesFor "AWS_SECRET_ACCESS_KEY" e = ["AWS_SECRET_ACCESS_KEY=" +:+ sk]
  ∧ entriesFor "AWS_SESSION_TOKEN" e = ["AWS_SESSION_TOKEN=" +:+ tk]
  ∧ entriesFor "AWS_REGION" e = ["AWS_REGION=" +:+ region]
  ∧ entriesFor "AWS_DEFAULT_REGION" e = ["AWS_DEFAULT_REGION=" +:+ region]
  ∧ entriesFor "AWS_SECURITY_TOKEN" e = []
  ∧ entriesFor "AWS_PROFILE" e = []
  ∧ entriesFor "AWS_CONFIG_FILE" e = []
  ∧ entriesFor "AWS_SHARED_CREDENTIALS_FILE" e = [].
Proof.
  unfold saws.subprocessEnv.
  repeat split; rewrite entriesFor_app;
    (rewrite entriesFor_cleanEnv; [| keepVar_excludes]);
    unfold entriesFor, strings.HasPrefix; simpl; rewrite ?prefix_empty; reflexivity.
Qed.

(** C3. Whatever the parent environment holds, the environment of a unit's
    subprocess has exactly one entry for each of AWS_ACCESS_KEY_ID,
    AWS_SECRET_ACCESS_KEY, AWS_SESSION_TOKEN, AWS_REGION and
    AWS_DEFAULT_REGION: the credentials STS granted to this unit and the
    unit's region. It has no entry for AWS_SECURITY_TOKEN, AWS_PROFILE,
    AWS_CONFIG_FILE or AWS_SHARED_CREDENTIALS_FILE. *)
Theorem subprocess_env_isolated (w : World) (v : bool) (baseCfg : Config)
    (appCfg : AppConfig) (acc role command region : string) (s : Z)
    (who : Unit) (cmd : Cmd) :
  (who, cmd) ∈ execs (trace (saws.ProcessAccountRegion w v baseCfg appCfg
                               acc role command region s)) →
  ∃ accountID k sk tk,
    who = (acc, region)
    ∧ Accounts appCfg !! acc = Some accountID
    ∧ grantedTo w who accountID role "CmdExecSess" = Some (k, sk, tk)
    ∧ entriesFor "AWS_ACCESS_KEY_ID" (Env cmd) = ["AWS_ACCESS_KEY_ID=" +:+ k]
    ∧ entriesFor "AWS_SECRET_ACCESS_KEY" (Env cmd) = ["AWS_SECRET_ACCESS_KEY=" +:+ sk]
    ∧ entriesFor "AWS_SESSION_TOKEN" (Env cmd) = ["AWS_SESSION_TOKEN=" +:+ tk]
    ∧ entriesFor "AWS_REGION" (Env cmd) = ["AWS_REGION=" +:+ region]
    ∧ entriesFor "AWS_DEFAULT_REGION" (Env cmd) = ["AWS_DEFAULT_REGION=" +:+ region]
    ∧ entriesFor "AWS_SECURITY_TOKEN" (Env cmd) = []
    ∧ entriesFor "AWS_PROFILE" (Env cmd) = []
    ∧ entriesFor "AWS_CONFIG_FILE" (Env cmd) = []
    ∧ entriesFor "AWS_SHARED_CREDENTIALS_FILE" (Env cmd) = [].
Proof.
  intros Hin.
  destruct (Accounts appCfg !! acc) as [accountID|] eqn:Hacc.
  - destruct (grantedTo w (acc, region) accountID role "CmdExecSess")
      as [[[k sk] tk]|] eqn:Hgr.
    + destruct (worker_reached w v baseCfg appCfg acc role command region
                  accountID k sk tk s Hacc Hgr) as (pre & mid & Hrun & Hpre & Hmid).
      rewrite Hrun in Hin. unfold trace in Hin. cbn [fst] in Hin.
      rewrite !execs_app in Hin.
      destruct Hpre as (_ & _ & Hpre & _), Hmid as (_ & _ & Hmid & _).
      rewrite Hpre, Hmid in Hin.
      assert (execs (map Print (resultBlock acc region
                (Run w (acc, region) (Args (unitCmd w command region k sk tk))
                   (Env (unitCmd w command region k sk tk))))) = []) as Hp.
      { generalize (resultBlock acc region
                (Run w (acc, region) (Args (unitCmd w command region k sk tk))
                   (Env (unitCmd w command region k sk tk)))).
        intros l. induction l; simpl; auto. }
      rewrite Hp in Hin. cbn in Hin.
      apply list_elem_of_singleton in Hin. injection Hin as -> ->.
      exists accountID, k, sk, tk.
      split; [reflexivity|]. split; [reflexivity|]. split; [exact Hgr|].
      apply subprocessEnv_entries.
    + destruct (worker_dropped w v baseCfg appCfg acc role command region s)
        as (t & line & Hrun & Hsil); [by rewrite Hacc|].
      rewrite Hrun in Hin. unfold trace in Hin. cbn [fst] in Hin.
      rewrite execs_app in Hin. destruct Hsil as (_ & _ & Hsil & _).
      rewrite Hsil in Hin. cbn in Hin. by apply elem_of_nil in Hin.
  - destruct (worker_dropped w v baseCfg appCfg acc role command region s)
      as (t & line & Hrun & Hsil); [by rewrite Hacc|].
    rewrite Hrun in Hin. unfold trace in Hin. cbn [fst] in Hin.
    rewrite execs_app in Hin. destruct Hsil as (_ & _ & Hsil & _).
    rewrite Hsil in Hin. cbn in Hin. by apply elem_of_nil in Hin.
Qed.

Lemma stdoutOf_prints (l : list string) : stdoutOf (map Print l) = l.
Proof. induction l; simpl; congruence. Qed.

Lemma execs_prints (l : list string) : execs (map Print l) = [].
Proof. induction l; simpl; congruence. Qed.

Lemma worker_sibling (w : World) (u : Unit) (v : bool) (baseCfg : Config)
    (appCfg : AppConfig) (acc role command region : string) (s : Z) :
  (acc, region) ≠ u →
  saws.ProcessAccountRegion (failAt u w) v baseCfg appCfg acc role command region s
  = saws.ProcessAccountRegion w v baseCfg appCfg acc role command region s.
Proof.
  intros Hne. unfold saws.ProcessAccountRegion, pkg.AssumeRole, failAt.
  cbn [Getpid Environ STSAssumeRole Run].
  destruct (Accounts appCfg !! acc); [|reflexivity].
  case_decide; case_decide; try contradiction; reflexivity.
Qed.

(** C8. The command of a unit is run as [bash -c command], with one buffer
    for its standard output and another for its standard error; nothing of
    the unit is printed before the subprocess has returned. The block then
    printed is the header with account, region, status, exit code and
    duration, the trimmed standard output under [STDOUT] unless it is empty,
    the trimmed standard error unless it is empty, under [STDERR (Exit Code
    0)] when the exit code is 0 and under [STDERR] otherwise, and the closing
    line. *)
Theorem unit_block_printed (w : World) (v : bool) (baseCfg : Config)
    (appCfg : AppConfig) (acc role command region accountID k sk tk : string) (s : Z) :
  Accounts appCfg !! acc = Some accountID →
  grantedTo w (acc, region) accountID role "CmdExecSess" = Some (k, sk, tk) →
  let run := saws.ProcessAccountRegion w v baseCfg appCfg acc role command region s in
  let cmd := unitCmd w command region k sk tk in
  ∃ pre post,
    trace run = pre ++ Exec (acc, region) cmd :: post
    ∧ stdoutOf pre = [] ∧ execs pre = [] ∧ execs post = []
    ∧ Args cmd = ["bash"; "-c"; command]
    ∧ Stdout cmd = outb ∧ Stderr cmd = errb
    ∧ (∀ cs, saws.captured cmd outb cs = written StdoutStream cs
             ∧ saws.captured cmd errb cs = written StderrStream cs)
    ∧ let ran := Run w (acc, region) (Args cmd) (Env cmd) in
      let out := strings.TrimSpace (written StdoutStream (chunks ran)) in
      let err := strings.TrimSpace (written StderrStream (chunks ran)) in
      stdoutOf (trace run)
      = ["--- Result (Account: " +:+ acc +:+ ", Region: " +:+ region
         +:+ ", Status: " +:+ (if runErr ran is None then "SUCCESS" else "FAILED")
         +:+ ", Exit Code: " +:+ fmtInt (exitCodeOf ran)
         +:+ ", Duration: " +:+ elapsed ran +:+ ") ---"]
        ++ (if decide (out = "") then [] else ["[STDOUT]"; out])
        ++ (if decide (err = "") then []
            else [if decide (exitCodeOf ran = 0)
                  then "[STDERR (Exit Code 0)]" else "[STDERR]"; err])
        ++ ["--- End Result ---"]
      ∧ (out ≠ "" → written StdoutStream (chunks ran) ≠ "")
      ∧ (err ≠ "" → written StderrStream (chunks ran) ≠ "").
Proof.
  intros Hacc Hgr run cmd.
  destruct (worker_reached w v baseCfg appCfg acc role command region
              accountID k sk tk s Hacc Hgr) as (pre & mid & Hrun & Hpre & Hmid).
  fold cmd in Hrun.
  set (ran := Run w (acc, region) (Args cmd) (Env cmd)) in *.
  exists pre, (mid ++ map Print (resultBlock acc region ran) ++ [Done (acc, region)]).
  subst run. rewrite Hrun. unfold trace. cbn [fst].
  destruct Hpre as (Hp1 & _ & Hp3 & _), Hmid as (Hm1 & _ & Hm3 & _).
  split; [reflexivity|]. split; [exact Hp1|]. split; [exact Hp3|].
  split; [by rewrite !execs_app, Hm3, execs_prints|].
  split; [reflexivity|]. split; [reflexivity|]. split; [reflexivity|].
  split; [intros cs; apply (captured_separate (Args cmd) (Env cmd) cs)|].
  split; [|split].
  - rewrite !stdoutOf_app, Hp1, Hm1, stdoutOf_prints. cbn [stdoutOf app].
    rewrite app_nil_r. reflexivity.
  - intros Hne Hw. apply Hne. by rewrite Hw.
  - intros Hne Hw. apply Hne. by rewrite Hw.
Qed.

Lemma finished_prints (l : list string) : finished (map Print l) = [].
Proof. induction l; simpl; congruence. Qed.

Lemma spawned_prints (l : list string) : spawned (map Print l) = [].
Proof. induction l; simpl; congruence. Qed.

(** Every worker reports that it is done, once, and starts no worker. *)
Lemma worker_finished (w : World) (v : bool) (baseCfg : Config) (appCfg : AppConfig)
    (acc role command region : string) (s : Z) :
  let run := saws.ProcessAccountRegion w v baseCfg appCfg acc role command region s in
  finished (trace run) = [(acc, region)] ∧ spawned (trace run) = []
  ∧ ∃ s', result run = Next tt s'.
Proof.
  intros run.
  destruct (Accounts appCfg !! acc) as [accountID|] eqn:Hacc;
    [destruct (grantedTo w (acc, region) accountID role "CmdExecSess")
       as [[[k sk] tk]|] eqn:Hgr|].
  - destruct (worker_reached w v baseCfg appCfg acc role command region
                accountID k sk tk s Hacc Hgr) as (pre & mid & Hrun & Hpre & Hmid).
    subst run. rewrite Hrun. unfold trace, result. cbn [fst snd].
    destruct Hpre as (_ & _ & _ & Hp4 & Hp5), Hmid as (_ & _ & _ & Hm4 & Hm5).
    rewrite !finished_app, !spawned_app, Hp4, Hp5, Hm4, Hm5,
      finished_prints, spawned_prints.
    cbn. eauto.
  - destruct (worker_dropped w v baseCfg appCfg acc role command region s)
      as (t & line & Hrun & Hsil); [by rewrite Hacc|].
    subst run. rewrite Hrun. unfold trace, result. cbn [fst snd].
    destruct Hsil as (_ & _ & _ & H4 & H5).
    rewrite finished_app, spawned_app, H4, H5. cbn. eauto.
  - destruct (worker_dropped w v baseCfg appCfg acc role command region s)
      as (t & line & Hrun & Hsil); [by rewrite Hacc|].
    subst run. rewrite Hrun. unfold trace, result. cbn [fst snd].
    destruct Hsil as (_ & _ & _ & H4 & H5).
    rewrite finished_app, spawned_app, H4, H5. cbn. eauto.
Qed.

(** ** The fan-out *)

Lemma worker_summary (w : World) (v : bool) (baseCfg : Config) (appCfg : AppConfig)
    (acc role command region : string) (s : Z) :
  ∃ t,
    saws.ProcessAccountRegion w v baseCfg appCfg acc role command region s
    = (t, Next tt (tally s [succeeds w appCfg role command (acc, region)]))
    ∧ spawned t = [] ∧ finished t = [(acc, region)]
    ∧ stdoutOf t = unitOutput w appCfg role command (acc, region).
Proof.
  pose proof (worker_finished w v baseCfg appCfg acc role command region s)
    as (Hf & Hs & _).
  cbv zeta in *. unfold succeeds, unitOutput, unitRan, tally. cbn [fst snd fold_left].
  destruct (Accounts appCfg !! acc) as [accountID|] eqn:Hacc;
    [destruct (grantedTo w (acc, region) accountID role "CmdExecSess")
       as [[[k sk] tk]|] eqn:Hgr|]; cbn [mbind option_bind].
  - destruct (worker_reached w v baseCfg appCfg acc role command region
                accountID k sk tk s Hacc Hgr) as (pre & mid & Hrun & Hpre & Hmid).
    rewrite Hrun in *. unfold trace in *. cbn [fst] in *.
    rewrite ?Hgr. cbn [mbind option_bind].
    eexists. split; [|split; [exact Hs|split; [exact Hf|]]].
    + f_equal. f_equal. case_bool_decide; case_decide; done.
    + destruct Hpre as (Hp1 & _), Hmid as (Hm1 & _).
      rewrite !stdoutOf_app, Hp1, Hm1, stdoutOf_prints. cbn. by rewrite app_nil_r.
  - destruct (worker_dropped w v baseCfg appCfg acc role command region s)
      as (t & line & Hrun & Hsil); [by rewrite Hacc|].
    rewrite Hrun in *. unfold trace in *. cbn [fst] in *.
    rewrite ?Hgr. cbn [mbind option_bind].
    eexists. split; [reflexivity|]. split; [exact Hs|]. split; [exact Hf|].
    destruct Hsil as (H1 & _). by rewrite stdoutOf_app, H1.
  - destruct (worker_dropped w v baseCfg appCfg acc role command region s)
      as (t & line & Hrun & Hsil); [by rewrite Hacc|].
    rewrite Hrun in *. unfold trace in *. cbn [fst] in *.
    eexists. split; [reflexivity|]. split; [exact Hs|]. split; [exact Hf|].
    destruct Hsil as (H1 & _). by rewrite stdoutOf_app, H1.
Qed.

Lemma tally_app (s : Z) (a b : list bool) : tally s (a ++ b) = tally (tally s a) b.
Proof. apply fold_left_app. Qed.

(** The workers of one account. *)
Lemma regions_loop (w : World) (fl : main.Flags) (baseCfg : Config) (appCfg : AppConfig)
    (a : string) (R : list string) (s : Z) :
  let units := map (pair a) R in
  ∃ t,
    forM_ R (λ region,
      emit (Go (a, region)) ;;
      saws.ProcessAccountRegion w (main.verbose fl) baseCfg appCfg
        a (main.roleCmd fl) (main.command fl) region) s
    = (t, Next tt (tally s (map (succeeds w appCfg (main.roleCmd fl) (main.command fl))
                              units)))
    ∧ spawned t = units ∧ finished t = units
    ∧ stdoutOf t
      = concat (map (unitOutput w appCfg (main.roleCmd fl) (main.command fl)) units).
Proof.
  revert s. induction R as [|r R IH]; intros s.
  - exists []. repeat split.
  - cbn [forM_].
    destruct (worker_summary w (main.verbose fl) baseCfg appCfg a (main.roleCmd fl)
                (main.command fl) r s) as (t1 & Hrun & Hs1 & Hf1 & Ho1).
    assert ((emit (Go (a, r)) ;;
             saws.ProcessAccountRegion w (main.verbose fl) baseCfg appCfg
               a (main.roleCmd fl) (main.command fl) r) s
            = (Go (a, r) :: t1,
               Next tt (tally s [succeeds w appCfg (main.roleCmd fl) (main.command fl)
                                   (a, r)]))) as Hbody.
    { erewrite bind_next; [|reflexivity]. by rewrite Hrun. }
    rewrite (bind_next _ _ _ _ _ _ Hbody).
    destruct (IH (tally s [succeeds w appCfg (main.roleCmd fl) (main.command fl) (a, r)]))
      as (t2 & Hrest & Hs2 & Hf2 & Ho2).
    rewrite Hrest. unfold prepend. cbn [fst snd].
    eexists. split; [reflexivity|].
    cbn [app spawned finished stdoutOf map concat].
    rewrite spawned_app, finished_app, stdoutOf_app, Hs1, Hf1, Ho1, Hs2, Hf2, Ho2.
    repeat split.
Qed.

(** The two nested loops start one worker per pair, account by account, and
    every worker has ended when they are left. *)
Lemma fanOut_run (w : World) (fl : main.Flags) (baseCfg : Config) (appCfg : AppConfig)
    (A R : list string) (s : Z) :
  let units := list_prod A R in
  ∃ t,
    main.fanOut w fl baseCfg appCfg A R s
    = (t, Next tt (tally s (map (succeeds w appCfg (main.roleCmd fl) (main.command fl))
                              units)))
    ∧ spawned t = units ∧ finished t = units
    ∧ stdoutOf t
      = concat (map (unitOutput w appCfg (main.roleCmd fl) (main.command fl)) units).
Proof.
  unfold main.fanOut. revert s. induction A as [|a A IH]; intros s.
  - exists []. repeat split.
  - cbn [forM_ list_prod].
    destruct (regions_loop w fl baseCfg appCfg a R s) as (t1 & Hrun & Hs1 & Hf1 & Ho1).
    rewrite (bind_next _ _ _ _ _ _ Hrun).
    destruct (IH (tally s (map (succeeds w appCfg (main.roleCmd fl) (main.command fl))
                             (map (pair a) R))))
      as (t2 & Hrest & Hs2 & Hf2 & Ho2).
    rewrite Hrest. unfold prepend. cbn [fst snd].
    eexists. split; [by rewrite map_app, tally_app|].
    rewrite spawned_app, finished_app, stdoutOf_app, Hs1, Hf1, Ho1, Hs2, Hf2, Ho2.
    by rewrite map_app, concat_app.
Qed.

(** ** The cross product *)



Lemma list_prod_elem_of {A B} (l : list A) (k : list B) (a : A) (b : B) :
  (a, b) ∈ list_prod l k ↔ a ∈ l ∧ b ∈ k.
Proof. rewrite !list_elem_of_In. apply in_prod_iff. Qed.


(** ** The verdict *)

Lemma finalVerdict_run (v : bool) (total count s : Z) :
  main.finalVerdict v total count s
  = if decide (count = total)
    then ((if v then [LogLine ("Cmd Mode: All " +:+ fmtInt count
                               +:+ " executions completed successfully.")]
           else []), Exit 0)
    else ([Eprint ("Cmd Mode: " +:+ fmtInt count +:+ " out of " +:+ fmtInt total
                   +:+ " targeted executions completed successfully. "
                   +:+ fmtInt (wrap64 (total - count)) +:+ " failed.")], Exit 1).
Proof.
  unfold main.finalVerdict. case_decide.
  - erewrite bind_next; [|apply LogVerbosef_run]. unfold prepend. cbn.
    by rewrite app_nil_r.
  - reflexivity.
Qed.

(** From the plan to the exit. *)
Lemma execute_run (w : World) (fl : main.Flags) (baseCfg : Config) (appCfg : AppConfig)
    (A R : list string) (s : Z) :
  let units := list_prod A R in
  let total := wrap64 (Z.of_nat (length A) * Z.of_nat (length R)) in
  let count := tally s (map (succeeds w appCfg (main.roleCmd fl) (main.command fl)) units) in
  ∃ plan workers after,
    main.execute w fl baseCfg appCfg A R s
    = prepend (plan ++ workers ++ Wait :: after) (main.finalVerdict (main.verbose fl) total count count)
    ∧ silent plan ∧ silent after
    ∧ spawned workers = units ∧ finished workers = units
    ∧ stdoutOf workers
      = concat (map (unitOutput w appCfg (main.roleCmd fl) (main.command fl)) units).
Proof.
  intros units total count. unfold main.execute.
  destruct (fanOut_run w fl baseCfg appCfg A R s) as (t & Hrun & Hs & Hf & Ho).
  fold units in Hrun, Hs, Hf, Ho. fold count in Hrun. fold total.
  erewrite bind_next; [|apply LogVerbosef_run].
  rewrite (bind_next _ _ _ _ _ _ Hrun).
  do 2 step.
  erewrite bind_next; [|apply LogVerbosef_run].
  rewrite !prepend_prepend, <- !app_assoc. cbn [app].
  eexists _, t, _. split; [reflexivity|].
  split; [destruct (main.verbose fl); repeat split|].
  split; [destruct (main.verbose fl); repeat split|]. auto.
Qed.

Lemma finalVerdict_quiet (v : bool) (total count s : Z) :
  let t := trace (main.finalVerdict v total count s) in
  stdoutOf t = [] ∧ execs t = [] ∧ spawned t = [] ∧ finished t = []
  ∧ assumeCalls t = [].
Proof.
  rewrite finalVerdict_run. case_decide; [destruct v|]; repeat split.
Qed.

(** The order in which the workers reach the counter does not change what
    it holds in the end. *)
Lemma tally_Permutation (s : Z) (a b : list bool) : a ≡ₚ b → tally s a = tally s b.
Proof.
  intros H. revert s. induction H as [|x a b _ IH|x y a|a b c _ IH1 _ IH2]; intros s.
  - reflexivity.
  - apply IH.
  - unfold tally. cbn [fold_left]. by destruct x, y.
  - by rewrite IH1.
Qed.

(** C4, as the code has it. The run ends with status 0 exactly when the
    success counter equals the planned total. The line that says that all
    executions succeeded goes to the verbose logger, so it is written only
    with [-v]. In every other case the run ends with status 1 and one line on
    standard error that names the tally; for 4 successes out of 6 it reads
    "4 out of 6". *)
Theorem verdict_from_counter (v : bool) (total count s : Z) :
  let run := main.finalVerdict v total count s in
  (result run = Exit 0 ↔ count = total)
  ∧ (result run = Exit 0 ∨ result run = Exit 1)
  ∧ stdoutOf (trace run) = []
  ∧ (count = total →
       stderrOf v (trace run)
       = if v then ["Cmd Mode: All " +:+ fmtInt count
                    +:+ " executions completed successfully."]
         else [])
  ∧ (count ≠ total →
       result run = Exit 1
       ∧ stderrOf v (trace run)
         = ["Cmd Mode: " +:+ fmtInt count +:+ " out of " +:+ fmtInt total
            +:+ " targeted executions completed successfully. "
            +:+ fmtInt (wrap64 (total - count)) +:+ " failed."])
  ∧ main.finalVerdict v 6 6 s
    = ((if v then [LogLine "Cmd Mode: All 6 executions completed successfully."]
        else []), Exit 0)
  ∧ main.finalVerdict v 6 4 s
    = ([Eprint "Cmd Mode: 4 out of 6 targeted executions completed successfully. 2 failed."],
       Exit 1).
Proof.
  intros run. subst run. rewrite !finalVerdict_run.
  split; [|split; [|split; [|split; [|split; [|split]]]]].
  - case_decide; unfold result; cbn [snd]; split; intros; congruence.
  - case_decide; [left|right]; reflexivity.
  - case_decide; [destruct v|]; reflexivity.
  - intros ->. rewrite decide_True by done. by destruct v.
  - intros Hne. rewrite decide_False by done. split; reflexivity.
  - rewrite decide_True by done. by vm_compute.
  - rewrite decide_False by done. by vm_compute.
Qed.

(** C4 as the claim states it fails without [-v]: the run ends with status
    0 and nothing at all is written. *)
Lemma all_succeeded_says_nothing :
  main.finalVerdict false 6 6 6 = ([], Exit 0)
  ∧ stderrOf false (trace (main.finalVerdict false 6 6 6)) = []
  ∧ stdoutOf (trace (main.finalVerdict false 6 6 6)) = [].
Proof. by vm_compute. Qed.

(** C1 as the claim states it fails for a unit whose role cannot be
    assumed: STS refuses the role in the account of prod-a; the worker of
    (prod-a, eu-west-1) prints no result, writes nothing to standard error
    and ends. *)
Lemma refused_unit_leaves_no_result :
  let run := saws.ProcessAccountRegion demoWorld false {| Region := "eu-west-1" |}
               demoConfig "prod-a" "ReadOnly" "aws s3 ls" "eu-west-1" 0 in
  Accounts demoConfig !! "prod-a" = Some "333333333333"
  ∧ grantedTo demoWorld ("prod-a", "eu-west-1") "333333333333" "ReadOnly" "CmdExecSess"
    = None
  ∧ stdoutOf (trace run) = []
  ∧ stderrOf false (trace run) = []
  ∧ result run = Next tt 0.
Proof. by vm_compute. Qed.

(** ** Splitting and trimming *)

Lemma Split_no_sep (p : string) (sep : ascii) :
  strings.ContainsByte p sep = false → strings.Split p sep = [p].
Proof.
  induction p as [|c p IH]; simpl; [done|].
  intros H. apply orb_false_iff in H as [Hc Hp].
  rewrite Hc, (IH Hp). done.
Qed.

Lemma Split_app_sep (p rest : string) (sep : ascii) :
  strings.ContainsByte p sep = false →
  strings.Split (p +:+ String sep rest) sep = p :: strings.Split rest sep.
Proof.
  induction p as [|c p IH]; simpl.
  - intros _. by rewrite Ascii.eqb_refl.
  - intros H. apply orb_false_iff in H as [Hc Hp].
    rewrite Hc, (IH Hp). done.
Qed.

(** Splitting undoes joining, for pieces that hold no separator. *)
Lemma Split_concat (pieces : list string) (sep : ascii) :
  pieces ≠ [] →
  Forall (λ p, strings.ContainsByte p sep = false) pieces →
  strings.Split (String.concat (String sep EmptyString) pieces) sep = pieces.
Proof.
  intros Hne H. induction H as [|p pieces Hp H IH]; [done|].
  destruct pieces as [|q pieces].
  - simpl. by apply Split_no_sep.
  - change (String.concat (String sep "") (p :: q :: pieces))
      with (p +:+ String sep (String.concat (String sep "") (q :: pieces))).
    rewrite Split_app_sep by done. f_equal. by apply IH.
Qed.

Lemma trimmedNonEmpty_filter (raw : list string) :
  main.trimmedNonEmpty raw = filter (λ p, p ≠ "") (strings.TrimSpace <$> raw).
Proof.
  induction raw as [|p raw IH]; [done|].
  cbn [main.trimmedNonEmpty fmap list_fmap]. rewrite filter_cons.
  case_decide as H.
  - rewrite decide_False by (intros Hn; by apply Hn). exact IH.
  - rewrite decide_True by done. by rewrite IH.
Qed.

Lemma trimmedNonEmpty_nonempty (raw : list string) :
  Forall (λ p, p ≠ "") (main.trimmedNonEmpty raw).
Proof.
  induction raw as [|p raw IH]; simpl; [constructor|].
  case_decide; [done|]. by constructor.
Qed.

Lemma trimLeft_blank (s : string) : blank s = true → strings.trimLeft s = "".
Proof.
  induction s as [|c s IH]; [done|]. cbn [blank strings.trimLeft].
  intros H. apply andb_true_iff in H as [-> H]. by apply IH.
Qed.

Lemma TrimSpace_blank (s : string) : blank s = true → strings.TrimSpace s = "".
Proof. intros H. unfold strings.TrimSpace. by rewrite trimLeft_blank. Qed.

Lemma Split_commasAndBlanks (s : string) :
  commasAndBlanks s = true → Forall (λ p, blank p = true) (strings.Split s ",").
Proof.
  induction s as [|c s IH]; cbn [commasAndBlanks strings.Split].
  - intros _. by repeat constructor.
  - intros H. apply andb_true_iff in H as [Hc H]. specialize (IH H).
    destruct (Ascii.eqb c ",") eqn:Hcomma.
    + by constructor.
    + simpl in Hc. destruct (strings.Split s ",") as [|piece rest].
      * repeat constructor. simpl. by rewrite Hc.
      * inversion IH; subst. constructor; [|done]. simpl. by rewrite Hc.
Qed.

Lemma trimmedNonEmpty_blank (raw : list string) :
  Forall (λ p, blank p = true) raw → main.trimmedNonEmpty raw = [].
Proof.
  induction 1 as [|p raw Hp _ IH]; [done|].
  cbn [main.trimmedNonEmpty]. by rewrite (TrimSpace_blank p Hp), decide_True.
Qed.

(** A selector of commas and white space holds no pattern. *)
Lemma selectorPatterns_commasAndBlanks (selector : string) :
  commasAndBlanks selector = true → main.selectorPatterns selector = [].
Proof.
  intros H. unfold main.selectorPatterns.
  apply trimmedNonEmpty_blank. by apply Split_commasAndBlanks.
Qed.

(** C5, as the code has it. The selector is split on commas only: a
    selector made by joining comma-free pieces with commas yields these
    pieces, each trimmed of the white space around it, the empty ones
    dropped. White space inside a piece does not separate patterns. *)
Theorem selector_split_on_commas (pieces : list string) :
  pieces ≠ [] →
  Forall (λ p, strings.ContainsByte p "," = false) pieces →
  main.selectorPatterns (String.concat "," pieces)
  = filter (λ p, p ≠ "") (strings.TrimSpace <$> pieces).
Proof.
  intros Hne H. unfold main.selectorPatterns.
  rewrite (Split_concat pieces "," Hne H). apply trimmedNonEmpty_filter.
Qed.

Lemma selector_split_on_commas_witness :
  (["dev-*"; " prod a "; " "] : list string) ≠ []
  ∧ Forall (λ p, strings.ContainsByte p "," = false) ["dev-*"; " prod a "; " "]
  ∧ main.selectorPatterns "dev-*, prod a , " = ["dev-*"; "prod a"].
Proof.
  split; [done|]. split; [by repeat constructor|].
  apply (selector_split_on_commas ["dev-*"; " prod a "; " "]);
    [done | by repeat constructor].
Defined.

(** C5 as the claim states it fails on a selector with a space: "a b" is
    one pattern, not two, and against the accounts a and b it selects
    nothing. *)
Lemma space_does_not_split :
  main.selectorPatterns "a b" = ["a b"]
  ∧ main.selectorPatterns "a,b" = ["a"; "b"]
  ∧ matches demoWorld "a" "a b" = false
  ∧ matches demoWorld "b" "a b" = false.
Proof. by vm_compute. Qed.

(** ** Lines for the logger *)

Lemma onlyLogs_app (a b : list event) : onlyLogs a → onlyLogs b → onlyLogs (a ++ b).
Proof. apply Forall_app_2. Qed.

Lemma onlyLogs_if (v : bool) (line : string) :
  onlyLogs (if v then [LogLine line] else []).
Proof. destruct v; [|constructor]. repeat constructor. by eexists. Qed.

Lemma onlyLogs_idle (t : list event) :
  onlyLogs t →
  spawned t = [] ∧ finished t = [] ∧ assumeCalls t = [] ∧ execs t = []
  ∧ probes t = [] ∧ stdoutOf t = [] ∧ stderrOf false t = [].
Proof.
  induction 1 as [|e t [line ->] _ IH]; [done|]. exact IH.
Qed.

(** ** The target regions *)

(** The region when no list is given: the default region of the ambient
    configuration when it loads and names one, the fallback otherwise. *)
Lemma targetRegions_default (w : World) (fl : main.Flags) (s : Z) :
  strings.TrimSpace (main.cmdRegionsStr fl) = "" →
  ∃ before after,
    main.targetRegions w fl s
    = (before ++ LoadConfigCall None :: after,
       Next [match LoadDefaultConfig w None with
             | inl _ => pkg.FallbackRegion
             | inr tempCfg =>
                 if decide (Region tempCfg = "") then pkg.FallbackRegion
                 else Region tempCfg
             end] s)
    ∧ onlyLogs before ∧ onlyLogs after.
Proof.
  intros H. unfold main.targetRegions. rewrite H. rewrite decide_True by done.
  erewrite bind_next; [|apply LogVerbosef_run]. step.
  destruct (LoadDefaultConfig w None) as [err|tempCfg]; [|case_decide];
    (erewrite bind_next;
       [|erewrite bind_next; [|apply LogVerbosef_run]; reflexivity]);
    rewrite !prepend_prepend; unfold prepend; cbn [fst snd mret M_ret];
    rewrite <- !app_assoc, ?app_nil_r; cbn [app];
    eexists _, _; (split; [reflexivity|]); split; apply onlyLogs_if.
Qed.

(** The regions when a list is given. *)
Lemma targetRegions_explicit (w : World) (fl : main.Flags) (s : Z) :
  let regionsInput := strings.TrimSpace (main.cmdRegionsStr fl) in
  let explicit := main.trimmedNonEmpty (strings.Split regionsInput ",") in
  regionsInput ≠ "" →
  ∃ t,
    main.targetRegions w fl s
    = (t, if decide (explicit = []) then Exit 1 else Next explicit s)
    ∧ probes t = [] ∧ spawned t = [] ∧ assumeCalls t = [] ∧ execs t = []
    ∧ stdoutOf t = [].
Proof.
  intros regionsInput explicit H. unfold main.targetRegions.
  fold regionsInput. rewrite decide_False by done. fold explicit.
  destruct explicit as [|r rs].
  - rewrite decide_True by done. rewrite decide_True by done.
    eexists. split; [reflexivity|]. done.
  - rewrite decide_False by done. rewrite decide_False by done.
    erewrite bind_next; [|apply LogVerbosef_run].
    unfold prepend. cbn [fst snd mret M_ret]. rewrite app_nil_r.
    eexists. split; [reflexivity|].
    by destruct (onlyLogs_idle _ (onlyLogs_if (main.verbose fl)
      ("Cmd Mode: Using specified regions: " +:+ fmtStrings (r :: rs))))
      as (? & ? & ? & ? & ? & ? & ?).
Qed.

(** C7. One tier supplies the target regions. A [-regions] value that is
    not blank is split on commas, every piece is trimmed and the empty ones
    are dropped; what remains is the list of regions and the ambient
    configuration is not read; when nothing remains the run ends with status
    1. Without such a value the ambient configuration is read once: its
    default region, when it loads and names one, is the only target region;
    otherwise the only target region is eu-west-1. *)
Theorem region_tiers (w : World) (fl : main.Flags) (s : Z) :
  let regionsInput := strings.TrimSpace (main.cmdRegionsStr fl) in
  let explicit :=
    filter (λ r, r ≠ "") (strings.TrimSpace <$> strings.Split regionsInput ",") in
  let run := main.targetRegions w fl s in
  (regionsInput ≠ "" →
     probes (trace run) = []
     ∧ Forall (λ r, r ≠ "") explicit
     ∧ (explicit ≠ [] → result run = Next explicit s)
     ∧ (explicit = [] → result run = Exit 1))
  ∧ (regionsInput = "" →
     probes (trace run) = [None]
     ∧ (∀ tempCfg, LoadDefaultConfig w None = inr tempCfg → Region tempCfg ≠ "" →
          result run = Next [Region tempCfg] s)
     ∧ (∀ tempCfg, LoadDefaultConfig w None = inr tempCfg → Region tempCfg = "" →
          result run = Next ["eu-west-1"] s)
     ∧ (∀ err, LoadDefaultConfig w None = inl err →
          result run = Next ["eu-west-1"] s)).
Proof.
  intros regionsInput explicit run. split.
  - intros Hne.
    destruct (targetRegions_explicit w fl s Hne) as (t & Hrun & Hp & _).
    subst run explicit. rewrite <- trimmedNonEmpty_filter.
    fold regionsInput in Hrun. rewrite Hrun. unfold trace, result. cbn [fst snd].
    split; [exact Hp|]. split; [apply trimmedNonEmpty_nonempty|].
    split; intros H; [by rewrite decide_False | by rewrite decide_True].
  - intros Hempty.
    destruct (targetRegions_default w fl s Hempty)
      as (before & after & Hrun & Hb & Ha).
    subst run. rewrite Hrun. unfold trace, result. cbn [fst snd].
    apply onlyLogs_idle in Hb as (_ & _ & _ & _ & Hb & _).
    apply onlyLogs_idle in Ha as (_ & _ & _ & _ & Ha & _).
    split; [rewrite probes_app, Hb; cbn; by rewrite Ha|].
    split; [|split].
    + intros tempCfg -> Hr. by rewrite decide_False.
    + intros tempCfg -> Hr. by rewrite decide_True.
    + by intros err ->.
Qed.

(** The three tiers on the world of the examples, whose ambient
    configuration names us-east-1. *)
Example region_tiers_explicit :
  main.targetRegions demoWorld demoFlags 0 = ([], Next ["eu-west-1"; "us-east-1"] 0).
Proof. by vm_compute. Qed.

(** ** The selector that holds no pattern *)

Ltac exits := erewrite bind_exit; [| reflexivity].

Lemma targetAccounts_patternless (w : World) (fl : main.Flags) (appConfig : AppConfig)
    (s : Z) :
  main.processAll fl = false →
  main.selectorPatterns (main.selector fl) = [] →
  main.targetAccounts w fl appConfig s
  = ([Eprint ("Error: Selector flag '-s " +:+ dquote +:+ main.selector fl
              +:+ dquote +:+ "' provided no valid names/patterns.")],
     Exit 1).
Proof. intros Hall Hpat. unfold main.targetAccounts. by rewrite Hall, Hpat. Qed.

(** C10. A [-s] selector that is not empty and holds no pattern, as one
    made of commas and white space, ends the command mode with status 1
    before any worker is started: no role is assumed and no command is
    run. *)
Theorem patternless_selector_exits (w : World) (fl : main.Flags)
    (appConfig : AppConfig) (s : Z) :
  main.selector fl ≠ "" →
  main.selectorPatterns (main.selector fl) = [] →
  let run := main.commandMode w fl appConfig s in
  result run = Exit 1
  ∧ spawned (trace run) = []
  ∧ assumeCalls (trace run) = []
  ∧ execs (trace run) = [].
Proof.
  intros Hsel Hpat run. subst run. unfold main.commandMode.
  rewrite (bool_decide_eq_false_2 _ Hsel). cbn [negb andb].
  destruct (decide (main.roleCmd fl = "")); [exits; done | step].
  rewrite andb_true_r, andb_false_r.
  destruct (main.processAll fl) eqn:Hall; [exits; done | step]. step.
  destruct (LookPath w "aws"); [step | exits; done].
  destruct (negb (bool_decide (main.ecsClusterFlag fl = ""))
            || negb (bool_decide (main.ecsTaskFlag fl = ""))
            || negb (bool_decide (main.ecsContainerFlag fl = ""))
            || negb (bool_decide (main.ecsCommandFlag fl = ""))); step;
    destruct (decide (main.instanceIDFlag fl = "")); step; rewrite !prepend_prepend.
  all: destruct (decide (strings.TrimSpace (main.cmdRegionsStr fl) = "")) as [He|Hne];
    [ destruct (targetRegions_default w fl s He) as (b & a & Hr & Hb & Ha);
      apply onlyLogs_idle in Hb as (Hb1 & _ & Hb3 & Hb4 & _);
      apply onlyLogs_idle in Ha as (Ha1 & _ & Ha3 & Ha4 & _)
    | destruct (targetRegions_explicit w fl s Hne) as (t & Hr & _ & Ht1 & Ht3 & Ht4 & _) ].
  all: try (destruct (decide (main.trimmedNonEmpty
              (strings.Split (strings.TrimSpace (main.cmdRegionsStr fl)) ",") = []));
            [rewrite (bind_exit _ _ _ _ _ Hr); unfold prepend, trace, result;
             cbn [fst snd]; rewrite ?app_nil_r; cbn; by rewrite ?Ht1, ?Ht3, ?Ht4|]).
  all: rewrite (bind_next _ _ _ _ _ _ Hr);
    rewrite (bind_exit _ _ _ _ _ (targetAccounts_patternless w fl appConfig s Hall Hpat));
    unfold prepend, trace, result; cbn [fst snd];
    rewrite ?spawned_app, ?assumeCalls_app, ?execs_app; cbn;
    rewrite ?spawned_app, ?assumeCalls_app, ?execs_app,
      ?Hb1, ?Hb3, ?Hb4, ?Ha1, ?Ha3, ?Ha4, ?Ht1, ?Ht3, ?Ht4; done.
Qed.

(** ** Ranging over a map, and sorting *)

Lemma pick_Permutation {A} (i : nat) (l : list A) (x : A) (r : list A) :
  pick i l = Some (x, r) → l ≡ₚ x :: r.
Proof.
  revert i x r. induction l as [|y l IH]; intros i x r H; [by destruct i|].
  destruct i as [|i]; simpl in H.
  - by injection H as -> ->.
  - destruct (pick i l) as [[z r']|] eqn:Hp; [|done].
    injection H as -> <-. rewrite (IH _ _ _ Hp). apply Permutation_swap.
Qed.

Lemma shuffleGo_Permutation {A} (fuel : nat) (seed : list nat) (l : list A) :
  shuffleGo fuel seed l ≡ₚ l.
Proof.
  revert seed l. induction fuel as [|fuel IH]; intros seed l; [done|].
  cbn [shuffleGo].
  destruct (pick _ l) as [[x r]|] eqn:Hp; [|done].
  rewrite (pick_Permutation _ _ _ _ Hp). by rewrite IH.
Qed.

Lemma shuffle_Permutation {A} (seed : list nat) (l : list A) : shuffle seed l ≡ₚ l.
Proof. apply shuffleGo_Permutation. Qed.

Lemma sortStrings_Permutation (l : list string) : sortStrings l ≡ₚ l.
Proof. apply merge_sort_Permutation. Qed.

Lemma sortStrings_Sorted (l : list string) : Sorted String.le (sortStrings l).
Proof. apply (Sorted_merge_sort _). Qed.

(** The sorted list does not depend on the order of what is sorted. *)
Lemma sortStrings_order (l k : list string) : l ≡ₚ k → sortStrings l = sortStrings k.
Proof.
  intros H. apply (Sorted_unique String.le); try apply sortStrings_Sorted.
  by rewrite !sortStrings_Permutation.
Qed.

Lemma sortStrings_elem_of (a : string) (l : list string) : a ∈ sortStrings l ↔ a ∈ l.
Proof. by rewrite sortStrings_Permutation. Qed.

(** ** The target accounts *)

Lemma matchesAny_run (w : World) (v : bool) (patterns : list string) (accName : string)
    (s : Z) :
  ∃ t,
    main.matchesAny w v patterns accName s
    = (t, Next (existsb (matches w accName) patterns) s)
    ∧ onlyLogs t.
Proof.
  induction patterns as [|p ps (t & IH & Ht)].
  - exists []. split; [reflexivity | constructor].
  - cbn [main.matchesAny existsb]. unfold matches at 1.
    destruct (Match w p accName) as [[] [err|]]; cbn [orb].
    + erewrite bind_next; [|apply LogVerbosef_run]. rewrite IH.
      eexists. split; [reflexivity|]. apply onlyLogs_app; [apply onlyLogs_if | done].
    + exists []. split; [reflexivity | constructor].
    + erewrite bind_next; [|apply LogVerbosef_run]. rewrite IH.
      eexists. split; [reflexivity|]. apply onlyLogs_app; [apply onlyLogs_if | done].
    + by exists t.
Qed.

Lemma matchAccounts_run (w : World) (v : bool) (patterns names : list string)
    (X : gset string) (s : Z) :
  ∃ t X',
    main.matchAccounts w v patterns names X s = (t, Next X' s)
    ∧ onlyLogs t
    ∧ ∀ a, a ∈ X' ↔ a ∈ X ∨ (a ∈ names ∧ existsb (matches w a) patterns = true).
Proof.
  revert X. induction names as [|n names IH]; intros X.
  - exists [], X. split; [reflexivity|]. split; [constructor|].
    intros a. rewrite elem_of_nil. tauto.
  - cbn [main.matchAccounts].
    destruct (matchesAny_run w v patterns n s) as (t1 & Hrun & Ht1).
    rewrite (bind_next _ _ _ _ _ _ Hrun).
    destruct (IH (if existsb (matches w n) patterns then {[n]} ∪ X else X))
      as (t2 & X' & Hrest & Ht2 & HX').
    rewrite Hrest. exists (t1 ++ t2), X'.
    split; [reflexivity|]. split; [by apply onlyLogs_app|].
    intros a. rewrite HX', elem_of_cons.
    destruct (existsb (matches w n) patterns) eqn:Hn.
    + rewrite elem_of_union, elem_of_singleton. split.
      * intros [[->|?]|[? ?]]; auto.
      * intros [?|[[->|?] ?]]; auto.
    + split.
      * intros [?|[? ?]]; auto.
      * intros [?|[[->|?] ?]]; auto. congruence.
Qed.

Lemma existsb_matches (w : World) (a : string) (patterns : list string) :
  existsb (matches w a) patterns = true
  ↔ ∃ p, p ∈ patterns ∧ Match w p a = (true, None).
Proof.
  rewrite existsb_exists. split; intros (p & Hin & Hm); exists p;
    (split; [by apply list_elem_of_In|]); unfold matches in *.
  - by destruct (Match w p a) as [[] []].
  - by rewrite Hm.
Qed.

(** The names a selector with patterns selects, before they are tested for
    emptiness. *)
Lemma targetAccounts_selected (w : World) (fl : main.Flags) (appConfig : AppConfig)
    (s : Z) :
  main.processAll fl = false →
  main.selectorPatterns (main.selector fl) ≠ [] →
  ∃ t (X : gset string),
    let names := sortStrings (shuffle (rangeSeed w) (elements X)) in
    main.targetAccounts w fl appConfig s
    = (t, if decide (names = []) then Exit 1 else Next names s)
    ∧ spawned t = [] ∧ assumeCalls t = [] ∧ execs t = [] ∧ probes t = []
    ∧ stdoutOf t = []
    ∧ ∀ a, a ∈ X ↔ is_Some (Accounts appConfig !! a)
                   ∧ ∃ p, p ∈ main.selectorPatterns (main.selector fl)
                          ∧ Match w p a = (true, None).
Proof.
  intros Hall Hpat. unfold main.targetAccounts. rewrite Hall.
  destruct (main.selectorPatterns (main.selector fl)) as [|p ps] eqn:Hps; [done|].
  rewrite decide_False by done.
  erewrite bind_next; [|apply LogVerbosef_run].
  destruct (matchAccounts_run w (main.verbose fl) (p :: ps)
              (sortStrings (shuffle (rangeSeed w) (elements (dom (Accounts appConfig)))))
              ∅ s) as (t & X & Hrun & Ht & HX).
  rewrite (bind_next _ _ _ _ _ _ Hrun).
  erewrite bind_next; [|apply LogVerbosef_run].
  rewrite !prepend_prepend.
  assert (∀ a, a ∈ X ↔ is_Some (Accounts appConfig !! a)
                 ∧ ∃ q, q ∈ p :: ps ∧ Match w q a = (true, None)) as HX'.
  { intros a. rewrite HX, sortStrings_elem_of, shuffle_Permutation, elem_of_elements,
      elem_of_dom, existsb_matches, elem_of_empty. tauto. }
  set (names := sortStrings (shuffle (rangeSeed w) (elements X))).
  match goal with
  | |- context [prepend ?tr _] =>
      assert (onlyLogs tr) as Hlogs
        by (repeat apply onlyLogs_app; try apply onlyLogs_if; done)
  end.
  pose proof (onlyLogs_idle _ Hlogs) as (I1 & _ & I3 & I4 & I5 & I6 & _).
  exists
    (if decide (names = [])
     then ((if main.verbose fl
            then [LogLine ("Cmd Mode: Applying selector patterns: "
                           +:+ fmtStrings (p :: ps))]
            else []) ++ t
           ++ (if main.verbose fl
               then [LogLine ("Cmd Mode: Selected "
                              +:+ fmtInt (Z.of_nat (length names))
                              +:+ " account(s) using selector '" +:+ main.selector fl
                              +:+ "': " +:+ fmtStrings names)]
               else []))
          ++ [Eprint ("Error: No accounts found matching selector patterns: "
                      +:+ fmtStrings (p :: ps))]
     else (if main.verbose fl
           then [LogLine ("Cmd Mode: Applying selector patterns: "
                          +:+ fmtStrings (p :: ps))]
           else []) ++ t
          ++ (if main.verbose fl
              then [LogLine ("Cmd Mode: Selected "
                             +:+ fmtInt (Z.of_nat (length names))
                             +:+ " account(s) using selector '" +:+ main.selector fl
                             +:+ "': " +:+ fmtStrings names)]
              else [])), X.
  cbv zeta. fold names. rewrite <- !app_assoc in I1, I3, I4, I5, I6.
  clearbody names. destruct names as [|n ns].
  - rewrite !decide_True by done. unfold prepend. cbn [fst snd].
    split; [by rewrite <- !app_assoc|].
    rewrite spawned_app, assumeCalls_app, execs_app, probes_app, stdoutOf_app.
    rewrite I1, I3, I4, I5, I6. done.
  - rewrite !decide_False by done. unfold prepend. cbn [fst snd mret M_ret].
    rewrite app_nil_r. split; [by rewrite <- !app_assoc|]. done.
Qed.

(** C6. The names a selector resolves to are in ascending byte-wise order
    and without repetition; an account is among them exactly when it is in
    the registry and one of the patterns matches it. The result is the same
    for any selector that holds the same patterns in another order, and
    whatever the order in which the runtime ranges over the maps. *)
Theorem selector_resolution (w : World) (fl : main.Flags) (appConfig : AppConfig)
    (s s' : Z) (names : list string) :
  main.processAll fl = false →
  result (main.targetAccounts w fl appConfig s) = Next names s' →
  Sorted String.le names
  ∧ NoDup names
  ∧ (∀ a, a ∈ names ↔ is_Some (Accounts appConfig !! a)
                       ∧ ∃ p, p ∈ main.selectorPatterns (main.selector fl)
                              ∧ Match w p a = (true, None))
  ∧ (∀ fl' seed,
       main.processAll fl' = false →
       main.selectorPatterns (main.selector fl')
         ≡ₚ main.selectorPatterns (main.selector fl) →
       result (main.targetAccounts (withSeed seed w) fl' appConfig s) = Next names s').
Proof.
  intros Hall Hres.
  destruct (decide (main.selectorPatterns (main.selector fl) = [])) as [Hnil|Hpat].
  { rewrite (targetAccounts_patternless w fl appConfig s Hall Hnil) in Hres. done. }
  destruct (targetAccounts_selected w fl appConfig s Hall Hpat)
    as (t & X & Hrun & _ & _ & _ & _ & _ & HX).
  cbv zeta in Hrun. rewrite Hrun in Hres. unfold result in Hres. cbn [snd] in Hres.
  case_decide as Hne; [done|]. injection Hres as <- <-.
  split; [apply sortStrings_Sorted|].
  split; [rewrite sortStrings_Permutation, shuffle_Permutation; apply NoDup_elements|].
  split.
  { intros a. by rewrite sortStrings_elem_of, shuffle_Permutation, elem_of_elements. }
  intros fl' seed Hall' Hperm.
  assert (main.selectorPatterns (main.selector fl') ≠ []) as Hpat'.
  { intros Hnil. rewrite Hnil in Hperm. by apply Permutation_nil_l in Hperm. }
  destruct (targetAccounts_selected (withSeed seed w) fl' appConfig s Hall' Hpat')
    as (t' & X' & Hrun' & _ & _ & _ & _ & _ & HX').
  cbv zeta in Hrun'. rewrite Hrun'. unfold result. cbn [snd rangeSeed withSeed].
  assert (X' = X) as ->.
  { apply set_eq. intros a. rewrite HX, HX'. cbn [Match withSeed].
    split; intros [? (p & Hin & Hm)]; (split; [done|]); exists p; (split; [|done]).
    - by rewrite <- Hperm.
    - by rewrite Hperm. }
  rewrite (sortStrings_order (shuffle seed (elements X))
             (shuffle (rangeSeed w) (elements X)))
    by (by rewrite !shuffle_Permutation).
  by rewrite decide_False.
Qed.

Lemma selector_resolution_witness :
  main.processAll (flagsFor "prod-a , dev-*" "") = false
  ∧ result (main.targetAccounts demoWorld (flagsFor "prod-a , dev-*" "") demoConfig 0)
    = Next ["dev-a"; "dev-b"; "prod-a"] 0
  ∧ Sorted String.le ["dev-a"; "dev-b"; "prod-a"]
  ∧ NoDup (["dev-a"; "dev-b"; "prod-a"] : list string)
  ∧ result (main.targetAccounts (withSeed [5; 1]%nat demoWorld)
              (flagsFor "dev-*,prod-a" "") demoConfig 0)
    = Next ["dev-a"; "dev-b"; "prod-a"] 0.
Proof.
  assert (result (main.targetAccounts demoWorld (flagsFor "prod-a , dev-*" "")
                    demoConfig 0) = Next ["dev-a"; "dev-b"; "prod-a"] 0) as Hres
    by (by vm_compute).
  destruct (selector_resolution demoWorld (flagsFor "prod-a , dev-*" "") demoConfig
              0 0 ["dev-a"; "dev-b"; "prod-a"] eq_refl Hres) as (H1 & H2 & _ & H4).
  split; [reflexivity|]. split; [exact Hres|]. split; [exact H1|]. split; [exact H2|].
  apply (H4 (flagsFor "dev-*,prod-a" "") [5; 1]%nat eq_refl).
  vm_compute. apply Permutation_swap.
Defined.

Lemma patternless_selector_exits_witness :
  main.selector (flagsFor " , ," "eu-west-1") ≠ ""
  ∧ main.selectorPatterns (main.selector (flagsFor " , ," "eu-west-1")) = []
  ∧ result (main.commandMode demoWorld (flagsFor " , ," "eu-west-1") demoConfig 0)
    = Exit 1
  ∧ spawned (trace (main.commandMode demoWorld (flagsFor " , ," "eu-west-1")
                      demoConfig 0)) = [].
Proof.
  destruct (patternless_selector_exits demoWorld (flagsFor " , ," "eu-west-1")
              demoConfig 0) as (H1 & H2 & _); [done | by vm_compute |].
  split; [done|]. split; [by vm_compute|]. split; [exact H1 | exact H2].
Defined.

(** ** The claims on the world of the examples *)

Lemma subprocess_env_isolated_witness :
  let cmd := unitCmd demoWorld "aws s3 ls" "eu-west-1" "ASIA-dev-a-eu-west-1"
               "secret" "token" in
  (("dev-a", "eu-west-1"), cmd)
    ∈ execs (trace (saws.ProcessAccountRegion demoWorld false {| Region := "eu-west-1" |}
                      demoConfig "dev-a" "ReadOnly" "aws s3 ls" "eu-west-1" 0))
  ∧ (∃ k, entriesFor "AWS_ACCESS_KEY_ID" (Env cmd) = ["AWS_ACCESS_KEY_ID=" +:+ k])
  ∧ entriesFor "AWS_REGION" (Env cmd) = ["AWS_REGION=eu-west-1"]
  ∧ entriesFor "AWS_SECURITY_TOKEN" (Env cmd) = []
  ∧ entriesFor "AWS_PROFILE" (Env cmd) = [].
Proof.
  intros cmd.
  assert ((("dev-a", "eu-west-1"), cmd)
            ∈ execs (trace (saws.ProcessAccountRegion demoWorld false
                              {| Region := "eu-west-1" |} demoConfig "dev-a" "ReadOnly"
                              "aws s3 ls" "eu-west-1" 0))) as Hin
    by (vm_compute; apply list_elem_of_here).
  destruct (subprocess_env_isolated demoWorld false {| Region := "eu-west-1" |}
              demoConfig "dev-a" "ReadOnly" "aws s3 ls" "eu-west-1" 0
              ("dev-a", "eu-west-1") cmd Hin)
    as (accountID & k & sk & tk & _ & _ & _ & H1 & _ & _ & H4 & _ & H6 & H7 & _).
  split; [exact Hin|]. split; [by exists k|]. split; [exact H4|].
  split; [exact H6 | exact H7].
Defined.

Lemma unit_block_printed_witness :
  let run := saws.ProcessAccountRegion demoWorld false {| Region := "eu-west-1" |}
               demoConfig "dev-a" "ReadOnly" "aws s3 ls" "us-east-1" 0 in
  Accounts demoConfig !! "dev-a" = Some "111111111111"
  ∧ grantedTo demoWorld ("dev-a", "us-east-1") "111111111111" "ReadOnly" "CmdExecSess"
    = Some ("ASIA-dev-a-us-east-1", "secret", "token")
  ∧ stdoutOf (trace run)
    = ["--- Result (Account: dev-a, Region: us-east-1, Status: FAILED, Exit Code: 3, Duration: 40ms) ---";
       "[STDERR]"; "warning: slow"; "--- End Result ---"].
Proof.
  intros run.
  assert (Accounts demoConfig !! "dev-a" = Some "111111111111") as Hacc
    by (by vm_compute).
  assert (grantedTo demoWorld ("dev-a", "us-east-1") "111111111111" "ReadOnly"
            "CmdExecSess" = Some ("ASIA-dev-a-us-east-1", "secret", "token")) as Hgr
    by (by vm_compute).
  destruct (unit_block_printed demoWorld false {| Region := "eu-west-1" |} demoConfig
              "dev-a" "ReadOnly" "aws s3 ls" "us-east-1" "111111111111"
              "ASIA-dev-a-us-east-1" "secret" "token" 0 Hacc Hgr)
    as (pre & post & _ & _ & _ & _ & _ & _ & _ & _ & Hout & _).
  split; [exact Hacc|]. split; [exact Hgr|].
  subst run. rewrite Hout. by vm_compute.
Defined.

(** The run of the examples: six workers over three accounts and two
    regions, two of which succeed. *)
Example demo_run :
  let run := main.commandMode demoWorld demoFlags demoConfig 0 in
  spawned (trace run)
  = [("dev-a", "eu-west-1"); ("dev-a", "us-east-1"); ("dev-b", "eu-west-1");
     ("dev-b", "us-east-1"); ("prod-a", "eu-west-1"); ("prod-a", "us-east-1")]
  ∧ result run = Exit 1
  ∧ stderrOf false (trace run)
    = ["Cmd Mode: 2 out of 6 targeted executions completed successfully. 4 failed."].
Proof. by vm_compute. Qed.

Example sessionName_examples :
  pkg.sessionName "CmdExecSess" "path/My Role" 4242 = "CmdExecSess-path-My_Role-4242"
  ∧ pkg.sessionName "CmdExecSess"
      "a-role-name-that-is-much-longer-than-thirty-bytes/with spaces" 1234567
    = "CmdExecSess-a-role-name-that-is-much-longe-1234567"
  ∧ pkg.sessionName "InteractiveSubShellSessionWithAVeryLongSessionTag"
      "OrganizationAccountAccessRole" 4242
    = "InteractiveSubShellSessionWithAVeryLongSessionTag-OrganizationAc".
Proof. by vm_compute. Qed.

(** ** The earlier program, where it differs *)

Ltac legacy_keepVar_excludes :=
  let e := fresh "e" in
  let H := fresh "H" in
  intros e H; unfold legacy.keepVar in H;
  repeat (apply andb_true_iff in H as [H ?]);
  repeat match goal with
         | G : negb _ = true |- _ => apply negb_true_iff in G
         end;
  assumption.

Lemma entriesFor_legacy_cleanEnv (name : string) (env : list string) :
  (∀ e, legacy.keepVar e = true → strings.HasPrefix e (name +:+ "=") = false) →
  entriesFor name (legacy.cleanEnv env) = [].
Proof.
  intros H. induction env as [|e env IH]; simpl; auto.
  destruct (legacy.keepVar e) eqn:Hk; auto.
  unfold entriesFor in *. simpl. by rewrite (H e Hk).
Qed.

(** The environment [saws.go] builds has one entry for each of the five
    variables of the unit as well, but it passes the parent's
    AWS_SECURITY_TOKEN on. *)
Lemma legacy_env (env : list string) (k sk tk region : string) :
  let e := legacy.subprocessEnv env k sk tk region in
  entriesFor "AWS_ACCESS_KEY_ID" e = ["AWS_ACCESS_KEY_ID=" +:+ k]
  ∧ entriesFor "AWS_SECRET_ACCESS_KEY" e = ["AWS_SECRET_ACCESS_KEY=" +:+ sk]
  ∧ entriesFor "AWS_SESSION_TOKEN" e = ["AWS_SESSION_TOKEN=" +:+ tk]
  ∧ entriesFor "AWS_REGION" e = ["AWS_REGION=" +:+ region]
  ∧ entriesFor "AWS_DEFAULT_REGION" e = ["AWS_DEFAULT_REGION=" +:+ region]
  ∧ entriesFor "AWS_PROFILE" e = []
  ∧ entriesFor "AWS_CONFIG_FILE" e = []
  ∧ entriesFor "AWS_SHARED_CREDENTIALS_FILE" e = []
  ∧ entriesFor "AWS_SECURITY_TOKEN"
      (legacy.subprocessEnv ["AWS_SECURITY_TOKEN=old"] k sk tk region)
    = ["AWS_SECURITY_TOKEN=old"].
Proof.
  unfold legacy.subprocessEnv.
  repeat split; try by vm_compute.
  all: rewrite entriesFor_app;
    (rewrite entriesFor_legacy_cleanEnv; [| legacy_keepVar_excludes]);
    unfold entriesFor, strings.HasPrefix; simpl; rewrite ?prefix_empty; reflexivity.
Qed.

(** [saws.go] splits the selector on white space and not on commas, leaves
    the spaces of a role name in the session name, which is still cut to 64
    bytes, captures both streams in one buffer, and always logs the line of
    the verdict. *)
Lemma legacy_differences :
  legacy.selectorPatterns "a b" = ["a"; "b"]
  ∧ legacy.selectorPatterns "a,b" = ["a,b"]
  ∧ legacy.sessionName "CmdExecSession" "path/My Role" 4242
    = "CmdExecSession-path-My Role-4242"
  ∧ (∀ tag role pid, (String.length (legacy.sessionName tag role pid) <= 64)%nat)
  ∧ stdoutOf (trace (legacy.processAccountRegion demoWorld (Accounts demoConfig)
                       "dev-a" "ReadOnly" "aws s3 ls" "us-east-1" 0))
    = ["--- Command Output (Account: dev-a, Region: us-east-1, Exit Code: 3, Duration: 40ms) ---";
       "warning: slow"]
  ∧ stdoutOf (trace (legacy.processAccountRegion demoWorld (Accounts demoConfig)
                       "prod-a" "ReadOnly" "aws s3 ls" "us-east-1" 0))
    = []
  ∧ stderrOf true (trace (legacy.finalVerdict 6 6 6))
    = ["All 6 targeted executions (account/region pairs) processed successfully."]
  ∧ legacy.finalVerdict 6 4 4
    = ([LogLine "4 out of 6 targeted executions (account/region pairs) processed successfully. One or more failed. Please review logs above."],
       Exit 1).
Proof.
  repeat split; try by vm_compute.
  intros tag role pid. unfold legacy.sessionName.
  destruct (Nat.ltb_spec 64 (String.length
    (tag +:+ "-" +:+ strings.ReplaceAll role "/" "-" +:+ "-" +:+ fmtInt pid)));
    [rewrite sliceTo_length; lia | lia].
Qed.

(** ** The whole command mode *)

(** Resolving the targets prints nothing, starts nothing and runs
    nothing. *)
Lemma targetRegions_idle (w : World) (fl : main.Flags) (s : Z) :
  let t := trace (main.targetRegions w fl s) in
  stdoutOf t = [] ∧ spawned t = [] ∧ execs t = [] ∧ assumeCalls t = [].
Proof.
  cbv zeta.
  destruct (decide (strings.TrimSpace (main.cmdRegionsStr fl) = "")) as [He|Hne].
  - destruct (targetRegions_default w fl s He) as (b & a & -> & Hb & Ha).
    apply onlyLogs_idle in Hb as (Hb1 & _ & Hb3 & Hb4 & _ & Hb6 & _).
    apply onlyLogs_idle in Ha as (Ha1 & _ & Ha3 & Ha4 & _ & Ha6 & _).
    unfold trace. cbn [fst].
    rewrite stdoutOf_app, spawned_app, execs_app, assumeCalls_app. cbn.
    by rewrite Hb1, Hb3, Hb4, Hb6, Ha1, Ha3, Ha4, Ha6.
  - by destruct (targetRegions_explicit w fl s Hne) as (t & -> & _ & ? & ? & ? & ?).
Qed.

Lemma targetAccounts_idle (w : World) (fl : main.Flags) (appConfig : AppConfig) (s : Z) :
  let t := trace (main.targetAccounts w fl appConfig s) in
  stdoutOf t = [] ∧ spawned t = [] ∧ execs t = [] ∧ assumeCalls t = [].
Proof.
  cbv zeta. destruct (main.processAll fl) eqn:Hall.
  - unfold main.targetAccounts. rewrite Hall.
    erewrite bind_next; [|apply LogVerbosef_run].
    unfold prepend, trace. cbn. rewrite app_nil_r.
    by destruct (main.verbose fl).
  - destruct (decide (main.selectorPatterns (main.selector fl) = [])) as [Hnil|Hpat].
    + by rewrite (targetAccounts_patternless w fl appConfig s Hall Hnil).
    + by destruct (targetAccounts_selected w fl appConfig s Hall Hpat)
        as (t & X & -> & ? & ? & ? & _ & ? & _).
Qed.

(** When the flags pass the checks, the targets resolve and the base
    configuration loads, the command mode goes on to the fan-out over the
    resolved accounts and regions; nothing is started before. *)
Lemma commandMode_executes (w : World) (fl : main.Flags) (appConfig : AppConfig)
    (s : Z) (A R : list string) (baseCfgAWS : Config) :
  main.roleCmd fl ≠ "" →
  main.processAll fl = bool_decide (main.selector fl = "") →
  LookPath w "aws" = true →
  result (main.targetRegions w fl s) = Next R s →
  result (main.targetAccounts w fl appConfig s) = Next A s →
  LoadDefaultConfig w (Some pkg.FallbackRegion) = inr baseCfgAWS →
  ∃ pre,
    main.commandMode w fl appConfig s
    = prepend pre (main.execute w fl baseCfgAWS appConfig A R s)
    ∧ stdoutOf pre = [] ∧ spawned pre = [] ∧ execs pre = [] ∧ assumeCalls pre = []
    ∧ spawned (trace (main.commandMode w fl appConfig s)) = list_prod A R.
Proof.
  intros Hrole Hall Hlook HR HA Hbase.
  pose proof (targetRegions_idle w fl s) as (R1 & R2 & R3 & R4).
  pose proof (targetAccounts_idle w fl appConfig s) as (A1 & A2 & A3 & A4).
  destruct (main.targetRegions w fl s) as [tR oR] eqn:ER.
  destruct (main.targetAccounts w fl appConfig s) as [tA oA] eqn:EA.
  unfold result, trace in *. cbn [fst snd] in *. subst oR oA.
  assert (∃ pre,
    main.commandMode w fl appConfig s
    = prepend pre (main.execute w fl baseCfgAWS appConfig A R s)
    ∧ stdoutOf pre = [] ∧ spawned pre = [] ∧ execs pre = [] ∧ assumeCalls pre = [])
    as (pre & Hrun & P1 & P2 & P3 & P4).
  { unfold main.commandMode. rewrite Hall, Hlook, Hbase.
    destruct (decide (main.roleCmd fl = "")); [done|]. step.
    destruct (bool_decide (main.selector fl = "")); cbn [negb andb]; do 3 step.
    all: destruct (negb (bool_decide (main.ecsClusterFlag fl = ""))
              || negb (bool_decide (main.ecsTaskFlag fl = ""))
              || negb (bool_decide (main.ecsContainerFlag fl = ""))
              || negb (bool_decide (main.ecsCommandFlag fl = ""))); step;
      destruct (decide (main.instanceIDFlag fl = "")); step;
      rewrite (bind_next _ _ _ _ _ _ ER), (bind_next _ _ _ _ _ _ EA); do 2 step;
      rewrite !prepend_prepend; eexists; (split; [reflexivity|]);
      rewrite ?stdoutOf_app, ?spawned_app, ?execs_app, ?assumeCalls_app; cbn;
      rewrite ?stdoutOf_app, ?spawned_app, ?execs_app, ?assumeCalls_app,
        ?R1, ?R2, ?R3, ?R4, ?A1, ?A2, ?A3, ?A4; done. }
  exists pre. repeat (split; [done|]).
  rewrite Hrun.
  destruct (execute_run w fl baseCfgAWS appConfig A R s)
    as (plan & workers & after & -> & Hplan & Hafter & Hs & _).
  pose proof (finalVerdict_quiet (main.verbose fl)
    (wrap64 (Z.of_nat (length A) * Z.of_nat (length R)))
    (tally s (map (succeeds w appConfig (main.roleCmd fl) (main.command fl))
                (list_prod A R)))
    (tally s (map (succeeds w appConfig (main.roleCmd fl) (main.command fl))
                (list_prod A R)))) as (_ & _ & Hv & _).
  destruct Hplan as (_ & _ & _ & Hp & _), Hafter as (_ & _ & _ & Ha & _).
  unfold prepend, trace in *. cbn [fst] in *.
  rewrite !spawned_app. cbn. rewrite P2, Hp, Hs, Ha, Hv. cbn. by rewrite !app_nil_r.
Qed.

(** * Further properties of the command mode *)

(** ** Loops *)

Lemma forM__next {A} (l : list A) (body : A → M unit) :
  (∀ x s, ∃ s', result (body x s) = Next tt s') →
  ∀ s, ∃ s', result (forM_ l body s) = Next tt s'.
Proof.
  intros Hbody. induction l as [|x l IH]; intros s; [by exists s|].
  cbn [forM_]. destruct (Hbody x s) as [s1 H1].
  destruct (body x s) as [t r] eqn:Hrun. unfold result in H1. cbn in H1. subst r.
  rewrite (bind_next _ _ _ _ _ _ Hrun). destruct (IH s1) as [s2 H2].
  exists s2. unfold prepend, result in *. cbn in *. exact H2.
Qed.

(** What a loop leaves in the trace is what its rounds leave, in order. *)
Lemma forM__extract {A B} (f : list event → list B) (g : A → list B) (l : list A)
    (body : A → M unit) :
  f [] = [] →
  (∀ a b, f (a ++ b) = f a ++ f b) →
  (∀ x s, ∃ s', result (body x s) = Next tt s') →
  (∀ x s, f (trace (body x s)) = g x) →
  ∀ s, f (trace (forM_ l body s)) = concat (map g l).
Proof.
  intros Hnil Happ Hnext Hg. induction l as [|x l IH]; intros s; [exact Hnil|].
  cbn [forM_ map concat]. destruct (Hnext x s) as [s1 H1].
  specialize (Hg x s).
  destruct (body x s) as [t r] eqn:Hrun. unfold result, trace in H1, Hg.
  cbn in H1, Hg. subst r.
  rewrite (bind_next _ _ _ _ _ _ Hrun). unfold prepend, trace. cbn [fst].
  rewrite Happ, Hg. f_equal. apply IH.
Qed.

Lemma concat_list_prod {A B C} (h : A * B → list C) (l : list A) (k : list B) :
  concat (map (λ a, concat (map (λ b, h (a, b)) k)) l) = concat (map h (list_prod l k)).
Proof.
  induction l as [|a l IH]; [done|].
  cbn [map concat list_prod]. rewrite map_app, concat_app, IH. f_equal.
  by rewrite map_map.
Qed.

(** The rounds of the fan-out, seen through a reading of the trace that
    ignores the start of a worker. *)
Lemma fanOut_extract {B} (f : list event → list B) (h : Unit → list B) (w : World)
    (fl : main.Flags) (baseCfg : Config) (appCfg : AppConfig) (A R : list string) (s : Z) :
  f [] = [] →
  (∀ a b, f (a ++ b) = f a ++ f b) →
  (∀ u s,
     f (Go u :: trace (saws.ProcessAccountRegion w (main.verbose fl) baseCfg appCfg
                         u.1 (main.roleCmd fl) (main.command fl) u.2 s)) = h u) →
  f (trace (main.fanOut w fl baseCfg appCfg A R s)) = concat (map h (list_prod A R)).
Proof.
  intros Hnil Happ Hh. unfold main.fanOut.
  assert (∀ a r s, ∃ s',
    result ((emit (Go (a, r)) ;;
             saws.ProcessAccountRegion w (main.verbose fl) baseCfg appCfg a
               (main.roleCmd fl) (main.command fl) r) s) = Next tt s') as Hnext.
  { intros a r s0.
    destruct (worker_finished w (main.verbose fl) baseCfg appCfg a (main.roleCmd fl)
                (main.command fl) r s0) as (_ & _ & s' & Hs').
    exists s'. erewrite bind_next; [|reflexivity].
    unfold prepend, result in *. cbn in *. exact Hs'. }
  unfold Unit in *. rewrite <- (concat_list_prod h A R).
  apply forM__extract; [done | done | |].
  - intros a s0. apply forM__next. intros r s1. apply Hnext.
  - intros a s0. apply forM__extract; [done | done | |].
    + intros r s1. apply Hnext.
    + intros r s1. erewrite bind_next; [|reflexivity].
      unfold prepend, trace. cbn [fst app]. apply (Hh (a, r)).
Qed.

(** ** One call of STS for each unit *)

Lemma assumeCalls_prints (l : list string) : assumeCalls (map Print l) = [].
Proof. induction l; simpl; congruence. Qed.

Lemma worker_calls (w : World) (v : bool) (baseCfg : Config) (appCfg : AppConfig)
    (acc role command region : string) (s : Z) :
  assumeCalls (trace (saws.ProcessAccountRegion w v baseCfg appCfg acc role command
                        region s))
  = match Accounts appCfg !! acc with
    | Some accountID => [((acc, region), stsInput w accountID role "CmdExecSess")]
    | None => []
    end.
Proof.
  unfold saws.ProcessAccountRegion.
  destruct (Accounts appCfg !! acc) as [accountID|]; [|reflexivity].
  pose proof (AssumeRole_calls w v (acc, region) baseCfg accountID role "CmdExecSess" s)
    as Hcalls.
  destruct (AssumeRole_run w v (acc, region) baseCfg accountID role "CmdExecSess" s)
    as (t & r & Hrun & _ & Hr).
  rewrite Hrun in Hcalls. unfold trace in Hcalls. cbn [fst] in Hcalls.
  rewrite (bind_next _ _ _ _ _ _ Hrun).
  destruct (grantedTo w (acc, region) accountID role "CmdExecSess") as [[[k sk] tk]|].
  - subst r. cbn [AccessKeyId SecretAccessKey SessionToken deref]. do 4 step.
    destruct (runErr _) as [[code|msg]|]; repeat step; cbn beta iota;
      repeat case_decide; repeat step;
      rewrite ?prepend_prepend; unfold prepend, trace; cbn [fst snd];
      rewrite !assumeCalls_app, Hcalls; reflexivity.
  - destruct Hr as [err ->]. unfold prepend, trace. cbn [fst snd].
    by rewrite assumeCalls_app, Hcalls.
Qed.

Lemma execute_calls (w : World) (fl : main.Flags) (baseCfg : Config) (appCfg : AppConfig)
    (A R : list string) (s : Z) :
  assumeCalls (trace (main.execute w fl baseCfg appCfg A R s))
  = concat (map (λ u : Unit,
                   match Accounts appCfg !! u.1 with
                   | Some accountID =>
                       [(u, stsInput w accountID (main.roleCmd fl) "CmdExecSess")]
                   | None => []
                   end) (list_prod A R)).
Proof.
  unfold main.execute.
  erewrite bind_next; [|apply LogVerbosef_run].
  destruct (fanOut_run w fl baseCfg appCfg A R s) as (t & Hrun & _).
  pose proof (fanOut_extract assumeCalls
    (λ u : Unit,
       match Accounts appCfg !! u.1 with
       | Some accountID => [(u, stsInput w accountID (main.roleCmd fl) "CmdExecSess")]
       | None => []
       end) w fl baseCfg appCfg A R s eq_refl assumeCalls_app) as Hcalls.
  rewrite Hrun in Hcalls. unfold trace in Hcalls. cbn [fst] in Hcalls.
  rewrite (bind_next _ _ _ _ _ _ Hrun). do 2 step.
  erewrite bind_next; [|apply LogVerbosef_run].
  rewrite !prepend_prepend. unfold prepend, trace. cbn [fst].
  pose proof (finalVerdict_quiet (main.verbose fl)
    (wrap64 (Z.of_nat (length A) * Z.of_nat (length R)))
    (tally s (map (succeeds w appCfg (main.roleCmd fl) (main.command fl))
                (list_prod A R)))
    (tally s (map (succeeds w appCfg (main.roleCmd fl) (main.command fl))
                (list_prod A R)))) as (_ & _ & _ & _ & Hv).
  unfold trace in Hv. rewrite !assumeCalls_app, Hv, Hcalls.
  - destruct (main.verbose fl); cbn; by rewrite !app_nil_r.
  - intros [acc region] s0. cbn [assumeCalls fst snd]. apply worker_calls.
Qed.

(** ** How the command mode ends *)

Lemma targetRegions_result (w : World) (fl : main.Flags) (s : Z) :
  result (main.targetRegions w fl s) = Exit 1
  ∨ ∃ R, R ≠ [] ∧ Forall (λ r, r ≠ "") R
         ∧ result (main.targetRegions w fl s) = Next R s.
Proof.
  destruct (decide (strings.TrimSpace (main.cmdRegionsStr fl) = "")) as [He|Hne].
  - destruct (targetRegions_default w fl s He) as (b & a & -> & _).
    right. eexists. split; [|split; [|reflexivity]]; [done|].
    repeat constructor.
    destruct (LoadDefaultConfig w None) as [|cfg]; [done|]. by case_decide.
  - destruct (targetRegions_explicit w fl s Hne) as (t & -> & _).
    unfold result. cbn [snd]. case_decide as Hnil; [by left|].
    right. eexists. split; [exact Hnil|]. split; [|reflexivity].
    apply trimmedNonEmpty_nonempty.
Qed.

Lemma targetAccounts_all (w : World) (fl : main.Flags) (appConfig : AppConfig) (s : Z) :
  main.processAll fl = true →
  result (main.targetAccounts w fl appConfig s)
  = Next (sortStrings (shuffle (rangeSeed w) (elements (dom (Accounts appConfig))))) s.
Proof.
  intros Hall. unfold main.targetAccounts. rewrite Hall.
  erewrite bind_next; [|apply LogVerbosef_run]. reflexivity.
Qed.

Lemma targetAccounts_result (w : World) (fl : main.Flags) (appConfig : AppConfig) (s : Z) :
  result (main.targetAccounts w fl appConfig s) = Exit 1
  ∨ ∃ A, result (main.targetAccounts w fl appConfig s) = Next A s
         ∧ NoDup A
         ∧ (∀ a, a ∈ A → is_Some (Accounts appConfig !! a))
         ∧ (A = [] → Accounts appConfig = ∅).
Proof.
  destruct (main.processAll fl) eqn:Hall.
  - right. rewrite (targetAccounts_all w fl appConfig s Hall).
    eexists. split; [reflexivity|].
    split; [rewrite sortStrings_Permutation, shuffle_Permutation; apply NoDup_elements|].
    split.
    + intros a. rewrite sortStrings_elem_of, shuffle_Permutation, elem_of_elements.
      apply elem_of_dom.
    + intros Hnil.
      assert (elements (dom (Accounts appConfig)) = []) as He.
      { apply Permutation_nil_r. rewrite <- Hnil.
        by rewrite sortStrings_Permutation, shuffle_Permutation. }
      apply (dom_empty_inv_L (D := gset string)). apply leibniz_equiv.
      by apply elements_empty_inv.
  - destruct (decide (main.selectorPatterns (main.selector fl) = [])) as [Hnil|Hpat].
    + left. by rewrite (targetAccounts_patternless w fl appConfig s Hall Hnil).
    + destruct (targetAccounts_selected w fl appConfig s Hall Hpat)
        as (t & X & Hrun & _ & _ & _ & _ & _ & HX).
      cbv zeta in Hrun. rewrite Hrun. unfold result. cbn [snd].
      case_decide as Hn; [by left|]. right.
      eexists. split; [reflexivity|].
      split; [rewrite sortStrings_Permutation, shuffle_Permutation; apply NoDup_elements|].
      split; [|done].
      intros a. rewrite sortStrings_elem_of, shuffle_Permutation, elem_of_elements, HX.
      tauto.
Qed.

(** The command mode either ends with status 1 before anything is started,
    or goes on to the fan-out over resolved accounts of the registry and
    regions that are not empty. *)
Lemma commandMode_cases (w : World) (fl : main.Flags) (appConfig : AppConfig) (s : Z) :
  (∃ t, main.commandMode w fl appConfig s = (t, Exit 1)
        ∧ stdoutOf t = [] ∧ spawned t = [] ∧ execs t = [] ∧ assumeCalls t = [])
  ∨ (∃ pre A R baseCfgAWS,
       main.commandMode w fl appConfig s
       = prepend pre (main.execute w fl baseCfgAWS appConfig A R s)
       ∧ stdoutOf pre = [] ∧ spawned pre = [] ∧ execs pre = [] ∧ assumeCalls pre = []
       ∧ R ≠ []
       ∧ (∀ a, a ∈ A → is_Some (Accounts appConfig !! a))
       ∧ (A = [] → Accounts appConfig = ∅)).
Proof.
  pose proof (targetRegions_idle w fl s) as (R1 & R2 & R3 & R4).
  pose proof (targetAccounts_idle w fl appConfig s) as (A1 & A2 & A3 & A4).
  pose proof (targetRegions_result w fl s) as HR.
  pose proof (targetAccounts_result w fl appConfig s) as HA.
  destruct (main.targetRegions w fl s) as [tR oR] eqn:ER.
  destruct (main.targetAccounts w fl appConfig s) as [tA oA] eqn:EA.
  unfold result, trace in *. cbn [fst snd] in *.
  unfold main.commandMode.
  destruct (decide (main.roleCmd fl = "")); [left; exits; by eexists | step].
  destruct (main.processAll fl && negb (bool_decide (main.selector fl = "")));
    [left; exits; by eexists | step].
  destruct (negb (main.processAll fl) && bool_decide (main.selector fl = ""));
    [left; exits; by eexists | step].
  destruct (LookPath w "aws"); [step | left; exits; by eexists].
  destruct (negb (bool_decide (main.ecsClusterFlag fl = ""))
            || negb (bool_decide (main.ecsTaskFlag fl = ""))
            || negb (bool_decide (main.ecsContainerFlag fl = ""))
            || negb (bool_decide (main.ecsCommandFlag fl = ""))); step;
    destruct (decide (main.instanceIDFlag fl = "")); step; rewrite !prepend_prepend.
  all: destruct HR as [->|(R & HRne & _ & ->)];
    [left; rewrite (bind_exit _ _ _ _ _ ER); unfold prepend; cbn [fst snd];
     eexists; split; [reflexivity|];
     rewrite ?app_nil_r, ?stdoutOf_app, ?spawned_app, ?execs_app, ?assumeCalls_app;
     cbn; by rewrite ?R1, ?R2, ?R3, ?R4
    | rewrite (bind_next _ _ _ _ _ _ ER)].
  all: destruct HA as [->|(A & -> & _ & HAin & HAnil)];
    [left; rewrite (bind_exit _ _ _ _ _ EA); unfold prepend; cbn [fst snd];
     eexists; split; [reflexivity|];
     rewrite ?app_nil_r, ?stdoutOf_app, ?spawned_app, ?execs_app, ?assumeCalls_app;
     cbn; rewrite ?stdoutOf_app, ?spawned_app, ?execs_app, ?assumeCalls_app;
     cbn; by rewrite ?R1, ?R2, ?R3, ?R4, ?A1, ?A2, ?A3, ?A4
    | rewrite (bind_next _ _ _ _ _ _ EA)].
  all: step.
  all: destruct (LoadDefaultConfig w (Some pkg.FallbackRegion)) as [errCfg|cfg];
    [left; exits; rewrite !prepend_prepend; unfold prepend; cbn [fst snd];
     eexists; split; [reflexivity|];
     rewrite ?app_nil_r, ?stdoutOf_app, ?spawned_app, ?execs_app, ?assumeCalls_app;
     cbn; rewrite ?stdoutOf_app, ?spawned_app, ?execs_app, ?assumeCalls_app;
     cbn; by rewrite ?R1, ?R2, ?R3, ?R4, ?A1, ?A2, ?A3, ?A4
    | right; step; rewrite !prepend_prepend;
      eexists _, A, R, cfg; split; [reflexivity|];
      rewrite ?app_nil_r, ?stdoutOf_app, ?spawned_app, ?execs_app, ?assumeCalls_app;
      cbn; rewrite ?stdoutOf_app, ?spawned_app, ?execs_app, ?assumeCalls_app;
      cbn; rewrite ?R1, ?R2, ?R3, ?R4, ?A1, ?A2, ?A3, ?A4; done].
Qed.

Lemma execute_reading (w : World) (fl : main.Flags) (baseCfg : Config) (appCfg : AppConfig)
    (A R : list string) (s : Z) :
  let units := list_prod A R in
  let run := main.execute w fl baseCfg appCfg A R s in
  spawned (trace run) = units
  ∧ stdoutOf (trace run)
    = concat (map (unitOutput w appCfg (main.roleCmd fl) (main.command fl)) units)
  ∧ result run
    = if decide (tally s (map (succeeds w appCfg (main.roleCmd fl) (main.command fl)) units)
                 = wrap64 (Z.of_nat (length A) * Z.of_nat (length R)))
      then Exit 0 else Exit 1.
Proof.
  intros units run. subst run.
  destruct (execute_run w fl baseCfg appCfg A R s)
    as (plan & workers & after & -> & Hp & Ha & Hs & _ & Ho).
  destruct Hp as (Hp1 & _ & _ & Hp2 & _). destruct Ha as (Ha1 & _ & _ & Ha2 & _).
  fold units in Hs, Ho.
  match goal with |- context [main.finalVerdict ?v ?t ?c ?c] =>
    pose proof (finalVerdict_quiet v t c c) as (Hv1 & _ & Hv2 & _);
    pose proof (finalVerdict_run v t c c) as Hv
  end.
  unfold prepend, trace, result in *. cbn [fst snd] in *.
  rewrite !spawned_app, !stdoutOf_app. cbn [spawned stdoutOf].
  rewrite Hp1, Hp2, Ha1, Ha2, Hv1, Hv2, Hs, Ho, !app_nil_r.
  cbn [app]. repeat split. rewrite Hv. subst units. by destruct (decide _).
Qed.

Lemma wrap64_small (z : Z) : - 2 ^ 63 ≤ z < 2 ^ 63 → wrap64 z = z.
Proof. intros Hz. unfold wrap64. rewrite Z.mod_small; lia. Qed.

(** While it cannot overflow, the counter grows by the number of the units
    that succeeded. *)
Lemma tally_bounds (s : Z) (l : list bool) :
  0 ≤ s → s + Z.of_nat (length l) < 2 ^ 63 →
  s ≤ tally s l ≤ s + Z.of_nat (length l)
  ∧ (tally s l = s + Z.of_nat (length l) ↔ Forall (λ ok, ok = true) l).
Proof.
  revert s. induction l as [|ok l IH]; intros s Hs Hb.
  - cbn. split; [lia|]. split; [constructor | lia].
  - cbn [length] in Hb. unfold tally. cbn [fold_left]. fold (tally (if ok then wrap64 (s + 1) else s) l).
    destruct ok.
    + rewrite wrap64_small by lia.
      destruct (IH (s + 1)) as (Hr & Hiff); [lia..|].
      cbn [length]. split; [lia|]. rewrite Forall_cons.
      split.
      * intros Ht. split; [done|]. apply Hiff. lia.
      * intros [_ Hall]. apply Hiff in Hall. lia.
    + destruct (IH s) as (Hr & Hiff); [lia..|].
      cbn [length]. split; [lia|]. rewrite Forall_cons.
      split; [lia | by intros [? _]].
Qed.

Lemma calls_of_known (w : World) (appCfg : AppConfig) (role : string) (l : list Unit) :
  Forall (λ u : Unit, is_Some (Accounts appCfg !! u.1)) l →
  concat (map (λ u : Unit,
                 match Accounts appCfg !! u.1 with
                 | Some accountID => [(u, stsInput w accountID role "CmdExecSess")]
                 | None => []
                 end) l)
  = map (λ u : Unit, (u, stsInput w (default "" (Accounts appCfg !! u.1)) role "CmdExecSess")) l.
Proof.
  induction 1 as [|u l [id Hid] _ IH]; [done|].
  cbn [map concat]. by rewrite IH, Hid.
Qed.

Lemma list_prod_known (appCfg : AppConfig) (A R : list string) :
  (∀ a, a ∈ A → is_Some (Accounts appCfg !! a)) →
  Forall (λ u : Unit, is_Some (Accounts appCfg !! u.1)) (list_prod A R).
Proof.
  intros HA. apply Forall_forall. intros [a r] Hin.
  apply list_prod_elem_of in Hin. apply HA, Hin.
Qed.

Lemma elem_of_concat_map {A B} (f : A → list B) (l : list A) (x : B) :
  x ∈ concat (map f l) ↔ ∃ a, a ∈ l ∧ x ∈ f a.
Proof.
  rewrite list_elem_of_In, in_concat. split.
  - intros (k & Hk & Hx). apply in_map_iff in Hk as (a & <- & Ha).
    exists a. by rewrite !list_elem_of_In.
  - intros (a & Ha & Hx). exists (f a). rewrite <- !list_elem_of_In. split; [|done].
    rewrite list_elem_of_In. apply in_map. by rewrite <- list_elem_of_In.
Qed.

(** X1: In a run of the command mode, STS is called once for each started
    unit and for nothing else: two units of one account make two calls, no
    call is repeated after a failure, and each call names the role of the
    unit's own account under its registry number. The account of every
    started unit is in the registry, so the worker's branch for an unknown
    account is never taken. The calls are compared as a multiset, since the
    order in which the workers reach STS is the scheduler's. *)
Theorem command_mode_sts_calls (w : World) (fl : main.Flags) (appConfig : AppConfig)
    (s : Z) :
  let run := trace (main.commandMode w fl appConfig s) in
  Forall (λ u : Unit, is_Some (Accounts appConfig !! u.1)) (spawned run)
  ∧ assumeCalls run
    ≡ₚ map (λ u : Unit,
              (u, stsInput w (default "" (Accounts appConfig !! u.1))
                    (main.roleCmd fl) "CmdExecSess"))
         (spawned run).
Proof.
  intros run. subst run.
  destruct (commandMode_cases w fl appConfig s)
    as [(t & -> & _ & Hs & _ & Hc)
       |(pre & A & R & cfg & -> & _ & Hs & _ & Hc & _ & HA & _)].
  - unfold trace. cbn [fst]. rewrite Hs, Hc. by split.
  - destruct (execute_reading w fl cfg appConfig A R s) as (Hsp & _ & _).
    pose proof (execute_calls w fl cfg appConfig A R s) as Hcalls.
    unfold prepend, trace in *. cbn [fst] in *.
    rewrite spawned_app, assumeCalls_app, Hs, Hc, Hsp, Hcalls. cbn [app].
    split; [by apply list_prod_known|].
    rewrite calls_of_known; [done | by apply list_prod_known].
Qed.

(** X2: Standard output of a run of the command mode carries the result
    blocks of the started units and nothing else: every line on it is a
    line of the block of a started unit, and every line of such a block is
    on it. Errors, warnings, the usage text and the lines of the logger
    never reach it. *)
Theorem command_mode_stdout_is_result_blocks (w : World) (fl : main.Flags)
    (appConfig : AppConfig) (s : Z) (line : string) :
  let run := trace (main.commandMode w fl appConfig s) in
  line ∈ stdoutOf run
  ↔ ∃ u, u ∈ spawned run
         ∧ line ∈ unitOutput w appConfig (main.roleCmd fl) (main.command fl) u.
Proof.
  intros run. subst run.
  destruct (commandMode_cases w fl appConfig s)
    as [(t & -> & Ho & Hs & _)
       |(pre & A & R & cfg & -> & Ho & Hs & _)].
  - unfold trace. cbn [fst]. rewrite Hs, Ho. split.
    + by intros ?%elem_of_nil.
    + by intros (u & ?%elem_of_nil & _).
  - destruct (execute_reading w fl cfg appConfig A R s) as (Hsp & Hout & _).
    unfold prepend, trace in *. cbn [fst] in *.
    rewrite spawned_app, stdoutOf_app, Hs, Ho, Hsp, Hout. cbn [app].
    apply elem_of_concat_map.
Qed.

(** X3: The command mode started with the counter at zero ends with status
    0 exactly when it started at least one unit and the command of every
    started unit ended with exit code 0. A unit whose role could not be
    assumed counts as failed. The registry is not empty and the units are
    fewer than 2^63. *)
Theorem command_mode_exit_zero_iff (w : World) (fl : main.Flags) (appConfig : AppConfig) :
  let run := main.commandMode w fl appConfig 0 in
  Accounts appConfig ≠ ∅ →
  Z.of_nat (length (spawned (trace run))) < 2 ^ 63 →
  result run = Exit 0
  ↔ spawned (trace run) ≠ []
    ∧ Forall (λ u, succeeds w appConfig (main.roleCmd fl) (main.command fl) u = true)
        (spawned (trace run)).
Proof.
  intros run Hreg. subst run.
  destruct (commandMode_cases w fl appConfig 0)
    as [(t & -> & _ & Hs & _)
       |(pre & A & R & cfg & -> & _ & Hs & _ & _ & HR & _ & HA)].
  - unfold trace, result. cbn [fst snd]. rewrite Hs. intros _.
    split; [done | by intros [? _]].
  - destruct (execute_reading w fl cfg appConfig A R 0) as (Hsp & _ & Hres).
    unfold prepend, trace, result in *. cbn [fst snd] in *.
    rewrite spawned_app, Hs, Hsp, Hres. cbn [app]. intros Hlen.
    unfold Unit in *. rewrite (length_prod A R), Nat2Z.inj_mul in Hlen.
    rewrite wrap64_small by lia.
    pose proof (tally_bounds 0
      (map (succeeds w appConfig (main.roleCmd fl) (main.command fl)) (list_prod A R))
      (Z.le_refl 0)) as Ht.
    rewrite length_map in Ht. unfold Unit in Ht.
    rewrite (length_prod A R), Nat2Z.inj_mul in Ht.
    destruct Ht as (_ & Hiff); [lia|].
    rewrite Z.add_0_l in Hiff. rewrite Forall_map in Hiff.
    assert (list_prod A R ≠ []) as Hne.
    { destruct A as [|a A]; [by specialize (HA eq_refl)|].
      destruct R as [|r R]; [done|]. done. }
    match goal with |- context [@decide ?P ?I] => destruct (@decide P I) as [Hc|Hc] end.
    + split; [|done]. intros _. split; [done|]. by apply Hiff.
    + split; [done|]. intros [_ Hall]. by apply Hiff in Hall.
Qed.

Lemma command_mode_exit_zero_iff_witness :
  result (main.commandMode demoWorld (flagsFor "dev-*" "eu-west-1") demoConfig 0)
  = Exit 0
  ∧ spawned (trace (main.commandMode demoWorld (flagsFor "dev-*" "eu-west-1")
                      demoConfig 0))
    = [("dev-a", "eu-west-1"); ("dev-b", "eu-west-1")].
Proof.
  assert (Accounts demoConfig ≠ ∅) as Hreg.
  { intros H. apply (f_equal (λ m : gmap string string, m !! "dev-a")) in H.
    by vm_compute in H. }
  split; [|by vm_compute].
  apply (command_mode_exit_zero_iff demoWorld (flagsFor "dev-*" "eu-west-1") demoConfig
           Hreg); [by vm_compute|].
  split; [by vm_compute|]. vm_compute. repeat constructor.
Defined.

(** X4: Every run of the command mode ends the process, with status 0 or
    with status 1 and no other: an error of the flags, of the targets, of
    the base configuration or of a unit gives 1. The status of a panic is
    never among them, since the credentials a worker dereferences have
    passed the test of [AssumeRole]. *)
Theorem command_mode_exit_status (w : World) (fl : main.Flags) (appConfig : AppConfig)
    (s : Z) :
  result (main.commandMode w fl appConfig s) = Exit 0
  ∨ result (main.commandMode w fl appConfig s) = Exit 1.
Proof.
  destruct (commandMode_cases w fl appConfig s)
    as [(t & -> & _)|(pre & A & R & cfg & -> & _)].
  - by right.
  - destruct (execute_reading w fl cfg appConfig A R s) as (_ & _ & Hres).
    unfold prepend, result in *. cbn [snd] in *. rewrite Hres.
    destruct (decide _); auto.
Qed.

(** ** All accounts *)

(** X5: With [-a] the target accounts are all the names of the registry and
    only they, each once and in ascending byte-wise order, whatever the
    selector matcher and the order in which the runtime ranges over the
    map. *)
Theorem all_accounts_selected (w w' : World) (fl : main.Flags) (appConfig : AppConfig)
    (s : Z) :
  main.processAll fl = true →
  ∃ names,
    result (main.targetAccounts w fl appConfig s) = Next names s
    ∧ result (main.targetAccounts w' fl appConfig s) = Next names s
    ∧ Sorted String.le names ∧ NoDup names
    ∧ ∀ a, a ∈ names ↔ is_Some (Accounts appConfig !! a).
Proof.
  intros Hall. rewrite !targetAccounts_all by done.
  eexists. split; [reflexivity|]. split.
  - f_equal. apply sortStrings_order.
    by rewrite !shuffle_Permutation.
  - split; [apply sortStrings_Sorted|].
    split; [rewrite sortStrings_Permutation, shuffle_Permutation; apply NoDup_elements|].
    intros a. rewrite sortStrings_elem_of, shuffle_Permutation, elem_of_elements.
    apply elem_of_dom.
Qed.

Lemma all_accounts_selected_witness :
  result (main.targetAccounts (withSeed [1; 1]%nat demoWorld)
            {| main.roleCmd := "ReadOnly"; main.selector := ""; main.verbose := true;
               main.command := "id"; main.cmdRegionsStr := ""; main.processAll := true;
               main.instanceIDFlag := ""; main.ecsClusterFlag := "";
               main.ecsTaskFlag := ""; main.ecsContainerFlag := "";
               main.ecsCommandFlag := "" |} demoConfig 0)
  = Next ["dev-a"; "dev-b"; "prod-a"] 0.
Proof.
  destruct (all_accounts_selected demoWorld (withSeed [1; 1]%nat demoWorld)
              {| main.roleCmd := "ReadOnly"; main.selector := ""; main.verbose := true;
                 main.command := "id"; main.cmdRegionsStr := ""; main.processAll := true;
                 main.instanceIDFlag := ""; main.ecsClusterFlag := "";
                 main.ecsTaskFlag := ""; main.ecsContainerFlag := "";
                 main.ecsCommandFlag := "" |} demoConfig 0 eq_refl)
    as (names & H1 & H2 & _).
  rewrite H2. rewrite <- H1. by vm_compute.
Defined.

(** ** What the subprocess inherits *)

Lemma prefix_name_eq (a b e : string) :
  strings.ContainsByte a "=" = false →
  strings.ContainsByte b "=" = false →
  String.prefix (a +:+ "=") e = true →
  String.prefix (b +:+ "=") e = true →
  a = b.
Proof.
  revert b e. induction a as [|x a IH]; intros [|y b] [|z e] Ha Hb Hpa Hpb;
    try done;
    change (String ?c ?s +:+ ?t) with (String c (s +:+ t)) in *;
    change ("" +:+ ?t) with t in *;
    cbn [String.prefix strings.ContainsByte] in Ha, Hb, Hpa, Hpb.
  - destruct (Ascii.ascii_dec "=" z) as [<-|]; [|done].
    destruct (Ascii.ascii_dec y "=") as [->|]; [|done]. by cbn in Hb.
  - destruct (Ascii.ascii_dec "=" z) as [<-|]; [|done].
    destruct (Ascii.ascii_dec x "=") as [->|]; [|done]. by cbn in Ha.
  - destruct (Ascii.ascii_dec x z) as [->|]; [|done].
    destruct (Ascii.ascii_dec y z) as [->|]; [|done].
    apply orb_false_iff in Ha as [_ Ha], Hb as [_ Hb].
    f_equal. by apply (IH b e).
Qed.

Lemma entriesFor_kept (name : string) (env : list string) :
  (∀ e, strings.HasPrefix e (name +:+ "=") = true → saws.keepVar e = true) →
  entriesFor name (saws.cleanEnv env) = entriesFor name env.
Proof.
  intros H. induction env as [|e env IH]; [done|].
  cbn [saws.cleanEnv]. unfold entriesFor in *. cbn [List.filter].
  destruct (strings.HasPrefix e (name +:+ "=")) eqn:Hp.
  - rewrite (H e Hp). cbn [List.filter]. by rewrite Hp, IH.
  - destruct (saws.keepVar e); [cbn [List.filter]; rewrite Hp|]; exact IH.
Qed.

Lemma other_name (name other e : string) :
  strings.ContainsByte name "=" = false →
  strings.ContainsByte other "=" = false →
  name ≠ other →
  strings.HasPrefix e (name +:+ "=") = true →
  strings.HasPrefix e (other +:+ "=") = false.
Proof.
  intros Hn Ho Hne Hp. destruct (strings.HasPrefix e (other +:+ "=")) eqn:Hq; [|done].
  destruct Hne. by apply (prefix_name_eq name other e).
Qed.

Lemma other_prefix (name other p e : string) :
  strings.ContainsByte name "=" = false →
  strings.ContainsByte other "=" = false →
  name ≠ other →
  p = other +:+ "=" →
  strings.HasPrefix e (name +:+ "=") = true →
  strings.HasPrefix e p = false.
Proof. intros Hn Ho Hne ->. by apply other_name. Qed.

Lemma prefix_own (p r : string) : String.prefix p (p +:+ r) = true.
Proof.
  induction p as [|c p IH]; [apply prefix_empty|].
  change (String c p +:+ r) with (String c (p +:+ r)). cbn [String.prefix].
  by destruct (Ascii.ascii_dec c c).
Qed.

Lemma appended_other (name other p v : string) :
  strings.ContainsByte name "=" = false →
  strings.ContainsByte other "=" = false →
  name ≠ other →
  p = other +:+ "=" →
  strings.HasPrefix (p +:+ v) (name +:+ "=") = false.
Proof.
  intros Hn Ho Hne ->. apply (other_name other name); [done | done | done |].
  apply prefix_own.
Qed.

(** X6: A unit's subprocess inherits every other variable of the parent
    unchanged: for a name that is none of the nine the program filters, the
    entries of the subprocess are those of the parent, in their order. A
    variable whose name only begins like one of the nine, such as
    AWS_PROFILE_NAME, is inherited too. *)
Theorem subprocess_env_inherits (env : list string) (k sk tk region name : string) :
  strings.ContainsByte name "=" = false →
  name ∉ ["AWS_PROFILE"; "AWS_ACCESS_KEY_ID"; "AWS_SECRET_ACCESS_KEY";
          "AWS_SESSION_TOKEN"; "AWS_SECURITY_TOKEN"; "AWS_REGION";
          "AWS_DEFAULT_REGION"; "AWS_CONFIG_FILE"; "AWS_SHARED_CREDENTIALS_FILE"] →
  entriesFor name (saws.subprocessEnv env k sk tk region) = entriesFor name env.
Proof.
  intros Hn Hnot.
  repeat (apply not_elem_of_cons in Hnot as [? Hnot]).
  unfold saws.subprocessEnv. rewrite !entriesFor_app.
  rewrite entriesFor_kept.
  - unfold entriesFor at 2 3 4 5 6. cbn [List.filter].
    rewrite (appended_other name "AWS_ACCESS_KEY_ID" "AWS_ACCESS_KEY_ID=" k),
      (appended_other name "AWS_SECRET_ACCESS_KEY" "AWS_SECRET_ACCESS_KEY=" sk),
      (appended_other name "AWS_SESSION_TOKEN" "AWS_SESSION_TOKEN=" tk),
      (appended_other name "AWS_REGION" "AWS_REGION=" region),
      (appended_other name "AWS_DEFAULT_REGION" "AWS_DEFAULT_REGION=" region); try done.
    by rewrite !app_nil_r.
  - intros e Hp. unfold saws.keepVar.
    rewrite (other_prefix name "AWS_PROFILE" "AWS_PROFILE=" e),
      (other_prefix name "AWS_ACCESS_KEY_ID" "AWS_ACCESS_KEY_ID=" e),
      (other_prefix name "AWS_SECRET_ACCESS_KEY" "AWS_SECRET_ACCESS_KEY=" e),
      (other_prefix name "AWS_SESSION_TOKEN" "AWS_SESSION_TOKEN=" e),
      (other_prefix name "AWS_SECURITY_TOKEN" "AWS_SECURITY_TOKEN=" e),
      (other_prefix name "AWS_REGION" "AWS_REGION=" e),
      (other_prefix name "AWS_DEFAULT_REGION" "AWS_DEFAULT_REGION=" e),
      (other_prefix name "AWS_CONFIG_FILE" "AWS_CONFIG_FILE=" e),
      (other_prefix name "AWS_SHARED_CREDENTIALS_FILE" "AWS_SHARED_CREDENTIALS_FILE=" e);
      done.
Qed.

Lemma subprocess_env_inherits_witness :
  entriesFor "AWS_PROFILE_NAME"
    (saws.subprocessEnv ["PATH=/usr/bin"; "AWS_PROFILE=work"; "AWS_PROFILE_NAME=x";
                         "AWS_REGION=ap-south-1"] "AKIA" "secret" "token" "eu-west-1")
  = ["AWS_PROFILE_NAME=x"].
Proof.
  rewrite (subprocess_env_inherits
             ["PATH=/usr/bin"; "AWS_PROFILE=work"; "AWS_PROFILE_NAME=x";
              "AWS_REGION=ap-south-1"] "AKIA" "secret" "token" "eu-west-1"
             "AWS_PROFILE_NAME"); [reflexivity | reflexivity |].
  vm_compute. intros H. repeat (apply elem_of_cons in H as [H|H]; [discriminate H|]).
  by apply elem_of_nil in H.
Defined.

(** * The configuration file *)

Lemma onlyLogs_nil : onlyLogs [].
Proof. constructor. Qed.

Ltac only_logs :=
  unfold prepend, trace; cbn [fst snd mret M_ret]; rewrite ?app_nil_r;
  repeat first [apply onlyLogs_nil | apply onlyLogs_if | apply onlyLogs_app].

Lemma FindConfigPath_run (fs : Files) (v : bool) (override : string) (s : Z) :
  ∃ t,
    config.FindConfigPath fs v override s
    = (t, Next
            (if decide (override = "") then
               match UserHomeDir fs with
               | inr homeDir =>
                   if Stat fs (Join fs [homeDir; config.AWSConfigDir; config.ConfigFileName])
                   then inr (Join fs [homeDir; config.AWSConfigDir; config.ConfigFileName])
                   else if Stat fs config.ConfigFileName then inr config.ConfigFileName
                        else inl ("SAWS configuration file ('saws-config.yaml') not found in standard locations (~/.aws/saws-config.yaml, ./saws-config.yaml) and no -config flag provided")
               | inl _ =>
                   if Stat fs config.ConfigFileName then inr config.ConfigFileName
                   else inl ("SAWS configuration file ('saws-config.yaml') not found in standard locations (~/.aws/saws-config.yaml, ./saws-config.yaml) and no -config flag provided")
               end
             else if Stat fs (expandedPath fs override) then inr (expandedPath fs override)
                  else inl ("specified SAWS config file '" +:+ override
                            +:+ "' (expanded to '" +:+ expandedPath fs override
                            +:+ "') not found")) s)
    ∧ onlyLogs t.
Proof.
  unfold config.FindConfigPath, expandedPath.
  destruct (decide (override = "")) as [->|Hne].
  - destruct (UserHomeDir fs) as [err|homeDir].
    + erewrite bind_next; [|erewrite bind_next; [|apply LogVerbosef_run]; reflexivity].
      cbn iota. destruct (Stat fs config.ConfigFileName);
        (eexists; split; [reflexivity|]); only_logs.
    + destruct (Stat fs (Join fs [homeDir; config.AWSConfigDir; config.ConfigFileName]));
        step; cbn iota; [|destruct (Stat fs config.ConfigFileName)];
        (eexists; split; [reflexivity|]); only_logs.
  - destruct (strings.HasPrefix override "~"); [destruct (UserHomeDir fs) as [err|homeDir]|].
    + erewrite bind_next; [|erewrite bind_next; [|apply LogVerbosef_run]; reflexivity].
      destruct (Stat fs override);
        [erewrite bind_next; [|apply LogVerbosef_run]|];
        (eexists; split; [reflexivity|]); only_logs.
    + step. destruct (Stat fs _);
        [erewrite bind_next; [|apply LogVerbosef_run]|];
        (eexists; split; [reflexivity|]); only_logs.
    + step. destruct (Stat fs override);
        [erewrite bind_next; [|apply LogVerbosef_run]|];
        (eexists; split; [reflexivity|]); only_logs.
Qed.

Lemma LoadConfig_run (fs : Files) (v : bool) (filePath : string) (s : Z) :
  ∃ t,
    config.LoadConfig fs v filePath s
    = (t, Next
            match ReadFile fs filePath with
            | inl err =>
                inl ("failed to read SAWS config file '" +:+ filePath +:+ "': " +:+ err)
            | inr data =>
                match Unmarshal fs data with
                | inl err =>
                    inl ("failed to parse YAML from SAWS config file '" +:+ filePath
                         +:+ "': " +:+ err)
                | inr loaded =>
                    if decide (size (Accounts loaded) = 0%nat)
                    then inl ("SAWS config validation failed: 'accounts' map cannot be empty in '"
                              +:+ filePath +:+ "'")
                    else inr loaded
                end
            end s)
    ∧ onlyLogs t.
Proof.
  unfold config.LoadConfig.
  destruct (ReadFile fs filePath) as [err|data];
    [eexists; split; [reflexivity | apply onlyLogs_nil]|].
  destruct (Unmarshal fs data) as [err|loaded];
    [eexists; split; [reflexivity | apply onlyLogs_nil]|].
  destruct (decide (size (Accounts loaded) = 0%nat));
    [eexists; split; [reflexivity | apply onlyLogs_nil]|].
  destruct (decide (length (CommonRegions loaded) = 0%nat));
    (erewrite bind_next; [|first [apply LogVerbosef_run | reflexivity]]);
    destruct (decide (size (Roles loaded) = 0%nat));
    (erewrite bind_next; [|first [apply LogVerbosef_run | reflexivity]]);
    (erewrite bind_next; [|apply LogVerbosef_run]);
    rewrite !prepend_prepend;
    (eexists; split; [reflexivity|]); only_logs.
Qed.

(** X7: The search of the configuration file says nothing but to the
    logger and never ends the process. A path it returns exists. With a
    [-config] value only the path of this value is tried, with a leading
    tilde expanded to the home directory when there is one: when it does
    not exist the search fails, whatever the standard locations hold.
    Without such a value the file of the home directory is preferred to the
    one of the working directory. *)
Theorem config_path_search (fs : Files) (v : bool) (override : string) (s : Z) :
  ∃ t r,
    config.FindConfigPath fs v override s = (t, Next r s)
    ∧ onlyLogs t
    ∧ (∀ path, r = inr path → Stat fs path = true)
    ∧ (override ≠ "" →
       (∀ path, r = inr path → path = expandedPath fs override)
       ∧ (Stat fs (expandedPath fs override) = false → ∃ err, r = inl err))
    ∧ (override = "" →
       (∀ homeDir,
          UserHomeDir fs = inr homeDir →
          Stat fs (Join fs [homeDir; ".aws"; "saws-config.yaml"]) = true →
          r = inr (Join fs [homeDir; ".aws"; "saws-config.yaml"]))
       ∧ (∀ path,
            r = inr path →
            path = "saws-config.yaml"
            ∨ ∃ homeDir, UserHomeDir fs = inr homeDir
                         ∧ path = Join fs [homeDir; ".aws"; "saws-config.yaml"])).
Proof.
  destruct (FindConfigPath_run fs v override s) as (t & Hrun & Ht).
  eexists t, _. split; [exact Hrun|]. split; [exact Ht|].
  change config.AWSConfigDir with ".aws". change config.ConfigFileName with "saws-config.yaml".
  destruct (decide (override = "")) as [->|Hne].
  - split; [|split; [done|]].
    + intros path.
      destruct (UserHomeDir fs) as [err|homeDir];
        [|destruct (Stat fs (Join fs _)) eqn:Hh];
        destruct (Stat fs "saws-config.yaml") eqn:Hl; intros [= <-]; assumption.
    + intros _. split.
      * intros homeDir -> Hh. by rewrite Hh.
      * intros path.
        destruct (UserHomeDir fs) as [err|homeDir];
          [|destruct (Stat fs (Join fs _)) eqn:Hh];
          destruct (Stat fs "saws-config.yaml") eqn:Hl; intros [= <-]; eauto.
  - split; [|split; [|done]].
    + intros path. destruct (Stat fs (expandedPath fs override)) eqn:He;
        intros [= <-]; assumption.
    + intros _. split.
      * intros path. destruct (Stat fs (expandedPath fs override)); by intros [= <-].
      * intros ->. eauto.
Qed.

(** X8: [LoadConfig] says nothing but to the logger and never ends the
    process. It returns a configuration exactly when the file can be read,
    its data decode, and the decoded accounts are not empty; the
    configuration is the decoded one. An empty list of regions or an empty
    map of roles does not make it fail. *)
Theorem config_loaded (fs : Files) (v : bool) (filePath : string) (s : Z) :
  ∃ t r,
    config.LoadConfig fs v filePath s = (t, Next r s)
    ∧ onlyLogs t
    ∧ ∀ loaded,
        r = inr loaded
        ↔ (∃ data, ReadFile fs filePath = inr data ∧ Unmarshal fs data = inr loaded)
          ∧ Accounts loaded ≠ ∅.
Proof.
  destruct (LoadConfig_run fs v filePath s) as (t & Hrun & Ht).
  eexists t, _. split; [exact Hrun|]. split; [exact Ht|].
  intros loaded.
  destruct (ReadFile fs filePath) as [err|data].
  { split; [done|]. by intros [(d & ? & _) _]. }
  destruct (Unmarshal fs data) as [err|decoded] eqn:Hd.
  { split; [done|]. intros [(d & [= <-] & Hd') _]. congruence. }
  destruct (decide (size (Accounts decoded) = 0%nat)) as [He|Hne].
  - split; [done|]. intros [(d & [= <-] & Hd') Hacc].
    rewrite Hd in Hd'. injection Hd' as ->. by apply map_size_empty_inv in He.
  - split.
    + intros [= <-]. split; [by exists data|].
      intros He. by rewrite He, map_size_empty in Hne.
    + intros [(d & [= <-] & Hd') _]. congruence.
Qed.

(** * The interactive modes *)

Lemma jbind_ret {A B} (m : J A) (f : A → J B) (t : list ievent) (a : A) :
  m = (t, Ret a) → (m ≫= f) = jprepend t (f a).
Proof. intros ->. unfold mbind, J_bind, jprepend. by destruct (f a). Qed.

Lemma jbind_halt {A B} (m : J A) (f : A → J B) (t : list ievent) (c : Z) :
  m = (t, Halt c) → (m ≫= f) = (t, Halt c).
Proof. by intros ->. Qed.

Lemma jprepend_jprepend {A} (t u : list ievent) (r : J A) :
  jprepend t (jprepend u r) = jprepend (t ++ u) r.
Proof. unfold jprepend. cbn. by rewrite app_assoc. Qed.

Lemma jprepend_nil {A} (r : J A) : jprepend [] r = r.
Proof. by destruct r. Qed.

Lemma liftM_next {A} (m : M A) (t : list event) (a : A) (s : Z) :
  m 0 = (t, Next a s) → liftM m = (map Core t, Ret a).
Proof. unfold liftM. by intros ->. Qed.

Lemma liftM_exit {A} (m : M A) (t : list event) (c : Z) :
  m 0 = (t, Exit c) → liftM m = (map Core t, Halt c).
Proof. unfold liftM. by intros ->. Qed.

Lemma logv_run (v : bool) (line : string) :
  logv v line = ((if v then [Core (LogLine line)] else []), Ret tt).
Proof. unfold logv, liftM. rewrite LogVerbosef_run. by destruct v. Qed.

Lemma core_app (a b : list ievent) : core (a ++ b) = core a ++ core b.
Proof. induction a as [|[] a IH]; simpl; congruence. Qed.

Lemma prompts_app (a b : list ievent) : prompts (a ++ b) = prompts a ++ prompts b.
Proof. induction a as [|[] a IH]; simpl; congruence. Qed.

Lemma attached_app (a b : list ievent) : attached (a ++ b) = attached a ++ attached b.
Proof. induction a as [|[] a IH]; simpl; congruence. Qed.

Lemma described_app (a b : list ievent) :
  described (a ++ b) = described a ++ described b.
Proof. induction a as [|[] a IH]; simpl; congruence. Qed.

Lemma core_Core (t : list event) : core (map Core t) = t.
Proof. induction t; simpl; congruence. Qed.

Lemma prompts_Core (t : list event) : prompts (map Core t) = [].
Proof. induction t; simpl; congruence. Qed.

Lemma attached_Core (t : list event) : attached (map Core t) = [].
Proof. induction t; simpl; congruence. Qed.

Lemma onlyLogsJ_Core (t : list event) : onlyLogs t → onlyLogsJ (map Core t).
Proof.
  induction 1 as [|e t [line ->] _ IH]; [constructor|].
  constructor; [by exists line | exact IH].
Qed.

Lemma onlyLogsJ_app (a b : list ievent) : onlyLogsJ a → onlyLogsJ b → onlyLogsJ (a ++ b).
Proof. apply Forall_app_2. Qed.

Lemma onlyLogsJ_if (v : bool) (line : string) :
  onlyLogsJ (if v then [Core (LogLine line)] else []).
Proof. destruct v; [|constructor]. repeat constructor. by eexists. Qed.

Lemma onlyLogsJ_nil : onlyLogsJ [].
Proof. constructor. Qed.

Lemma onlyLogsJ_core (t : list ievent) : onlyLogsJ t → onlyLogs (core t).
Proof.
  induction 1 as [|e t [line ->] _ IH]; [constructor|].
  constructor; [by exists line | exact IH].
Qed.

Lemma onlyLogsJ_idle (t : list ievent) :
  onlyLogsJ t → prompts t = [] ∧ attached t = [] ∧ described t = [].
Proof. induction 1 as [|e t [line ->] _ IH]; [done|]. exact IH. Qed.

Lemma onlyLogsJ_wellAsked (t : list ievent) : onlyLogsJ t → Forall wellAsked t.
Proof.
  induction 1 as [|e t [line ->] _ IH]; [constructor|]. by constructor.
Qed.

Lemma jbind_assoc {A B C} (m : J A) (f : A → J B) (g : B → J C) :
  (m ≫= f) ≫= g = m ≫= (λ a, f a ≫= g).
Proof.
  destruct m as [t [a|c]]; [|reflexivity].
  unfold mbind, J_bind. destruct (f a) as [t' [b|c]]; [|reflexivity].
  destruct (g b) as [t'' r]. by rewrite app_assoc.
Qed.

Lemma jbind_jprepend {A B} (t : list ievent) (m : J A) (f : A → J B) :
  jprepend t m ≫= f = jprepend t (m ≫= f).
Proof.
  destruct m as [t' [a|c]]; unfold jprepend, mbind, J_bind; cbn [fst snd];
    [|reflexivity].
  destruct (f a) as [t'' r]. cbn [fst snd]. by rewrite app_assoc.
Qed.

Ltac jstep :=
  rewrite ?jbind_jprepend, ?jbind_assoc;
  erewrite jbind_ret; [| first [apply logv_run | reflexivity]];
  cbv beta iota.

Ltac only_logsJ :=
  unfold jprepend; cbn [fst snd mret J_ret]; rewrite ?app_nil_r;
  repeat first [apply onlyLogsJ_nil | apply onlyLogsJ_if | assumption
               | apply onlyLogsJ_app].

(** ** The account *)


(** The loop over the names: a name equal to the selector wins alone, and
    otherwise the names that the selector matches are kept in the order of
    the loop. *)
Lemma matchSelector_run (w : World) (v : bool) (sel : string) (names acc : list string)
    (s : Z) :
  ∃ t,
    establish.matchSelector w v sel names acc s
    = (t, Next (if decide (sel ∈ names) then [sel]
                else acc ++ List.filter (λ name, matches w name sel) names) s)
    ∧ onlyLogs t.
Proof.
  revert acc. induction names as [|n names IH]; intros acc.
  - exists []. cbn. rewrite app_nil_r. split; [reflexivity | constructor].
  - cbn [establish.matchSelector].
    destruct (decide (sel = n)) as [->|Hne].
    + exists []. rewrite decide_True by apply list_elem_of_here.
      split; [reflexivity | constructor].
    + assert ((if decide (sel ∈ n :: names) then [sel]
               else acc ++ List.filter (λ name, matches w name sel) (n :: names))
              = (if decide (sel ∈ names) then [sel]
                 else (acc ++ (if matches w n sel then [n] else []))
                      ++ List.filter (λ name, matches w name sel) names)) as ->.
      { destruct (decide (sel ∈ names)) as [Hin|Hnin].
        - rewrite decide_True by (by apply list_elem_of_further). done.
        - rewrite decide_False by (rewrite elem_of_cons; tauto).
          cbn [List.filter]. destruct (matches w n sel); by rewrite <- app_assoc. }
      unfold matches at 1.
      destruct (Match w sel n) as [[] [err|]].
      * erewrite bind_next; [|apply LogVerbosef_run].
        destruct (IH acc) as (t & -> & Ht). rewrite app_nil_r.
        eexists. split; [reflexivity|]. only_logs. exact Ht.
      * destruct (IH (acc ++ [n])) as (t & -> & Ht). by exists t.
      * erewrite bind_next; [|apply LogVerbosef_run].
        destruct (IH acc) as (t & -> & Ht). rewrite app_nil_r.
        eexists. split; [reflexivity|]. only_logs. exact Ht.
      * destruct (IH acc) as (t & -> & Ht). rewrite app_nil_r. by exists t.
Qed.

Lemma names_elem_of (w : World) (accounts : gmap string string) (name : string) :
  name ∈ sortStrings (shuffle (rangeSeed w) (elements (dom accounts)))
  ↔ is_Some (accounts !! name).
Proof.
  rewrite sortStrings_elem_of, shuffle_Permutation, elem_of_elements. apply elem_of_dom.
Qed.

Lemma names_sorted (w : World) (accounts : gmap string string) :
  sortStrings (shuffle (rangeSeed w) (elements (dom accounts)))
  = sortStrings (elements (dom accounts)).
Proof. apply sortStrings_order, shuffle_Permutation. Qed.

Lemma matchSelector_selectorMatches (w : World) (v : bool) (accounts : gmap string string)
    (sel : string) :
  ∃ t,
    liftM (establish.matchSelector w v sel
             (sortStrings (shuffle (rangeSeed w) (elements (dom accounts)))) [])
    = (t, Ret (selectorMatches w accounts sel))
    ∧ onlyLogsJ t.
Proof.
  destruct (matchSelector_run w v sel
              (sortStrings (shuffle (rangeSeed w) (elements (dom accounts)))) [] 0)
    as (t & Hrun & Ht).
  exists (map Core t). split; [|by apply onlyLogsJ_Core].
  rewrite (liftM_next _ _ _ _ Hrun). f_equal. f_equal.
  unfold selectorMatches.
  destruct (decide (is_Some (accounts !! sel))) as [Hin|Hnin].
  - rewrite decide_True by (by apply names_elem_of). done.
  - rewrite decide_False by (by rewrite names_elem_of). by rewrite names_sorted.
Qed.

Lemma optionMap_lookup (accounts : gmap string string) (names : list string)
    (m : gmap string string) (k x : string) :
  establish.optionToAccountNameMap accounts names m !! k = Some x →
  x ∈ names ∨ m !! k = Some x.
Proof.
  revert m. induction names as [|n names IH]; intros m H; [by right|].
  cbn [establish.optionToAccountNameMap] in H.
  apply IH in H as [H|H]; [left; by apply list_elem_of_further|].
  destruct (decide (establish.displayStr accounts n = k)) as [<-|Hne].
  - rewrite lookup_insert_eq in H. injection H as <-. left. apply list_elem_of_here.
  - rewrite lookup_insert_ne in H by done. by right.
Qed.

Lemma optionMap_is_Some (accounts : gmap string string) (names : list string)
    (m : gmap string string) (k : string) :
  is_Some (m !! k) ∨ k ∈ map (establish.displayStr accounts) names →
  is_Some (establish.optionToAccountNameMap accounts names m !! k).
Proof.
  revert m. induction names as [|n names IH]; intros m H.
  - destruct H as [H|H]; [done | by apply elem_of_nil in H].
  - cbn [establish.optionToAccountNameMap]. apply IH.
    destruct (decide (establish.displayStr accounts n = k)) as [<-|Hne].
    + left. rewrite lookup_insert_eq. by eexists.
    + rewrite lookup_insert_ne by done.
      destruct H as [H|H]; [by left|]. cbn [map] in H.
      apply elem_of_cons in H as [H|H]; [congruence | by right].
Qed.

(** An answer among the options of an account prompt stands for one of
    the names the options were made of. *)
Lemma chosen_account (accounts : gmap string string) (names : list string)
    (answer : string) :
  answer ∈ map (establish.displayStr accounts) names →
  default "" (establish.optionToAccountNameMap accounts names ∅ !! answer) ∈ names.
Proof.
  intros Hin.
  destruct (optionMap_is_Some accounts names ∅ answer (or_intror Hin)) as [x Hx].
  rewrite Hx. cbn. apply optionMap_lookup in Hx as [Hx|Hx]; [done|].
  by rewrite lookup_empty in Hx.
Qed.

Lemma selectorMatches_known (w : World) (accounts : gmap string string)
    (sel name : string) :
  name ∈ selectorMatches w accounts sel → is_Some (accounts !! name).
Proof.
  unfold selectorMatches. case_decide as Hs.
  - by intros ->%list_elem_of_singleton.
  - rewrite list_elem_of_In, filter_In, <- list_elem_of_In.
    intros [Hin _]. by rewrite sortStrings_elem_of, elem_of_elements, elem_of_dom in Hin.
Qed.

Lemma current_value (term : Terminal) (v : bool) (flag var : string)
    (fromEnv fromFlag : string → string) :
  (if decide (flag = "") then
     let current := Getenv term var in
     (if decide (current = "") then mret tt else logv v (fromEnv current)) ;;
     mret current
   else logv v (fromFlag flag) ;; mret flag : J string)
  = ((if decide (flag = "")
      then if decide (Getenv term var = "") then []
           else if v then [Core (LogLine (fromEnv (Getenv term var)))] else []
      else if v then [Core (LogLine (fromFlag flag))] else []),
     Ret (flagOrEnv term flag var)).
Proof.
  unfold flagOrEnv. destruct (decide (flag = "")); cbv zeta.
  - destruct (decide (Getenv term var = "")); jstep;
      unfold jprepend; cbn [fst snd mret J_ret]; by rewrite ?app_nil_r.
  - jstep. unfold jprepend; cbn [fst snd mret J_ret]; by rewrite ?app_nil_r.
Qed.

Lemma current_logs (term : Terminal) (v : bool) (flag var : string)
    (fromEnv fromFlag : string → string) :
  onlyLogsJ (if decide (flag = "")
             then if decide (Getenv term var = "") then []
                  else if v then [Core (LogLine (fromEnv (Getenv term var)))] else []
             else if v then [Core (LogLine (fromFlag flag))] else []).
Proof. repeat case_decide; only_logsJ. Qed.

(** A selector that stands for no account ends the choice of the account
    with an error, before any question. *)
Lemma selectAccount_nomatch (w : World) (term : Terminal) (v : bool)
    (accounts : gmap string string) (flag : string) :
  let sel := flagOrEnv term flag "SAWS_ACCOUNT" in
  sel ≠ "" →
  selectorMatches w accounts sel = [] →
  ∃ t,
    establish.selectAccount w term v accounts flag
    = (t, Ret (inl ("selector '" +:+ sel
                    +:+ "' (from flag or SAWS_ACCOUNT) did not match any accounts in SAWS config")))
    ∧ onlyLogsJ t.
Proof.
  intros sel Hsel Hnone. unfold establish.selectAccount.
  rewrite (jbind_ret _ _ _ _ (current_value term v flag "SAWS_ACCOUNT"
    (λ c, "Using account selector '" +:+ c +:+ "' from " +:+ config.envAccountVar
          +:+ " environment variable.")
    (λ c, "Using account selector '" +:+ c +:+ "' from -s flag."))).
  pose proof (current_logs term v flag "SAWS_ACCOUNT"
    (λ c, "Using account selector '" +:+ c +:+ "' from " +:+ config.envAccountVar
          +:+ " environment variable.")
    (λ c, "Using account selector '" +:+ c +:+ "' from -s flag.")) as Hl.
  cbv beta in Hl.
  match goal with |- context [jprepend ?l _] => set (logs := l) in *; clearbody logs end.
  rewrite decide_False by exact Hsel.
  destruct (matchSelector_selectorMatches w v accounts sel) as (t & Hrun & Ht).
  rewrite (jbind_ret _ _ _ _ Hrun), Hnone.
  erewrite jbind_ret; [|reflexivity]. rewrite !jprepend_jprepend.
  eexists. split; [reflexivity|].
  only_logsJ.
Qed.

Ltac current_block term v flag var fromEnv fromFlag :=
  let Hl := fresh "Hl" in
  let logs := fresh "logs" in
  rewrite (jbind_ret _ _ _ _ (current_value term v flag var fromEnv fromFlag));
  pose proof (current_logs term v flag var fromEnv fromFlag) as Hl;
  cbv beta in Hl;
  match goal with |- context [jprepend ?l _] => set (logs := l) in *; clearbody logs end.

Ltac account_block term v flag :=
  current_block term v flag "SAWS_ACCOUNT"
    (λ c : string, "Using account selector '" +:+ c +:+ "' from "
                   +:+ config.envAccountVar +:+ " environment variable.")
    (λ c : string, "Using account selector '" +:+ c +:+ "' from -s flag.").

(** A selector that stands for one account selects it without a
    question. *)
Lemma selectAccount_auto (w : World) (term : Terminal) (v : bool)
    (accounts : gmap string string) (flag name : string) :
  let sel := flagOrEnv term flag "SAWS_ACCOUNT" in
  sel ≠ "" →
  selectorMatches w accounts sel = [name] →
  name ≠ "" →
  ∃ t,
    establish.selectAccount w term v accounts flag = (t, Ret (inr name))
    ∧ onlyLogsJ t.
Proof.
  intros sel Hsel Hone Hname. unfold establish.selectAccount.
  account_block term v flag.
  rewrite decide_False by exact Hsel.
  destruct (matchSelector_selectorMatches w v accounts sel) as (t & Hrun & Ht).
  rewrite (jbind_ret _ _ _ _ Hrun), Hone. cbv beta iota.
  do 2 jstep. rewrite decide_False by exact Hname.
  rewrite !jprepend_jprepend.
  eexists. split; [reflexivity|]. only_logsJ.
Qed.

Lemma wellAsked_if (v : bool) (line : string) :
  Forall wellAsked (if v then [Core (LogLine line)] else []).
Proof. apply onlyLogsJ_wellAsked, onlyLogsJ_if. Qed.

Ltac well_asked :=
  unfold jprepend; cbn [fst snd mret J_ret]; rewrite ?app_nil_r;
  repeat first [ apply Forall_nil_2
               | apply wellAsked_if
               | (apply onlyLogsJ_wellAsked; assumption)
               | assumption
               | apply Forall_app_2
               | apply Forall_cons_2 ].

Lemma sortStrings_nil_inv (l : list string) : sortStrings l = [] → l = [].
Proof.
  intros H. apply Permutation_nil_r. rewrite <- H. by rewrite sortStrings_Permutation.
Qed.

Lemma names_nonempty (w : World) (accounts : gmap string string) :
  accounts ≠ ∅ →
  sortStrings (shuffle (rangeSeed w) (elements (dom accounts))) ≠ [].
Proof.
  intros Hne Hnil. apply Hne. apply sortStrings_nil_inv in Hnil.
  assert (elements (dom accounts) = []) as He.
  { apply Permutation_nil_r. rewrite <- Hnil. by rewrite shuffle_Permutation. }
  apply (dom_empty_inv_L (D := gset string)). apply leibniz_equiv.
  by apply elements_empty_inv.
Qed.

Lemma map_nil_inv {A B} (f : A → B) (l : list A) : map f l = [] → l = [].
Proof. by destruct l. Qed.

(** The choice of the account never ends the process. It asks at most
    two questions, each over a list that is not empty, and an account it
    selects on a terminal that answers within the options is in the
    registry. *)
Lemma selectAccount_run (w : World) (term : Terminal) (v : bool)
    (accounts : gmap string string) (flag : string) :
  accounts ≠ ∅ →
  ∃ t r,
    establish.selectAccount w term v accounts flag = (t, Ret r)
    ∧ Forall wellAsked t
    ∧ (answersWithinOptions term →
       ∀ name, r = inr name → is_Some (accounts !! name)).
Proof.
  intros Hne. unfold establish.selectAccount.
  account_block term v flag.
  set (sel := flagOrEnv term flag "SAWS_ACCOUNT").
  set (names := sortStrings (shuffle (rangeSeed w) (elements (dom accounts)))).
  assert (names ≠ []) as Hnames by (by apply names_nonempty).
  assert (∀ name, name ∈ names → is_Some (accounts !! name)) as Hknown
    by (intros name; apply names_elem_of).
  (* the question over all the accounts *)
  assert (∃ t r,
    (eprintln "Please select an account:" ;;
     answer ← askSelect term {| Message := "Choose an AWS Account:";
                                Options := map (establish.displayStr accounts) names;
                                Default := None; PageSize := 15 |};
     match answer with
     | inl err => mret (inl ("interactive account selection failed: " +:+ err))
     | inr chosenDisplayStr =>
         mret (inr (default ""
                      (establish.optionToAccountNameMap accounts names ∅
                         !! chosenDisplayStr)))
     end : J (string + string)) = (t, Ret r)
    ∧ Forall wellAsked t
    ∧ (answersWithinOptions term →
       ∀ name, r = inr name → is_Some (accounts !! name))) as (tall & rall & Hall & Hwall & Hrall).
  { do 2 jstep.
    destruct (AskSelect term _) as [err|answer] eqn:Hans;
      (eexists _, _; split; [reflexivity|]); (split; [well_asked; try done|]).
    - split; [|done]. cbn. by intros ?%map_nil_inv.
    - by intros _ name [=].
    - split; [|done]. cbn. by intros ?%map_nil_inv.
    - intros Hin name [= <-]. apply Hknown. apply chosen_account.
      apply (Hin _ _ Hans). }
  destruct (decide (sel = "")) as [Hs|Hs].
  - jstep. rewrite decide_True by done.
    rewrite Hall. rewrite !jprepend_jprepend.
    eexists _, _. split; [reflexivity|]. split; [well_asked|]. exact Hrall.
  - destruct (matchSelector_selectorMatches w v accounts sel) as (t & Hrun & Ht).
    rewrite (jbind_ret _ _ _ _ Hrun).
    pose proof (selectorMatches_known w accounts sel) as Hm.
    destruct (selectorMatches w accounts sel) as [|n1 [|n2 rest]]; cbv beta iota.
    + jstep. rewrite !jprepend_jprepend.
      eexists _, _. split; [reflexivity|]. split; [well_asked|]. by intros _ name [=].
    + jstep. jstep.
      destruct (decide (n1 = "")) as [Hn|Hn].
      * rewrite Hall. rewrite !jprepend_jprepend.
        eexists _, _. split; [reflexivity|]. split; [well_asked|]. exact Hrall.
      * rewrite !jprepend_jprepend.
        eexists _, _. split; [reflexivity|]. split; [well_asked|].
        intros _ name [= <-]. apply Hm, list_elem_of_here.
    + jstep. jstep.
      set (matched := sortStrings (n1 :: n2 :: rest)).
      assert (matched ≠ []) as Hmatched by (by intros ?%sortStrings_nil_inv).
      assert (∀ name, name ∈ matched → is_Some (accounts !! name)) as Hmk
        by (intros name Hin; apply Hm; by apply sortStrings_elem_of).
      destruct (AskSelect term _) as [err|answer] eqn:Hans.
      * jstep. rewrite !jprepend_jprepend.
        eexists _, _. split; [reflexivity|]. split.
        -- well_asked; try done. split; [|done]. cbn. by intros ?%map_nil_inv.
        -- by intros _ name [=].
      * jstep.
        destruct (decide (default "" (establish.optionToAccountNameMap accounts matched ∅
                                        !! answer) = "")) as [Hn|Hn].
        -- rewrite Hall. rewrite !jprepend_jprepend.
           eexists _, _. split; [reflexivity|]. split; [|exact Hrall].
           well_asked; try done. split; [|done]. cbn. by intros ?%map_nil_inv.
        -- rewrite !jprepend_jprepend.
           eexists _, _. split; [reflexivity|]. split.
           ++ well_asked; try done. split; [|done]. cbn. by intros ?%map_nil_inv.
           ++ intros Hin name [= <-]. apply Hmk. apply chosen_account.
              apply (Hin _ _ Hans).
Qed.

(** ** The role and the region *)

Ltac role_block term v flag :=
  current_block term v flag "SAWS_ROLE"
    (λ c : string, "Using role '" +:+ c +:+ "' from " +:+ config.envRoleVar
                   +:+ " environment variable.")
    (λ c : string, "Using role '" +:+ c +:+ "' from -r flag.").

Ltac region_block term v flag :=
  current_block term v flag "SAWS_REGION"
    (λ c : string, "Using region '" +:+ c +:+ "' from " +:+ config.envRegionVar
                   +:+ " environment variable.")
    (λ c : string, "Using region '" +:+ c +:+ "' from -region flag.").

(** A role that is given is taken without a question: as the name the
    configuration maps it to, if it is a friendly name there, and as it is
    otherwise. *)
Lemma selectRole_auto (w : World) (term : Terminal) (v : bool)
    (roles : gmap string string) (flag : string) :
  let given := flagOrEnv term flag "SAWS_ROLE" in
  given ≠ "" →
  ∃ t,
    establish.selectRole w term v roles flag
    = (t, Ret (inr (default given (roles !! given))))
    ∧ onlyLogsJ t.
Proof.
  intros given Hgiven. unfold establish.selectRole.
  role_block term v flag.
  rewrite decide_False by exact Hgiven. fold given.
  destruct (roles !! given) as [friendlyRole|].
  - jstep. rewrite !jprepend_jprepend. eexists. split; [reflexivity|]. only_logsJ.
  - eexists. split; [reflexivity|]. only_logsJ.
Qed.

Lemma selectRole_run (w : World) (term : Terminal) (v : bool)
    (roles : gmap string string) (flag : string) :
  ∃ t r,
    establish.selectRole w term v roles flag = (t, Ret r) ∧ Forall wellAsked t.
Proof.
  destruct (decide (flagOrEnv term flag "SAWS_ROLE" = "")) as [He|Hne].
  - unfold establish.selectRole. role_block term v flag.
    rewrite decide_True by exact He.
    destruct (decide (size roles = 0%nat)) as [Hz|Hnz].
    + do 2 jstep. destruct (AskInput term _) as [err|answer];
        rewrite !jprepend_jprepend; (eexists _, _; split; [reflexivity|]);
        well_asked; done.
    + do 2 jstep.
      assert (sortStrings (shuffle (rangeSeed w) (elements (dom roles))) ≠ []) as Hopts.
      { apply names_nonempty. intros ->. by rewrite map_size_empty in Hnz. }
      destruct (AskSelect term _) as [err|answer]; [|jstep];
        rewrite !jprepend_jprepend; (eexists _, _; split; [reflexivity|]);
        well_asked; done.
  - destruct (selectRole_auto w term v roles flag Hne) as (t & -> & Ht).
    eexists _, _. split; [reflexivity|]. by apply onlyLogsJ_wellAsked.
Qed.

Lemma detectRegion_run (w : World) :
  establish.detectRegion w
  = ([Core (LoadConfigCall None)],
     Ret match LoadDefaultConfig w None with
         | inr tempCfg => if decide (Region tempCfg = "") then None
                          else Some (Region tempCfg)
         | inl _ => None
         end).
Proof.
  unfold establish.detectRegion. jstep.
  destruct (LoadDefaultConfig w None) as [err|tempCfg]; [reflexivity|].
  by case_decide.
Qed.

(** A region that is given is taken without a question. *)
Lemma selectRegion_auto (w : World) (term : Terminal) (v : bool)
    (commonRegions : list string) (flag : string) :
  let given := flagOrEnv term flag "SAWS_REGION" in
  given ≠ "" →
  ∃ t,
    establish.selectRegion w term v commonRegions flag = (t, Ret (inr given))
    ∧ onlyLogsJ t.
Proof.
  intros given Hgiven. unfold establish.selectRegion.
  region_block term v flag.
  rewrite decide_False by exact Hgiven.
  eexists. split; [reflexivity|]. only_logsJ.
Qed.

Lemma existsb_default (d : string) (l : list string) :
  existsb (λ r, bool_decide (r = d)) l = true → d ∈ l.
Proof.
  rewrite existsb_exists. intros (x & Hin & Hx).
  apply bool_decide_eq_true in Hx as ->. by apply list_elem_of_In.
Qed.

Lemma regionPrompt_run (w : World) (term : Terminal) (first : string)
    (rest : list string) :
  ∃ t r,
    (detected ← establish.detectRegion w;
     let defaultRegionChoice := default pkg.FallbackRegion detected in
     let foundDefaultInList :=
       existsb (λ r, bool_decide (r = defaultRegionChoice)) (first :: rest) in
     let defaultRegionChoice :=
       if foundDefaultInList then defaultRegionChoice else first in
     eprintln "Please select a region:" ;;
     answer ←
       askSelect term {| Message := "Choose AWS Region:";
                         Options := first :: rest;
                         Default := Some defaultRegionChoice;
                         PageSize := 10 |};
     match answer with
     | inl err => mret (inl ("interactive region selection failed: " +:+ err))
     | inr selectedRegion => mret (inr selectedRegion)
     end : J (string + string)) = (t, Ret r)
    ∧ Forall wellAsked t.
Proof.
  rewrite (jbind_ret _ _ _ _ (detectRegion_run w)). cbv zeta.
  do 2 jstep.
  destruct (AskSelect term _) as [err|answer];
    rewrite !jprepend_jprepend; (eexists _, _; split; [reflexivity|]);
    well_asked; try done.
  all: cbn [wellAsked Default Options]; split; [done|];
    match goal with
    | |- context [existsb ?f ?l] => destruct (existsb f l) eqn:Hfound
    end;
    intros d [= <-]; [by apply existsb_default | apply list_elem_of_here].
Qed.

Lemma selectRegion_run (w : World) (term : Terminal) (v : bool)
    (commonRegions : list string) (flag : string) :
  ∃ t r,
    establish.selectRegion w term v commonRegions flag = (t, Ret r)
    ∧ Forall wellAsked t.
Proof.
  destruct (decide (flagOrEnv term flag "SAWS_REGION" = "")) as [He|Hne].
  - unfold establish.selectRegion. region_block term v flag.
    rewrite decide_True by exact He.
    destruct commonRegions as [|first rest].
    + rewrite decide_True by done. jstep.
      rewrite (jbind_ret _ _ _ _ (detectRegion_run w)).
      destruct (LoadDefaultConfig w None) as [err|tempCfg];
        [|destruct (decide (Region tempCfg = ""))]; cbv beta iota; do 2 jstep.
      1, 2: do 2 jstep; destruct (AskInput term _) as [err'|answer];
        rewrite !jprepend_jprepend; (eexists _, _; split; [reflexivity|]);
        well_asked; done.
      destruct (regionPrompt_run w term (Region tempCfg) []) as (t & r & Hrun & Ht).
      cbv zeta in Hrun. rewrite Hrun. rewrite !jprepend_jprepend.
      eexists _, _. split; [reflexivity|]. well_asked; done.
    + rewrite decide_False by done. jstep.
      destruct (regionPrompt_run w term first rest) as (t & r & Hrun & Ht).
      cbv zeta in Hrun. rewrite Hrun. rewrite !jprepend_jprepend.
      eexists _, _. split; [reflexivity|]. well_asked; done.
  - destruct (selectRegion_auto w term v commonRegions flag Hne) as (t & -> & Ht).
    eexists _, _. split; [reflexivity|]. by apply onlyLogsJ_wellAsked.
Qed.

(** ** The context and the credentials *)

(** [EstablishAWSContextAndAssumeRole] in terms of its three choices: it
    returns the first error among them, and goes on to STS when the three
    succeed with a role and a region that are not empty. *)
Lemma Establish_stages (w : World) (term : Terminal) (v : bool) (appConfig : AppConfig)
    (selFlag roleFlag regionFlag tag : string) (ta tr tg : list ievent)
    (ra rr rg : string + string) :
  Accounts appConfig ≠ ∅ →
  establish.selectAccount w term v (Accounts appConfig) selFlag = (ta, Ret ra) →
  establish.selectRole w term v (Roles appConfig) roleFlag = (tr, Ret rr) →
  establish.selectRegion w term v (CommonRegions appConfig) regionFlag = (tg, Ret rg) →
  ∃ t r,
    establish.EstablishAWSContextAndAssumeRole w term v appConfig selFlag roleFlag
      regionFlag tag = (t, Ret r)
    ∧ ((∃ e, ra = inl e ∧ t = ta ∧ r = inl e)
       ∨ (∃ name e, ra = inr name ∧ rr = inl e ∧ t = ta ++ tr ∧ r = inl e)
       ∨ (∃ name, ra = inr name ∧ rr = inr "" ∧ t = ta ++ tr
                  ∧ r = inl "could not determine role to assume")
       ∨ (∃ name role e, ra = inr name ∧ rr = inr role ∧ role ≠ "" ∧ rg = inl e
                         ∧ t = ta ++ tr ++ tg ∧ r = inl e)
       ∨ (∃ name role, ra = inr name ∧ rr = inr role ∧ role ≠ "" ∧ rg = inr ""
                       ∧ t = ta ++ tr ++ tg ∧ r = inl "could not determine region")
       ∨ (∃ name role region logs tf,
            ra = inr name ∧ rr = inr role ∧ role ≠ "" ∧ rg = inr region ∧ region ≠ ""
            ∧ onlyLogsJ logs
            ∧ t = ta ++ tr ++ tg ++ logs
                  ++ Core (LoadConfigCall (Some pkg.FallbackRegion)) :: tf
            ∧ let accountID := establish.accountOf (Accounts appConfig) name in
              match LoadDefaultConfig w (Some pkg.FallbackRegion) with
              | inl err =>
                  tf = []
                  ∧ r = inl ("failed to load base AWS configuration for STS AssumeRole call: "
                             +:+ err)
              | inr baseCfg =>
                  ∃ ts rs,
                    pkg.AssumeRole w v (name, region) baseCfg accountID role tag 0
                    = (ts, Next rs 0)
                    ∧ tf = map Core ts
                    ∧ r = match rs with
                          | inl err =>
                              inl ("failed to assume role '" +:+ role +:+ "' in account "
                                   +:+ name +:+ " (" +:+ accountID +:+ ") for region "
                                   +:+ region +:+ ": " +:+ err)
                          | inr finalCreds =>
                              inr ({| SelectedContext.AccountName := name;
                                      SelectedContext.AccountID := accountID;
                                      SelectedContext.RoleName := role;
                                      SelectedContext.Region := region |}, finalCreds)
                          end
              end)).
Proof.
  intros Hne Ha Hr Hg. unfold establish.EstablishAWSContextAndAssumeRole. cbv zeta.
  rewrite decide_False by (intros Hz; by apply map_size_empty_inv in Hz).
  rewrite (jbind_ret _ _ _ _ Ha).
  destruct ra as [e|name].
  { eexists _, _. split; [reflexivity|]. left. exists e.
    unfold jprepend; cbn [fst snd mret J_ret]. by rewrite app_nil_r. }
  rewrite (jbind_ret _ _ _ _ Hr), jprepend_jprepend.
  destruct rr as [e|role].
  { eexists _, _. split; [reflexivity|]. right; left. exists name, e.
    unfold jprepend; cbn [fst snd mret J_ret]. by rewrite app_nil_r. }
  destruct (decide (role = "")) as [->|Hrole].
  { eexists _, _. split; [reflexivity|]. right; right; left. exists name.
    unfold jprepend; cbn [fst snd mret J_ret]. by rewrite app_nil_r. }
  rewrite (jbind_ret _ _ _ _ Hg), jprepend_jprepend.
  destruct rg as [e|region].
  { eexists _, _. split; [reflexivity|]. right; right; right; left. exists name, role, e.
    unfold jprepend; cbn [fst snd mret J_ret]. by rewrite app_nil_r, <- app_assoc. }
  destruct (decide (region = "")) as [->|Hregion].
  { eexists _, _. split; [reflexivity|]. right; right; right; right; left.
    exists name, role.
    unfold jprepend; cbn [fst snd mret J_ret]. by rewrite app_nil_r, <- app_assoc. }
  do 2 jstep. rewrite !jprepend_jprepend.
  destruct (LoadDefaultConfig w (Some pkg.FallbackRegion)) as [err|baseCfg].
  { eexists _, _. split; [reflexivity|]. do 5 right.
    eexists name, role, region, _, []. repeat (split; [done|]).
    split; [apply onlyLogsJ_if|].
    unfold jprepend; cbn [fst snd mret J_ret].
    rewrite app_nil_r, <- !app_assoc. done. }
  destruct (AssumeRole_run w v (name, region) baseCfg
              (establish.accountOf (Accounts appConfig) name) role tag 0)
    as (ts & rs & Hs & _ & _).
  rewrite (jbind_ret _ _ _ _ (liftM_next _ _ _ _ Hs)), jprepend_jprepend.
  destruct rs as [err|finalCreds];
    (eexists _, _; split; [reflexivity|]); do 5 right;
    eexists name, role, region, _, (map Core ts); repeat (split; [done|]);
    (split; [apply onlyLogsJ_if|]);
    unfold jprepend; cbn [fst snd mret J_ret];
    rewrite app_nil_r, <- !app_assoc; (split; [reflexivity|]);
    eexists ts, _; done.
Qed.

Lemma wellAsked_idle (t : list ievent) :
  Forall wellAsked t →
  attached t = [] ∧ described t = [] ∧ stdoutOf (core t) = [] ∧ execs (core t) = []
  ∧ assumeCalls (core t) = [] ∧ spawned (core t) = []
  ∧ Forall (λ e, ∀ p, e = Ask p →
                 Options p ≠ [] ∧ ∀ d, Default p = Some d → d ∈ Options p) t.
Proof.
  induction 1 as [|e t He _ (I1 & I2 & I3 & I4 & I5 & I6 & I7)];
    [by repeat split|].
  destruct e as [[]| | | |]; try done; cbn in He |- *; split_and!; try done;
    (constructor; [|done]); first [by intros q [=] | by intros q [= <-]].
Qed.

Lemma Core_idle (t : list event) :
  attached (map Core t) = [] ∧ described (map Core t) = []
  ∧ Forall (λ e, ∀ p, e = Ask p →
                 Options p ≠ [] ∧ ∀ d, Default p = Some d → d ∈ Options p)
      (map Core t).
Proof.
  induction t as [|e t (I1 & I2 & I3)]; [by repeat split|].
  cbn. repeat split; try done. constructor; [by intros p [=] | done].
Qed.

Lemma stages_exist (w : World) (term : Terminal) (v : bool) (appConfig : AppConfig)
    (selFlag roleFlag regionFlag : string) :
  Accounts appConfig ≠ ∅ →
  ∃ ta ra tr rr tg rg,
    establish.selectAccount w term v (Accounts appConfig) selFlag = (ta, Ret ra)
    ∧ establish.selectRole w term v (Roles appConfig) roleFlag = (tr, Ret rr)
    ∧ establish.selectRegion w term v (CommonRegions appConfig) regionFlag = (tg, Ret rg)
    ∧ Forall wellAsked ta ∧ Forall wellAsked tr ∧ Forall wellAsked tg
    ∧ (answersWithinOptions term →
       ∀ name, ra = inr name → is_Some (Accounts appConfig !! name)).
Proof.
  intros Hne.
  destruct (selectAccount_run w term v (Accounts appConfig) selFlag Hne)
    as (ta & ra & Ha & Hwa & Hka).
  destruct (selectRole_run w term v (Roles appConfig) roleFlag) as (tr & rr & Hr & Hwr).
  destruct (selectRegion_run w term v (CommonRegions appConfig) regionFlag)
    as (tg & rg & Hg & Hwg).
  by exists ta, ra, tr, rr, tg, rg.
Qed.

(** X9: Establishing the context of a session never ends the process. It
    writes nothing on standard output, runs no command, and calls STS at
    most once, as its last step. Every list it asks the user to choose
    from is not empty, and the choice it offers as the default, if any, is
    in the list. *)
Theorem establish_behaves (w : World) (term : Terminal) (v : bool)
    (appConfig : AppConfig) (selFlag roleFlag regionFlag tag : string) :
  ∃ t r,
    establish.EstablishAWSContextAndAssumeRole w term v appConfig selFlag roleFlag
      regionFlag tag = (t, Ret r)
    ∧ stdoutOf (core t) = [] ∧ execs (core t) = [] ∧ attached t = []
    ∧ (length (assumeCalls (core t)) ≤ 1)%nat
    ∧ Forall (λ e, ∀ p, e = Ask p →
                   Options p ≠ [] ∧ ∀ d, Default p = Some d → d ∈ Options p) t.
Proof.
  destruct (decide (Accounts appConfig = ∅)) as [He|Hne].
  { unfold establish.EstablishAWSContextAndAssumeRole. cbv zeta.
    rewrite decide_True by (by rewrite He, map_size_empty).
    eexists _, _. split; [reflexivity|]. repeat split; try done. cbn. lia. }
  destruct (stages_exist w term v appConfig selFlag roleFlag regionFlag Hne)
    as (ta & ra & tr & rr & tg & rg & Ha & Hr & Hg & Hwa & Hwr & Hwg & _).
  destruct (Establish_stages w term v appConfig selFlag roleFlag regionFlag tag
              ta tr tg ra rr rg Hne Ha Hr Hg) as (t & r & Hrun & Hcases).
  exists t, r. split; [exact Hrun|].
  assert (Forall wellAsked (ta ++ tr)) as Hw2 by (by apply Forall_app_2).
  assert (Forall wellAsked (ta ++ tr ++ tg)) as Hw3
    by (apply Forall_app_2; [done | by apply Forall_app_2]).
  assert (∀ pre, Forall wellAsked pre →
    stdoutOf (core pre) = [] ∧ execs (core pre) = [] ∧ attached pre = []
    ∧ (length (assumeCalls (core pre)) ≤ 1)%nat
    ∧ Forall (λ e, ∀ p, e = Ask p →
                   Options p ≠ [] ∧ ∀ d, Default p = Some d → d ∈ Options p) pre)
    as Hquiet.
  { intros pre Hpre.
    destruct (wellAsked_idle pre Hpre) as (I1 & I2 & I3 & I4 & I5 & I6 & I7).
    repeat split; try done. rewrite I5. cbn. lia. }
  destruct Hcases as [(e & _ & -> & _)|[(name & e & _ & _ & -> & _)
    |[(name & _ & _ & -> & _)|[(name & role & e & _ & _ & _ & _ & -> & _)
    |[(name & role & _ & _ & _ & _ & -> & _)
    |(name & role & region & logs & tf & _ & _ & _ & _ & _ & Hlogs & -> & Hfinal)]]]]];
    try (by apply Hquiet).
  cbv zeta in Hfinal.
  assert (Forall wellAsked
            (ta ++ tr ++ tg ++ logs ++ [Core (LoadConfigCall (Some pkg.FallbackRegion))]))
    as Hpre.
  { repeat apply Forall_app_2; try done; [by apply onlyLogsJ_wellAsked|].
    by repeat constructor. }
  destruct (wellAsked_idle _ Hpre) as (I1 & I2 & I3 & I4 & I5 & I6 & I7).
  replace (ta ++ tr ++ tg ++ logs ++ Core (LoadConfigCall (Some pkg.FallbackRegion)) :: tf)
    with ((ta ++ tr ++ tg ++ logs ++ [Core (LoadConfigCall (Some pkg.FallbackRegion))])
          ++ tf) by (by rewrite <- !app_assoc).
  set (pre := ta ++ tr ++ tg ++ logs ++ [Core (LoadConfigCall (Some pkg.FallbackRegion))])
    in *. clearbody pre.
  destruct (LoadDefaultConfig w (Some pkg.FallbackRegion)) as [err|baseCfg].
  { destruct Hfinal as [-> _]. rewrite app_nil_r. by apply Hquiet. }
  destruct Hfinal as (ts & rs & Hs & -> & _).
  pose proof (AssumeRole_calls w v (name, region) baseCfg
                (establish.accountOf (Accounts appConfig) name) role tag 0) as Hcalls.
  destruct (AssumeRole_run w v (name, region) baseCfg
              (establish.accountOf (Accounts appConfig) name) role tag 0)
    as (ts' & rs' & Hs' & Hsil & _).
  rewrite Hs in Hs'. injection Hs' as <- <-.
  rewrite Hs in Hcalls. unfold trace in Hcalls. cbn [fst] in Hcalls.
  destruct Hsil as (S1 & _ & S3 & _).
  destruct (Core_idle ts) as (C1 & C2 & C3).
  rewrite core_app, core_Core, stdoutOf_app, execs_app, assumeCalls_app, attached_app,
    I1, I3, I4, I5, S1, S3, C1, Hcalls.
  repeat split; try done; try (cbn; lia). by apply Forall_app_2.
Qed.

(** X10: When the context of a session is established, its role and its
    region are not empty, its account number is the one the registry holds
    for its account name, and the credentials are those STS granted for this
    role in this account, all three parts present. STS was called once, for
    this role and with the session type as the tag of the session name. On
    a terminal that answers within the options the account is in the
    registry. *)
Theorem establish_success (w : World) (term : Terminal) (v : bool)
    (appConfig : AppConfig) (selFlag roleFlag regionFlag tag : string)
    (t : list ievent) (sCtx : SelectedContext.t) (creds : Credentials) :
  establish.EstablishAWSContextAndAssumeRole w term v appConfig selFlag roleFlag
    regionFlag tag = (t, Ret (inr (sCtx, creds))) →
  let name := SelectedContext.AccountName sCtx in
  let accountID := SelectedContext.AccountID sCtx in
  let role := SelectedContext.RoleName sCtx in
  let region := SelectedContext.Region sCtx in
  role ≠ "" ∧ region ≠ ""
  ∧ accountID = default "" (Accounts appConfig !! name)
  ∧ (∃ k sk tk,
       creds = {| AccessKeyId := Some k; SecretAccessKey := Some sk;
                  SessionToken := Some tk |}
       ∧ grantedTo w (name, region) accountID role tag = Some (k, sk, tk))
  ∧ assumeCalls (core t) = [((name, region), stsInput w accountID role tag)]
  ∧ (answersWithinOptions term → is_Some (Accounts appConfig !! name)).
Proof.
  intros Hrun.
  destruct (decide (Accounts appConfig = ∅)) as [He|Hne].
  { revert Hrun. unfold establish.EstablishAWSContextAndAssumeRole. cbv zeta.
    rewrite decide_True by (by rewrite He, map_size_empty). by intros [=]. }
  destruct (stages_exist w term v appConfig selFlag roleFlag regionFlag Hne)
    as (ta & ra & tr & rr & tg & rg & Ha & Hr & Hg & Hwa & Hwr & Hwg & Hknown).
  destruct (Establish_stages w term v appConfig selFlag roleFlag regionFlag tag
              ta tr tg ra rr rg Hne Ha Hr Hg) as (t' & r' & Hrun' & Hcases).
  rewrite Hrun in Hrun'. injection Hrun' as <- <-.
  destruct Hcases as [(e & _ & _ & [=])|[(name & e & _ & _ & _ & [=])
    |[(name & _ & _ & _ & [=])|[(name & role & e & _ & _ & _ & _ & _ & [=])
    |[(name & role & _ & _ & _ & _ & _ & [=])
    |(name & role & region & logs & tf & -> & _ & Hrole & _ & Hregion & Hlogs & -> & Hfinal)]]]]].
  cbv zeta in Hfinal.
  destruct (LoadDefaultConfig w (Some pkg.FallbackRegion)) as [err|baseCfg];
    [by destruct Hfinal as [_ [=]]|].
  destruct Hfinal as (ts & rs & Hs & -> & Hres).
  pose proof (AssumeRole_calls w v (name, region) baseCfg
                (establish.accountOf (Accounts appConfig) name) role tag 0) as Hcalls.
  destruct (AssumeRole_run w v (name, region) baseCfg
              (establish.accountOf (Accounts appConfig) name) role tag 0)
    as (ts' & rs' & Hs' & _ & Hgr).
  rewrite Hs in Hs'. injection Hs' as <- <-.
  rewrite Hs in Hcalls. unfold trace in Hcalls. cbn [fst] in Hcalls.
  destruct rs as [err|finalCreds]; [done|]. injection Hres as -> ->.
  cbn [SelectedContext.AccountName SelectedContext.AccountID SelectedContext.RoleName
       SelectedContext.Region].
  split; [exact Hrole|]. split; [exact Hregion|]. split; [reflexivity|].
  split.
  - unfold establish.accountOf in *.
    destruct (grantedTo w (name, region) _ role tag) as [[[k sk] tk]|];
      [|by destruct Hgr as [err [=]]].
    injection Hgr as ->. by exists k, sk, tk.
  - split; [|intros Hin; by apply (Hknown Hin)].
    assert (Forall wellAsked
              (ta ++ tr ++ tg ++ logs
               ++ [Core (LoadConfigCall (Some pkg.FallbackRegion))])) as Hpre.
    { repeat apply Forall_app_2; try done; [by apply onlyLogsJ_wellAsked|].
      by repeat constructor. }
    destruct (wellAsked_idle _ Hpre) as (_ & _ & _ & _ & I5 & _).
    replace (ta ++ tr ++ tg ++ logs
             ++ Core (LoadConfigCall (Some pkg.FallbackRegion)) :: map Core ts)
      with ((ta ++ tr ++ tg ++ logs
             ++ [Core (LoadConfigCall (Some pkg.FallbackRegion))]) ++ map Core ts)
      by (by rewrite <- !app_assoc).
    rewrite core_app, assumeCalls_app, I5, core_Core, Hcalls. reflexivity.
Qed.

(** X11: A selector that stands for no account -- it is no account name
    and matches none as a pattern -- makes the establishing of the context
    fail at once: nothing is asked, the role and the region are not looked
    at, STS is not called. The selector is the value of [-s] or, without
    it, of SAWS_ACCOUNT. *)
Theorem establish_no_match (w : World) (term : Terminal) (v : bool)
    (appConfig : AppConfig) (selFlag roleFlag regionFlag tag : string) :
  let sel := flagOrEnv term selFlag "SAWS_ACCOUNT" in
  Accounts appConfig ≠ ∅ →
  sel ≠ "" →
  selectorMatches w (Accounts appConfig) sel = [] →
  ∃ t,
    establish.EstablishAWSContextAndAssumeRole w term v appConfig selFlag roleFlag
      regionFlag tag
    = (t, Ret (inl ("selector '" +:+ sel
                    +:+ "' (from flag or SAWS_ACCOUNT) did not match any accounts in SAWS config")))
    ∧ onlyLogsJ t.
Proof.
  intros sel Hne Hsel Hnone.
  destruct (selectAccount_nomatch w term v (Accounts appConfig) selFlag Hsel Hnone)
    as (ta & Ha & Hla).
  destruct (selectRole_run w term v (Roles appConfig) roleFlag) as (tr & rr & Hr & _).
  destruct (selectRegion_run w term v (CommonRegions appConfig) regionFlag)
    as (tg & rg & Hg & _).
  destruct (Establish_stages w term v appConfig selFlag roleFlag regionFlag tag
              ta tr tg _ rr rg Hne Ha Hr Hg) as (t & r & Hrun & Hcases).
  destruct Hcases as [(e & [= <-] & -> & ->)|[(name & e & [=] & _)
    |[(name & [=] & _)|[(name & role & e & [=] & _)
    |[(name & role & [=] & _)
    |(name & role & region & logs & tf & [=] & _)]]]]].
  by exists ta.
Qed.

(** X12: With an account, a role and a region that are given -- each by
    its flag or, without the flag, by its environment variable -- no
    question is asked and, without [-v], nothing is written on standard
    error. The account is the one the selector stands for, the role is the
    name the configuration maps the given one to, or the given one when it
    is no friendly name, and the region is the given one. The context is
    established exactly when the base configuration loads and STS grants
    the role. *)
Theorem establish_without_questions (w : World) (term : Terminal) (v : bool)
    (appConfig : AppConfig) (selFlag roleFlag regionFlag tag name : string) :
  let sel := flagOrEnv term selFlag "SAWS_ACCOUNT" in
  let given := flagOrEnv term roleFlag "SAWS_ROLE" in
  let role := default given (Roles appConfig !! given) in
  let region := flagOrEnv term regionFlag "SAWS_REGION" in
  let accountID := default "" (Accounts appConfig !! name) in
  sel ≠ "" →
  selectorMatches w (Accounts appConfig) sel = [name] →
  name ≠ "" → given ≠ "" → role ≠ "" → region ≠ "" →
  ∃ t r,
    establish.EstablishAWSContextAndAssumeRole w term v appConfig selFlag roleFlag
      regionFlag tag = (t, Ret r)
    ∧ prompts t = []
    ∧ stderrOf false (core t) = []
    ∧ (∀ sCtx creds,
         r = inr (sCtx, creds) →
         sCtx = {| SelectedContext.AccountName := name;
                   SelectedContext.AccountID := accountID;
                   SelectedContext.RoleName := role;
                   SelectedContext.Region := region |})
    ∧ ((∃ sCtx creds, r = inr (sCtx, creds))
       ↔ (∃ baseCfg, LoadDefaultConfig w (Some pkg.FallbackRegion) = inr baseCfg)
         ∧ is_Some (grantedTo w (name, region) accountID role tag)).
Proof.
  intros sel given role region accountID Hsel Hone Hname Hgiven Hrole Hregion.
  assert (Accounts appConfig ≠ ∅) as Hne.
  { intros He.
    assert (is_Some (Accounts appConfig !! name)) as [x Hx].
    { apply (selectorMatches_known w _ sel). rewrite Hone. apply list_elem_of_here. }
    by rewrite He, lookup_empty in Hx. }
  destruct (selectAccount_auto w term v (Accounts appConfig) selFlag name Hsel Hone Hname)
    as (ta & Ha & Hla).
  destruct (selectRole_auto w term v (Roles appConfig) roleFlag Hgiven) as (tr & Hr & Hlr).
  destruct (selectRegion_auto w term v (CommonRegions appConfig) regionFlag Hregion)
    as (tg & Hg & Hlg).
  destruct (Establish_stages w term v appConfig selFlag roleFlag regionFlag tag
              ta tr tg _ _ _ Hne Ha Hr Hg) as (t & r & Hrun & Hcases).
  exists t, r. split; [exact Hrun|].
  destruct Hcases as [(e & [=] & _)|[(name' & e & _ & [=] & _)
    |[(name' & _ & [= E] & _)|[(name' & role' & e & _ & _ & _ & [=] & _)
    |[(name' & role' & _ & _ & _ & [= E] & _)
    |(name' & role' & region' & logs & tf & [= <-] & [= <-] & _ & [= <-] & _
      & Hlogs & -> & Hfinal)]]]]];
    [by fold given role in E | by fold region in E |].
  cbv zeta in Hfinal. fold given role region in Hfinal |- *.
  unfold establish.accountOf in Hfinal. fold accountID in Hfinal.
  assert (onlyLogsJ (ta ++ tr ++ tg ++ logs)) as Hl by (repeat apply onlyLogsJ_app; done).
  destruct (onlyLogsJ_idle _ Hl) as (P1 & _).
  pose proof (onlyLogs_idle _ (onlyLogsJ_core _ Hl)) as (_ & _ & _ & _ & _ & _ & E1).
  replace (ta ++ tr ++ tg ++ logs
           ++ Core (LoadConfigCall (Some pkg.FallbackRegion)) :: tf)
    with ((ta ++ tr ++ tg ++ logs)
          ++ Core (LoadConfigCall (Some pkg.FallbackRegion)) :: tf)
    by (by rewrite <- !app_assoc).
  rewrite prompts_app, core_app, stderrOf_app, P1, E1. cbn [prompts core stderrOf app].
  destruct (LoadDefaultConfig w (Some pkg.FallbackRegion)) as [err|baseCfg].
  { destruct Hfinal as [-> ->]. split; [done|]. split; [done|]. split; [done|].
    split; [by intros (? & ? & [=]) | by intros [(? & [=]) _]]. }
  destruct Hfinal as (ts & rs & Hs & -> & Hres).
  destruct (AssumeRole_run w v (name, region) baseCfg accountID role tag 0)
    as (ts' & rs' & Hs' & Hsil & Hgr).
  rewrite Hs in Hs'. injection Hs' as <- <-.
  destruct Hsil as (_ & S2 & _).
  rewrite prompts_Core, core_Core, S2.
  split; [done|]. split; [done|].
  destruct (grantedTo w (name, region) accountID role tag) as [[[k sk] tk]|].
  - subst rs. subst r. split.
    + by intros sCtx creds [= <- _].
    + split; [|by eauto]. intros _. split; [by eexists | by eexists].
  - destruct Hgr as [err ->]. subst r. split; [done|]. split.
    + by intros (? & ? & [=]).
    + by intros [_ [? [=]]].
Qed.

Lemma establish_success_witness :
  let run := establish.EstablishAWSContextAndAssumeRole demoWorld demoTerminal false
               demoConfig "dev-a" "ReadOnly" "eu-west-1" "InteractiveSubShell" in
  run.2 = Ret (inr ({| SelectedContext.AccountName := "dev-a";
                       SelectedContext.AccountID := "111111111111";
                       SelectedContext.RoleName := "ReadOnly";
                       SelectedContext.Region := "eu-west-1" |},
                    {| AccessKeyId := Some "ASIA-dev-a-eu-west-1";
                       SecretAccessKey := Some "secret";
                       SessionToken := Some "token" |}))
  ∧ assumeCalls (core run.1)
    = [(("dev-a", "eu-west-1"),
        stsInput demoWorld "111111111111" "ReadOnly" "InteractiveSubShell")].
Proof.
  intros run.
  assert (run = (run.1, Ret (inr ({| SelectedContext.AccountName := "dev-a";
                                     SelectedContext.AccountID := "111111111111";
                                     SelectedContext.RoleName := "ReadOnly";
                                     SelectedContext.Region := "eu-west-1" |},
                                  {| AccessKeyId := Some "ASIA-dev-a-eu-west-1";
                                     SecretAccessKey := Some "secret";
                                     SessionToken := Some "token" |})))) as Hrun
    by (by vm_compute).
  split; [by rewrite Hrun|].
  by destruct (establish_success demoWorld demoTerminal false demoConfig "dev-a"
                 "ReadOnly" "eu-west-1" "InteractiveSubShell" _ _ _ Hrun)
    as (_ & _ & _ & _ & Hcalls & _).
Defined.

Lemma establish_no_match_witness :
  ∃ t,
    establish.EstablishAWSContextAndAssumeRole demoWorld demoTerminal true demoConfig
      "stage-*" "" "" "InteractiveSubShell"
    = (t, Ret (inl "selector 'stage-*' (from flag or SAWS_ACCOUNT) did not match any accounts in SAWS config"))
    ∧ prompts t = [].
Proof.
  assert (Accounts demoConfig ≠ ∅) as Hreg.
  { intros H. apply (f_equal (λ m : gmap string string, m !! "dev-a")) in H.
    by vm_compute in H. }
  destruct (establish_no_match demoWorld demoTerminal true demoConfig "stage-*" "" ""
              "InteractiveSubShell" Hreg) as (t & Hrun & Hlogs);
    [by vm_compute | by vm_compute |].
  exists t. split; [exact Hrun|]. by apply onlyLogsJ_idle in Hlogs as (? & _).
Defined.

Lemma establish_without_questions_witness :
  ∃ t r,
    establish.EstablishAWSContextAndAssumeRole demoWorld demoTerminal false demoConfig
      "dev-b" "ReadOnly" "us-east-1" "SSMSessionSetup" = (t, Ret r)
    ∧ prompts t = [] ∧ stderrOf false (core t) = [].
Proof.
  assert (flagOrEnv demoTerminal "dev-b" "SAWS_ACCOUNT" ≠ "") as H1 by (by vm_compute).
  assert (selectorMatches demoWorld (Accounts demoConfig)
            (flagOrEnv demoTerminal "dev-b" "SAWS_ACCOUNT") = ["dev-b"]) as H2
    by (by vm_compute).
  assert ("dev-b" ≠ "") as H3 by done.
  assert (flagOrEnv demoTerminal "ReadOnly" "SAWS_ROLE" ≠ "") as H4 by (by vm_compute).
  assert (default (flagOrEnv demoTerminal "ReadOnly" "SAWS_ROLE")
            (Roles demoConfig !! flagOrEnv demoTerminal "ReadOnly" "SAWS_ROLE") ≠ "") as H5
    by (by vm_compute).
  assert (flagOrEnv demoTerminal "us-east-1" "SAWS_REGION" ≠ "") as H6 by (by vm_compute).
  destruct (establish_without_questions demoWorld demoTerminal false demoConfig
              "dev-b" "ReadOnly" "us-east-1" "SSMSessionSetup" "dev-b" H1 H2 H3 H4 H5 H6)
    as (t & r & Hrun & Hp & He & _).
  exists t, r. split; [exact Hrun|]. split; [exact Hp | exact He].
Defined.

(** * The interactive sub-shell *)

Lemma entriesFor_keptEnv_none (name : string) (env : list string) :
  (∀ e, subshell.keepVar e = true → strings.HasPrefix e (name +:+ "=") = false) →
  entriesFor name (subshell.keptEnv env) = [].
Proof.
  intros H. induction env as [|e env IH]; simpl; auto.
  destruct (subshell.keepVar e) eqn:Hk; auto.
  unfold entriesFor in *. simpl. by rewrite (H e Hk).
Qed.

Lemma entriesFor_keptEnv_kept (name : string) (env : list string) :
  (∀ e, strings.HasPrefix e (name +:+ "=") = true → subshell.keepVar e = true) →
  entriesFor name (subshell.keptEnv env) = entriesFor name env.
Proof.
  intros H. induction env as [|e env IH]; [done|].
  cbn [subshell.keptEnv]. unfold entriesFor in *. cbn [List.filter].
  destruct (strings.HasPrefix e (name +:+ "=")) eqn:Hp.
  - rewrite (H e Hp). cbn [List.filter]. by rewrite Hp, IH.
  - destruct (subshell.keepVar e); [cbn [List.filter]; rewrite Hp|]; exact IH.
Qed.

Lemma prefix_weaken (a b e : string) :
  String.prefix (a +:+ b) e = true → String.prefix a e = true.
Proof.
  revert e. induction a as [|c a IH]; intros e H; [apply prefix_empty|].
  change (String c a +:+ b) with (String c (a +:+ b)) in H.
  destruct e as [|d e]; [done|]. cbn [String.prefix] in *.
  destruct (Ascii.ascii_dec c d); [by apply IH | done].
Qed.

Lemma prefix_first (a b : ascii) (p q e : string) :
  String.prefix (String a p) e = true → String.prefix (String b q) e = true → a = b.
Proof.
  destruct e as [|d e]; [done|]. cbn [String.prefix].
  destruct (Ascii.ascii_dec a d) as [->|]; [|done].
  destruct (Ascii.ascii_dec b d) as [->|]; done.
Qed.

Ltac subshell_excludes :=
  let e := fresh "e" in
  let H := fresh "H" in
  intros e H; unfold subshell.keepVar in H;
  repeat (apply andb_true_iff in H as [H ?]);
  repeat match goal with
         | G : negb _ = true |- _ => apply negb_true_iff in G
         end;
  first
    [ assumption
    | match goal with
      | G : strings.HasPrefix e "SAWS_INFO_" = false |- strings.HasPrefix e ?n = false =>
          destruct (strings.HasPrefix e n) eqn:Hn; [|reflexivity];
          rewrite <- G; symmetry;
          first [ apply (prefix_weaken "SAWS_INFO_" "ACCOUNT_NAME=" e Hn)
                | apply (prefix_weaken "SAWS_INFO_" "ACCOUNT_ID=" e Hn)
                | apply (prefix_weaken "SAWS_INFO_" "ROLE_NAME=" e Hn)
                | apply (prefix_weaken "SAWS_INFO_" "REGION=" e Hn) ]
      end ].

Lemma subshell_keeps (name : string) (e : string) :
  strings.ContainsByte name "=" = false →
  name ∉ ["AWS_ACCESS_KEY_ID"; "AWS_SECRET_ACCESS_KEY"; "AWS_SESSION_TOKEN";
          "AWS_SECURITY_TOKEN"; "AWS_REGION"; "AWS_DEFAULT_REGION"; "AWS_PROFILE"] →
  strings.HasPrefix name "SAWS_INFO_" = false →
  strings.HasPrefix e (name +:+ "=") = true →
  subshell.keepVar e = true.
Proof.
  intros Hn Hnot Hs Hp. repeat (apply not_elem_of_cons in Hnot as [? Hnot]).
  unfold subshell.keepVar.
  rewrite (other_prefix name "AWS_ACCESS_KEY_ID" "AWS_ACCESS_KEY_ID=" e),
    (other_prefix name "AWS_SECRET_ACCESS_KEY" "AWS_SECRET_ACCESS_KEY=" e),
    (other_prefix name "AWS_SESSION_TOKEN" "AWS_SESSION_TOKEN=" e),
    (other_prefix name "AWS_SECURITY_TOKEN" "AWS_SECURITY_TOKEN=" e),
    (other_prefix name "AWS_REGION" "AWS_REGION=" e),
    (other_prefix name "AWS_DEFAULT_REGION" "AWS_DEFAULT_REGION=" e),
    (other_prefix name "AWS_PROFILE" "AWS_PROFILE=" e); try done.
  cbn [negb andb].
  destruct (strings.HasPrefix e "SAWS_INFO_") eqn:Hi; [|reflexivity].
  exfalso. clear -Hn Hs Hp Hi. unfold strings.HasPrefix in *.
  revert Hs. 
  assert (∀ q n x, String.prefix q x = true → String.prefix (n +:+ "=") x = true →
                   strings.ContainsByte q "=" = false →
                   String.prefix q n = true) as Hgen.
  { clear. induction q as [|c q IH]; intros n x Hq Hnx Hc; [apply prefix_empty|].
    destruct x as [|d x]; [done|]. cbn [String.prefix] in Hq.
    destruct (Ascii.ascii_dec c d) as [->|]; [|done].
    cbn [strings.ContainsByte] in Hc. apply orb_false_iff in Hc as [Hd Hc].
    destruct n as [|m n].
    - change ("" +:+ "=") with "=" in Hnx. cbn [String.prefix] in Hnx.
      destruct (Ascii.ascii_dec "=" d) as [<-|]; [|done]. by cbn in Hd.
    - change (String m n +:+ "=") with (String m (n +:+ "=")) in Hnx.
      cbn [String.prefix] in Hnx.
      destruct (Ascii.ascii_dec m d) as [->|]; [|done].
      cbn [String.prefix].
      destruct (Ascii.ascii_dec d d); [|done]. by apply (IH n x). }
  intros Hs. by rewrite (Hgen "SAWS_INFO_" name e Hi Hp eq_refl) in Hs.
Qed.

Lemma prefix_of_name (q n x : string) :
  String.prefix q x = true →
  String.prefix (n +:+ "=") x = true →
  strings.ContainsByte q "=" = false →
  String.prefix q n = true.
Proof.
  revert n x. induction q as [|c q IH]; intros n x Hq Hnx Hc; [apply prefix_empty|].
  destruct x as [|d x]; [done|]. cbn [String.prefix] in Hq.
  destruct (Ascii.ascii_dec c d) as [->|]; [|done].
  cbn [strings.ContainsByte] in Hc. apply orb_false_iff in Hc as [Hd Hc].
  destruct n as [|m n].
  - change ("" +:+ "=") with "=" in Hnx. cbn [String.prefix] in Hnx.
    destruct (Ascii.ascii_dec "=" d) as [<-|]; [|done]. by cbn in Hd.
  - change (String m n +:+ "=") with (String m (n +:+ "=")) in Hnx.
    cbn [String.prefix] in Hnx.
    destruct (Ascii.ascii_dec m d) as [->|]; [|done].
    cbn [String.prefix].
    destruct (Ascii.ascii_dec d d); [|done]. by apply (IH n x).
Qed.

Lemma info_other (name rest p v : string) :
  strings.ContainsByte name "=" = false →
  strings.HasPrefix name "SAWS_INFO_" = false →
  p = "SAWS_INFO_" +:+ rest →
  strings.HasPrefix (p +:+ v) (name +:+ "=") = false.
Proof.
  intros Hn Hs ->.
  destruct (strings.HasPrefix (("SAWS_INFO_" +:+ rest) +:+ v) (name +:+ "=")) eqn:Hp;
    [|reflexivity].
  rewrite <- Hs. symmetry. unfold strings.HasPrefix in *.
  apply (prefix_of_name "SAWS_INFO_" name _ (prefix_weaken _ _ _ (prefix_own _ v)) Hp).
  reflexivity.
Qed.

(** X13: The environment of the interactive sub-shell has exactly one
    entry for each of AWS_ACCESS_KEY_ID, AWS_SECRET_ACCESS_KEY,
    AWS_SESSION_TOKEN, AWS_REGION and AWS_DEFAULT_REGION -- the credentials
    and the region of the session -- and for each of the four SAWS_INFO
    variables that name the context; it has none for AWS_SECURITY_TOKEN and
    AWS_PROFILE. Every other variable of the parent is inherited
    unchanged, unless its name begins with SAWS_INFO_: unlike a subprocess
    of the command mode, the sub-shell inherits AWS_CONFIG_FILE and
    AWS_SHARED_CREDENTIALS_FILE. *)
Theorem subshell_env (env : list string) (k sk tk : string) (sCtx : SelectedContext.t) :
  let e := subshell.newEnv env k sk tk sCtx in
  entriesFor "AWS_ACCESS_KEY_ID" e = ["AWS_ACCESS_KEY_ID=" +:+ k]
  ∧ entriesFor "AWS_SECRET_ACCESS_KEY" e = ["AWS_SECRET_ACCESS_KEY=" +:+ sk]
  ∧ entriesFor "AWS_SESSION_TOKEN" e = ["AWS_SESSION_TOKEN=" +:+ tk]
  ∧ entriesFor "AWS_REGION" e = ["AWS_REGION=" +:+ SelectedContext.Region sCtx]
  ∧ entriesFor "AWS_DEFAULT_REGION" e
    = ["AWS_DEFAULT_REGION=" +:+ SelectedContext.Region sCtx]
  ∧ entriesFor "SAWS_INFO_ACCOUNT_NAME" e
    = ["SAWS_INFO_ACCOUNT_NAME=" +:+ SelectedContext.AccountName sCtx]
  ∧ entriesFor "SAWS_INFO_ACCOUNT_ID" e
    = ["SAWS_INFO_ACCOUNT_ID=" +:+ SelectedContext.AccountID sCtx]
  ∧ entriesFor "SAWS_INFO_ROLE_NAME" e
    = ["SAWS_INFO_ROLE_NAME=" +:+ SelectedContext.RoleName sCtx]
  ∧ entriesFor "SAWS_INFO_REGION" e
    = ["SAWS_INFO_REGION=" +:+ SelectedContext.Region sCtx]
  ∧ entriesFor "AWS_SECURITY_TOKEN" e = []
  ∧ entriesFor "AWS_PROFILE" e = []
  ∧ entriesFor "AWS_CONFIG_FILE" e = entriesFor "AWS_CONFIG_FILE" env
  ∧ entriesFor "AWS_SHARED_CREDENTIALS_FILE" e
    = entriesFor "AWS_SHARED_CREDENTIALS_FILE" env
  ∧ ∀ name,
      strings.ContainsByte name "=" = false →
      name ∉ ["AWS_ACCESS_KEY_ID"; "AWS_SECRET_ACCESS_KEY"; "AWS_SESSION_TOKEN";
              "AWS_SECURITY_TOKEN"; "AWS_REGION"; "AWS_DEFAULT_REGION"; "AWS_PROFILE"] →
      strings.HasPrefix name "SAWS_INFO_" = false →
      entriesFor name e = entriesFor name env.
Proof.
  assert (∀ name,
      strings.ContainsByte name "=" = false →
      name ∉ ["AWS_ACCESS_KEY_ID"; "AWS_SECRET_ACCESS_KEY"; "AWS_SESSION_TOKEN";
              "AWS_SECURITY_TOKEN"; "AWS_REGION"; "AWS_DEFAULT_REGION"; "AWS_PROFILE"] →
      strings.HasPrefix name "SAWS_INFO_" = false →
      entriesFor name (subshell.newEnv env k sk tk sCtx) = entriesFor name env) as Hother.
  { intros name Hn Hnot Hs. unfold subshell.newEnv. rewrite !entriesFor_app.
    rewrite entriesFor_keptEnv_kept by (intros e; by apply subshell_keeps).
    repeat (apply not_elem_of_cons in Hnot as [? Hnot]).
    unfold entriesFor at 2 3 4 5 6 7 8 9 10. cbn [List.filter].
    rewrite (appended_other name "AWS_ACCESS_KEY_ID" "AWS_ACCESS_KEY_ID=" k),
      (appended_other name "AWS_SECRET_ACCESS_KEY" "AWS_SECRET_ACCESS_KEY=" sk),
      (appended_other name "AWS_SESSION_TOKEN" "AWS_SESSION_TOKEN=" tk),
      (appended_other name "AWS_REGION" "AWS_REGION=" (SelectedContext.Region sCtx)),
      (appended_other name "AWS_DEFAULT_REGION" "AWS_DEFAULT_REGION="
         (SelectedContext.Region sCtx)); try done.
    rewrite (info_other name "ACCOUNT_NAME=" "SAWS_INFO_ACCOUNT_NAME="
               (SelectedContext.AccountName sCtx) Hn Hs eq_refl),
      (info_other name "ACCOUNT_ID=" "SAWS_INFO_ACCOUNT_ID="
         (SelectedContext.AccountID sCtx) Hn Hs eq_refl),
      (info_other name "ROLE_NAME=" "SAWS_INFO_ROLE_NAME="
         (SelectedContext.RoleName sCtx) Hn Hs eq_refl),
      (info_other name "REGION=" "SAWS_INFO_REGION="
         (SelectedContext.Region sCtx) Hn Hs eq_refl).
    by rewrite !app_nil_r. }
  cbv zeta. split_and!; try exact Hother.
  1-11: unfold subshell.newEnv; rewrite !entriesFor_app;
    (rewrite entriesFor_keptEnv_none; [| subshell_excludes]);
    unfold entriesFor, strings.HasPrefix; simpl; rewrite ?prefix_empty; reflexivity.
  - apply Hother; [reflexivity | | reflexivity].
    vm_compute. intros H. repeat (apply elem_of_cons in H as [H|H]; [discriminate H|]).
    by apply elem_of_nil in H.
  - apply Hother; [reflexivity | | reflexivity].
    vm_compute. intros H. repeat (apply elem_of_cons in H as [H|H]; [discriminate H|]).
    by apply elem_of_nil in H.
Qed.

(** X14: With complete credentials the sub-shell mode runs one command on
    the terminal: the program named by SHELL, or bash when SHELL is empty,
    without arguments and in the environment of the session. It prints
    nothing on standard output, asks nothing and does not call STS. It
    fails only when the shell cannot be run: a shell that exits with a
    status other than zero is no error. *)
Theorem subshell_session (w : World) (term : Terminal) (v : bool)
    (sCtx : SelectedContext.t) (k sk tk : string) :
  let creds := {| AccessKeyId := Some k; SecretAccessKey := Some sk;
                  SessionToken := Some tk |} in
  let shell := if decide (Getenv term "SHELL" = "") then "bash" else Getenv term "SHELL" in
  let env := subshell.newEnv (Environ w) k sk tk sCtx in
  ∃ t,
    subshell.StartInteractiveSubShell w term v sCtx creds
    = (t, Ret match RunAttached term [shell] env with
              | Some (StartError msg) =>
                  Some ("failed to run interactive sub-shell '" +:+ shell +:+ "': "
                        +:+ msg)
              | _ => None
              end)
    ∧ attached t = [([shell], env)]
    ∧ prompts t = []
    ∧ stdoutOf (core t) = []
    ∧ assumeCalls (core t) = [].
Proof.
  intros creds shell env. unfold subshell.StartInteractiveSubShell.
  jstep. cbn [AccessKeyId SecretAccessKey SessionToken creds deref]. do 3 jstep.
  fold env.
  assert (∃ logs,
    (let shell := Getenv term "SHELL" in
     if decide (shell = "") then
       logv v "SHELL environment variable not set, defaulting to bash for sub-shell" ;;
       mret "bash"
     else mret shell : J string) = (logs, Ret shell) ∧ onlyLogsJ logs)
    as (logs & Hshell & Hlogs).
  { subst shell. cbv zeta. destruct (decide (Getenv term "SHELL" = "")).
    - jstep. eexists. split; [reflexivity|]. only_logsJ.
    - eexists. split; [reflexivity|]. only_logsJ. }
  rewrite (jbind_ret _ _ _ _ Hshell). do 2 jstep.
  assert (∃ said,
    (match Expiration term creds with
     | Some expires => eprintln ("Session expires around: " +:+ expires)
     | None => mret tt
     end : J unit) = (said, Ret tt)
    ∧ attached said = [] ∧ prompts said = [] ∧ stdoutOf (core said) = []
    ∧ assumeCalls (core said) = []) as (said & Hsaid & S1 & S2 & S3 & S4).
  { destruct (Expiration term creds); by eexists. }
  rewrite (jbind_ret _ _ _ _ Hsaid). do 3 jstep.
  rewrite !jprepend_jprepend.
  destruct (onlyLogsJ_idle _ Hlogs) as (L1 & L2 & _).
  pose proof (onlyLogs_idle _ (onlyLogsJ_core _ Hlogs)) as (_ & _ & L3 & _ & _ & L4 & _).
  destruct (RunAttached term [shell] env) as [[code|msg]|]; [jstep| |];
    rewrite ?jprepend_jprepend; (eexists; split; [reflexivity|]);
    unfold jprepend; cbn [fst snd mret J_ret]; rewrite ?app_nil_r;
    rewrite !attached_app, !prompts_app, !core_app, !stdoutOf_app, !assumeCalls_app,
      L1, L2, L3, L4, S1, S2, S3, S4; destruct v; done.
Qed.

(** * The whole program *)

Lemma map_Core_app (a b : list event) : map Core (a ++ b) = map Core a ++ map Core b.
Proof. apply map_app. Qed.

(** [main] up to the loaded configuration: it ends with a line on standard
    error and status 1 when the configuration cannot be found or loaded,
    and goes on with the loaded configuration otherwise. *)
Lemma main_run (w : World) (fs : Files) (term : Terminal) (h : entry.Handlers)
    (a : entry.Args) :
  ∃ logs,
    onlyLogs logs
    ∧ entry.main w fs term h a
      = match startup fs (main.verbose (entry.flags a)) (entry.configFile a) with
        | inl err =>
            (map Core (logs ++ [Eprint ("SAWS Config Error: " +:+ err)]), Halt 1)
        | inr appConfig =>
            jprepend (map Core logs) (entry.dispatch w term h a appConfig)
        end.
Proof.
  unfold entry.main, startup. cbv zeta.
  destruct (FindConfigPath_run fs (main.verbose (entry.flags a)) (entry.configFile a) 0)
    as (t1 & H1 & L1).
  match type of H1 with _ = (_, Next ?r _) => set (r1 := r) in H1; clearbody r1 end.
  rewrite H1, (jbind_ret _ _ _ _ (liftM_next _ _ _ _ H1)).
  unfold result. cbn [snd].
  destruct r1 as [err|path].
  { jstep. rewrite (jbind_halt _ _ [] 1) by reflexivity.
    exists t1. split; [exact L1|].
    unfold jprepend. cbn [fst snd]. by rewrite map_Core_app, app_nil_r. }
  jstep.
  destruct (LoadConfig_run fs (main.verbose (entry.flags a)) path 0) as (t2 & H2 & L2).
  match type of H2 with _ = (_, Next ?r _) => set (r2 := r) in H2; clearbody r2 end.
  rewrite H2, (jbind_ret _ _ _ _ (liftM_next _ _ _ _ H2)). cbn [snd].
  exists (t1 ++ t2). split; [by apply onlyLogs_app|].
  destruct r2 as [err|loaded].
  - jstep. rewrite (jbind_halt _ _ [] 1) by reflexivity.
    rewrite !jprepend_jprepend. unfold jprepend. cbn [fst snd].
    by rewrite !map_Core_app, ?app_nil_l, ?app_nil_r, <- ?app_assoc.
  - jstep. rewrite !jprepend_jprepend, ?app_nil_l, ?app_nil_r. by rewrite map_Core_app.
Qed.

Lemma dispatch_usage (w : World) (term : Terminal) (h : entry.Handlers) (a : entry.Args)
    (appConfig : AppConfig) :
  entry.help a = true ∨ modeCount a ≠ 1%nat →
  entry.dispatch w term h a appConfig
  = (map Core
       ((if entry.help a then []
         else [Eprint (if decide (1 < modeCount a)%nat
                       then "Error: Cannot use -c, -e, -ssm, and -ecs flags together. Please choose one mode."
                       else "Error: No mode selected. Please specify -c, -e, -ssm, or -ecs.")])
        ++ [UsageText]), Halt 1).
Proof.
  intros H. unfold entry.dispatch, modeCount in *. cbv zeta.
  destruct (entry.help a).
  { rewrite (jbind_halt _ _ [Core UsageText] 1) by reflexivity. reflexivity. }
  destruct H as [H|H]; [done|].
  jstep. rewrite jprepend_nil.
  destruct (bool_decide (main.command (entry.flags a) = "")),
    (entry.sessionModeFlag a), (entry.ssmSessionFlag a), (entry.ecsModeFlag a);
    cbn [negb Nat.add] in H |- *; try done.
  all: first
    [ rewrite (decide_True (P := (1 < _)%nat)) by lia;
      rewrite ?jbind_assoc;
      erewrite jbind_ret by reflexivity;
      rewrite ?jbind_assoc;
      rewrite (jbind_halt _ _ [Core UsageText] 1) by reflexivity;
      reflexivity
    | rewrite (decide_False (P := (1 < _)%nat)) by lia;
      jstep; rewrite jprepend_nil;
      rewrite (decide_True (P := (_ = 0)%nat)) by lia;
      rewrite ?jbind_assoc;
      erewrite jbind_ret by reflexivity;
      rewrite ?jbind_assoc;
      rewrite (jbind_halt _ _ [Core UsageText] 1) by reflexivity;
      reflexivity ].
Qed.

(** X15: Without a configuration that can be found and loaded, [main]
    ends with status 1 after one line on standard error that says why,
    whatever the flags: no mode is entered and the usage text is not
    printed, also when [-h] is given. *)
Theorem main_needs_configuration (w : World) (fs : Files) (term : Terminal)
    (h : entry.Handlers) (a : entry.Args) (err : string) :
  startup fs (main.verbose (entry.flags a)) (entry.configFile a) = inl err →
  ∃ logs,
    onlyLogs logs
    ∧ entry.main w fs term h a
      = (map Core (logs ++ [Eprint ("SAWS Config Error: " +:+ err)]), Halt 1).
Proof.
  intros Hs. destruct (main_run w fs term h a) as (logs & Hl & Hrun).
  rewrite Hs in Hrun. by exists logs.
Qed.

(** X16: With a loaded configuration, [-h] makes [main] print the usage
    text and end with status 1, not 0, whatever the other flags. Without
    [-h], flags that select no mode or more than one make it print one
    line of error and the usage text and end with status 1. In both cases
    no mode is entered: nothing is asked, no handler is called, STS is not
    called. *)
Theorem main_usage (w : World) (fs : Files) (term : Terminal) (h : entry.Handlers)
    (a : entry.Args) (appConfig : AppConfig) :
  startup fs (main.verbose (entry.flags a)) (entry.configFile a) = inr appConfig →
  entry.help a = true ∨ modeCount a ≠ 1%nat →
  ∃ logs,
    onlyLogs logs
    ∧ entry.main w fs term h a
      = (map Core
           (logs
            ++ (if entry.help a then []
                else [Eprint (if decide (1 < modeCount a)%nat
                              then "Error: Cannot use -c, -e, -ssm, and -ecs flags together. Please choose one mode."
                              else "Error: No mode selected. Please specify -c, -e, -ssm, or -ecs.")])
            ++ [UsageText]), Halt 1).
Proof.
  intros Hs Hu. destruct (main_run w fs term h a) as (logs & Hl & Hrun).
  rewrite Hs in Hrun. rewrite (dispatch_usage w term h a appConfig Hu) in Hrun.
  exists logs. split; [exact Hl|]. rewrite Hrun. unfold jprepend. cbn [fst snd].
  by rewrite <- map_Core_app.
Qed.

Lemma main_needs_configuration_witness :
  ∃ logs,
    entry.main demoWorld demoFiles demoTerminal demoHandlers
      (argsFor demoFlags "/etc/saws.yaml" true false)
    = (map Core
         (logs ++ [Eprint "SAWS Config Error: specified SAWS config file '/etc/saws.yaml' (expanded to '/etc/saws.yaml') not found"]),
       Halt 1).
Proof.
  destruct (main_needs_configuration demoWorld demoFiles demoTerminal demoHandlers
              (argsFor demoFlags "/etc/saws.yaml" true false)
              "specified SAWS config file '/etc/saws.yaml' (expanded to '/etc/saws.yaml') not found")
    as (logs & _ & Hrun); [by vm_compute|].
  by exists logs.
Defined.

Lemma main_usage_witness :
  ∃ logs,
    entry.main demoWorld demoFiles demoTerminal demoHandlers
      (argsFor demoFlags "" true false)
    = (map Core (logs ++ [UsageText]), Halt 1).
Proof.
  assert (startup demoFiles (main.verbose (entry.flags (argsFor demoFlags "" true false)))
            (entry.configFile (argsFor demoFlags "" true false)) = inr demoConfig) as Hs
    by (by vm_compute).
  destruct (main_usage demoWorld demoFiles demoTerminal demoHandlers
              (argsFor demoFlags "" true false) demoConfig Hs (or_introl eq_refl))
    as (logs & _ & Hrun).
  by exists logs.
Defined.

Lemma startup_accounts (fs : Files) (v : bool) (override : string) (appConfig : AppConfig) :
  startup fs v override = inr appConfig → Accounts appConfig ≠ ∅.
Proof.
  unfold startup.
  destruct (FindConfigPath_run fs v override 0) as (t1 & H1 & _).
  match type of H1 with _ = (_, Next ?r _) => set (r1 := r) in H1; clearbody r1 end.
  rewrite H1. unfold result. cbn [snd]. destruct r1 as [err|path]; [done|].
  destruct (LoadConfig_run fs v path 0) as (t2 & H2 & _).
  rewrite H2. cbn [snd].
  destruct (ReadFile fs path) as [err|data]; [done|].
  destruct (Unmarshal fs data) as [err|loaded]; [done|].
  destruct (decide (size (Accounts loaded) = 0%nat)) as [|Hne]; [done|].
  intros [= <-] He. by rewrite He, map_size_empty in Hne.
Qed.

Lemma dispatch_command (w : World) (term : Terminal) (h : entry.Handlers) (a : entry.Args)
    (appConfig : AppConfig) :
  entry.help a = false →
  main.command (entry.flags a) ≠ "" →
  entry.sessionModeFlag a = false →
  entry.ssmSessionFlag a = false →
  entry.ecsModeFlag a = false →
  entry.dispatch w term h a appConfig
  = liftM (main.commandMode w (entry.flags a) appConfig).
Proof.
  intros Hh Hc He Hs Hecs. unfold entry.dispatch. cbv zeta.
  rewrite Hh, He, Hs, Hecs, (bool_decide_eq_false_2 _ Hc). cbn [negb Nat.add].
  jstep. rewrite jprepend_nil.
  rewrite (decide_False (P := (1 < 1)%nat)) by lia. jstep. rewrite jprepend_nil.
  rewrite (decide_False (P := (1 = 0)%nat)) by lia. jstep. by rewrite jprepend_nil.
Qed.

(** X17: With a loaded configuration and [-c] as the only mode, [main] is
    the command mode on this configuration with the counter at zero: its
    events after those of the logger are those of the command mode and its
    exit status is the one of the command mode. The registry of the
    configuration is not empty. *)
Theorem main_command_mode (w : World) (fs : Files) (term : Terminal)
    (h : entry.Handlers) (a : entry.Args) (appConfig : AppConfig) :
  startup fs (main.verbose (entry.flags a)) (entry.configFile a) = inr appConfig →
  entry.help a = false →
  main.command (entry.flags a) ≠ "" →
  entry.sessionModeFlag a = false →
  entry.ssmSessionFlag a = false →
  entry.ecsModeFlag a = false →
  let run := main.commandMode w (entry.flags a) appConfig 0 in
  ∃ logs code,
    onlyLogs logs
    ∧ result run = Exit code
    ∧ (code = 0 ∨ code = 1)
    ∧ entry.main w fs term h a = (map Core (logs ++ trace run), Halt code)
    ∧ Accounts appConfig ≠ ∅.
Proof.
  intros Hs Hh Hc He Hssm Hecs run.
  destruct (main_run w fs term h a) as (logs & Hl & Hrun).
  rewrite Hs, (dispatch_command w term h a appConfig Hh Hc He Hssm Hecs) in Hrun.
  assert (∃ code, result run = Exit code ∧ (code = 0 ∨ code = 1)) as (code & Hcode & H01).
  { subst run.
    destruct (commandMode_cases w (entry.flags a) appConfig 0)
      as [(t & -> & _)|(pre & A & R & cfg & -> & _)].
    - exists 1. by split; [|right].
    - destruct (execute_reading w (entry.flags a) cfg appConfig A R 0) as (_ & _ & Hres).
      unfold prepend, result in *. cbn [snd] in *. rewrite Hres.
      destruct (decide _); [exists 0 | exists 1]; auto. }
  exists logs, code. split; [exact Hl|]. split; [exact Hcode|]. split; [exact H01|].
  split; [|by apply (startup_accounts fs _ _ _ Hs)].
  rewrite Hrun. unfold liftM. fold run.
  destruct run as [t r]. unfold result, trace in *. cbn [fst snd] in *. subst r.
  unfold jprepend. cbn [fst snd]. by rewrite map_Core_app.
Qed.

Lemma main_command_mode_witness :
  ∃ logs,
    entry.main demoWorld demoFiles demoTerminal demoHandlers
      (argsFor demoFlags "" false false)
    = (map Core (logs ++ trace (main.commandMode demoWorld demoFlags demoConfig 0)),
       Halt 1).
Proof.
  assert (startup demoFiles (main.verbose (entry.flags (argsFor demoFlags "" false false)))
            (entry.configFile (argsFor demoFlags "" false false)) = inr demoConfig) as Hs
    by (by vm_compute).
  assert (main.command (entry.flags (argsFor demoFlags "" false false)) ≠ "") as Hc
    by (by vm_compute).
  destruct (main_command_mode demoWorld demoFiles demoTerminal demoHandlers
              (argsFor demoFlags "" false false) demoConfig Hs eq_refl Hc eq_refl eq_refl
              eq_refl) as (logs & code & _ & Hcode & _ & Hrun & _).
  exists logs. rewrite Hrun. f_equal.
  assert (result (main.commandMode demoWorld demoFlags demoConfig 0) = Exit 1) as H1
    by (by vm_compute).
  change (entry.flags (argsFor demoFlags "" false false)) with demoFlags in Hcode.
  rewrite H1 in Hcode. by injection Hcode as <-.
Defined.

(** * The outcome of a unit *)

(** The error [AssumeRole] returns when STS does not grant complete
    credentials: the error of the call, or the note that the response held
    no valid credentials. *)
Lemma AssumeRole_refused (w : World) (v : bool) (who : Unit) (baseCfg : Config)
    (accountID role tag : string) (s : Z) :
  grantedTo w who accountID role tag = None →
  ∃ t,
    pkg.AssumeRole w v who baseCfg accountID role tag s
    = (t, Next (inl match STSAssumeRole w who (stsInput w accountID role tag) with
                    | inl err =>
                        "sts:AssumeRole call failed for role ARN "
                        +:+ pkg.roleArn accountID role +:+ ": " +:+ err
                    | inr _ =>
                        "assume role response for role ARN "
                        +:+ pkg.roleArn accountID role
                        +:+ " did not contain valid credentials"
                    end) s)
    ∧ silent t.
Proof.
  unfold pkg.AssumeRole, grantedTo, stsInput.
  generalize (pkg.sessionName tag role (Getpid w)) as name.
  generalize (pkg.roleArn accountID role) as arn. intros arn name.
  run_monad.
  destruct (decide (Region baseCfg = "")); rewrite ?LogVerbosef_run; simpl;
    rewrite ?LogVerbosef_run; simpl;
    destruct (STSAssumeRole w who _) as [err|[[[k|] [sk|] [tk|]]|]]; simpl;
    rewrite ?LogVerbosef_run; simpl; intros Hgr; try discriminate Hgr;
    (eexists; split; [reflexivity|]); destruct v; repeat split.
Qed.

Lemma worker_unknown (w : World) (v : bool) (baseCfg : Config) (appCfg : AppConfig)
    (acc role command region : string) (s : Z) :
  Accounts appCfg !! acc = None →
  saws.ProcessAccountRegion w v baseCfg appCfg acc role command region s
  = ([LogLine ("ERROR: Account ID not found for SAWS config account name '" +:+ acc
               +:+ "'. Skipping.");
      Done (acc, region)], Next tt s).
Proof. intros H. unfold saws.ProcessAccountRegion. by rewrite H. Qed.

Lemma worker_refused (w : World) (v : bool) (baseCfg : Config) (appCfg : AppConfig)
    (acc role command region accountID : string) (s : Z) :
  Accounts appCfg !! acc = Some accountID →
  grantedTo w (acc, region) accountID role "CmdExecSess" = None →
  ∃ t,
    saws.ProcessAccountRegion w v baseCfg appCfg acc role command region s
    = (t ++ [LogLine ("ERROR: Assume Role Failed Account:" +:+ acc +:+ " Region:"
                      +:+ region +:+ " Role:" +:+ role +:+ ": "
                      +:+ match STSAssumeRole w (acc, region)
                                  (stsInput w accountID role "CmdExecSess") with
                          | inl err =>
                              "sts:AssumeRole call failed for role ARN "
                              +:+ pkg.roleArn accountID role +:+ ": " +:+ err
                          | inr _ =>
                              "assume role response for role ARN "
                              +:+ pkg.roleArn accountID role
                              +:+ " did not contain valid credentials"
                          end);
              Done (acc, region)], Next tt s)
    ∧ silent t.
Proof.
  intros Hacc Hgr. unfold saws.ProcessAccountRegion. rewrite Hacc.
  destruct (AssumeRole_refused w v (acc, region) baseCfg accountID role "CmdExecSess" s Hgr)
    as (t & Hrun & Hsil).
  rewrite (bind_next _ _ _ _ _ _ Hrun).
  exists t. split; [reflexivity | exact Hsil].
Qed.

(** The commands the workers of a fan-out run: each unit whose own role is
    granted runs its command once, wherever it stands among units that
    fail. *)
Lemma worker_execs (w : World) (v : bool) (baseCfg : Config) (appCfg : AppConfig)
    (acc role command region : string) (s : Z) :
  execs (trace (saws.ProcessAccountRegion w v baseCfg appCfg acc role command region s))
  = match Accounts appCfg !! acc
            ≫= λ accountID, grantedTo w (acc, region) accountID role "CmdExecSess" with
    | Some (k, sk, tk) => [((acc, region), unitCmd w command region k sk tk)]
    | None => []
    end.
Proof.
  destruct (Accounts appCfg !! acc) as [accountID|] eqn:Hacc; cbn [mbind option_bind].
  - destruct (grantedTo w (acc, region) accountID role "CmdExecSess")
      as [[[k sk] tk]|] eqn:Hgr.
    + destruct (worker_reached w v baseCfg appCfg acc role command region
                  accountID k sk tk s Hacc Hgr) as (pre & mid & -> & Hpre & Hmid).
      destruct Hpre as (_ & _ & Hp3 & _), Hmid as (_ & _ & Hm3 & _).
      unfold trace. cbn [fst].
      rewrite !execs_app, Hp3, Hm3, execs_prints. reflexivity.
    + destruct (worker_refused w v baseCfg appCfg acc role command region accountID s
                  Hacc Hgr) as (t & -> & (_ & _ & H3 & _)).
      unfold trace. cbn [fst]. by rewrite execs_app, H3.
  - by rewrite (worker_unknown w v baseCfg appCfg acc role command region s Hacc).
Qed.

(** C1, as the code has it. A unit whose role is assumed prints exactly one
    result block, whether its subprocess exits zero, exits non-zero or cannot
    be started, and adds one to the success counter exactly when the exit
    code is 0. A unit whose account is unknown or whose role cannot be
    assumed prints no result: it hands one error line to the logger, which
    shows it only with [-v], and leaves the counter as it is. The line of
    an unknown account names the account; the line of a role that cannot
    be assumed names the account, the region and the role and gives the
    reason. No worker ends the process. A failure injected into STS for one
    unit leaves the run of every other unit as it was, and in a fan-out
    every unit reaches its end and every unit whose own role is granted
    runs its command, whatever becomes of the others. *)
Theorem unit_outcome (w : World) (v : bool) (baseCfg : Config) (appCfg : AppConfig)
    (acc role command region : string) (s : Z) :
  let who := (acc, region) in
  let run := saws.ProcessAccountRegion w v baseCfg appCfg acc role command region s in
  match Accounts appCfg !! acc with
  | Some accountID =>
      match grantedTo w who accountID role "CmdExecSess" with
      | Some (k, sk, tk) =>
          let cmd := unitCmd w command region k sk tk in
          let ran := Run w who (Args cmd) (Env cmd) in
          stdoutOf (trace run) = resultBlock acc region ran
          ∧ execs (trace run) = [(who, cmd)]
          ∧ result run
            = Next tt (if decide (exitCodeOf ran = 0) then wrap64 (s + 1) else s)
      | None =>
          let reason :=
            match STSAssumeRole w who (stsInput w accountID role "CmdExecSess") with
            | inl err =>
                "sts:AssumeRole call failed for role ARN "
                +:+ pkg.roleArn accountID role +:+ ": " +:+ err
            | inr _ =>
                "assume role response for role ARN " +:+ pkg.roleArn accountID role
                +:+ " did not contain valid credentials"
            end in
          stdoutOf (trace run) = []
          ∧ stderrOf false (trace run) = []
          ∧ execs (trace run) = []
          ∧ (∃ t, trace run
                  = t ++ [LogLine ("ERROR: Assume Role Failed Account:" +:+ acc
                                   +:+ " Region:" +:+ region +:+ " Role:" +:+ role
                                   +:+ ": " +:+ reason);
                          Done who]
                  ∧ silent t)
          ∧ result run = Next tt s
      end
  | None =>
      trace run
      = [LogLine ("ERROR: Account ID not found for SAWS config account name '"
                  +:+ acc +:+ "'. Skipping.");
         Done who]
      ∧ stdoutOf (trace run) = []
      ∧ stderrOf false (trace run) = []
      ∧ execs (trace run) = []
      ∧ result run = Next tt s
  end
  ∧ finished (trace run) = [who]
  ∧ (∀ u, who ≠ u →
       saws.ProcessAccountRegion (failAt u w) v baseCfg appCfg acc role command region s
       = run)
  ∧ ∀ (fl : main.Flags) (A R : list string),
      let fan := trace (main.fanOut w fl baseCfg appCfg A R s) in
      finished fan = list_prod A R
      ∧ execs fan
        = concat (map (λ u : Unit,
                         match Accounts appCfg !! u.1
                                 ≫= λ accountID,
                                      grantedTo w u accountID (main.roleCmd fl)
                                        "CmdExecSess" with
                         | Some (k, sk, tk) =>
                             [(u, unitCmd w (main.command fl) u.2 k sk tk)]
                         | None => []
                         end) (list_prod A R)).
Proof.
  intros who run. split; [|split; [|split]].
  - destruct (Accounts appCfg !! acc) as [accountID|] eqn:Hacc.
    + destruct (grantedTo w who accountID role "CmdExecSess") as [[[k sk] tk]|] eqn:Hgr.
      * destruct (worker_reached w v baseCfg appCfg acc role command region
                    accountID k sk tk s Hacc Hgr) as (pre & mid & Hrun & Hpre & Hmid).
        subst run. rewrite Hrun. unfold trace, result. cbn [fst snd].
        destruct Hpre as (Hp1 & _ & Hp3 & _), Hmid as (Hm1 & _ & Hm3 & _).
        rewrite !stdoutOf_app, !execs_app, Hp1, Hm1, Hp3, Hm3,
          stdoutOf_prints, execs_prints.
        cbn. by rewrite app_nil_r.
      * destruct (worker_refused w v baseCfg appCfg acc role command region accountID
                    s Hacc Hgr) as (t & Hrun & Hsil).
        subst run. rewrite Hrun. unfold trace, result. cbn [fst snd].
        pose proof Hsil as (H1 & H2 & H3 & _).
        rewrite stdoutOf_app, stderrOf_app, execs_app, H1, H2, H3. cbn.
        repeat split; eauto.
    + subst run. rewrite (worker_unknown w v baseCfg appCfg acc role command region s Hacc).
      by repeat split.
  - apply worker_finished.
  - intros u Hu. by apply worker_sibling.
  - intros fl A R fan. subst fan. split.
    + by destruct (fanOut_run w fl baseCfg appCfg A R s) as (t & -> & _ & Hf & _).
    + apply (fanOut_extract execs); [done | apply execs_app |].
      intros [a r] s0. cbn [execs fst snd]. apply worker_execs.
Qed.

(** * The join of the workers *)











Section join.

Variable steps : Unit → list action.
Hypothesis steps_shape : ∀ u, steps u = [DoneWg] ∨ steps u = [AddOne; DoneWg].
Variable units : list Unit.
Variable s : Z.







End join.






(** * The batches of the ECS tasks *)

Lemma forJ_logs {A} (v : bool) (line : A → string) (l : list A) :
  ∃ logs, forJ l (λ x, logv v (line x)) = (logs, Ret tt) ∧ onlyLogsJ logs.
Proof.
  induction l as [|x l (logs & IH & Hl)]; [exists []; split; [done|constructor]|].
  cbn [forJ]. jstep. rewrite IH. eexists. split; [reflexivity|]. only_logsJ.
Qed.

Lemma batch_slice {A} (l : list A) (i : nat) :
  (i < length l)%nat →
  take ((if decide (length l < i + ecs.batchSize)%nat then length l
         else i + ecs.batchSize) - i)%nat (drop i l)
  = take 100 (drop i l)
  ∧ take 100 (drop i l) ≠ [].
Proof.
  intros Hi. unfold ecs.batchSize. split.
  - destruct (decide _) as [Hlt|Hge].
    + rewrite !take_ge; [done| |]; rewrite length_drop; lia.
    + by replace (i + 100 - i)%nat with 100%nat by lia.
  - intros H. apply (f_equal length) in H. rewrite length_take, length_drop in H.
    change (length (@nil A)) with 0%nat in H. lia.
Qed.

Lemma describeBatches_run {Task} (c : ecs.Client Task) (v : bool) (cluster : string)
    (l : list string) (fuel : nat) :
  ∀ (i : nat) (acc : list Task),
    (length l - i < fuel)%nat →
    ∃ t r,
      ecs.describeBatches c v cluster l fuel i acc = (t, Ret (Some r))
      ∧ prompts t = [] ∧ attached t = [] ∧ onlyLogs (core t)
      ∧ (∀ k call, described t !! k = Some call →
           call = (cluster, take 100 (drop (i + k * 100) l)) ∧ call.2 ≠ [])
      ∧ (∃ rest, drop i l = concat (map snd (described t)) ++ rest
                 ∧ (∀ tasks, r = inr tasks → rest = []))
      ∧ match r with
        | inr tasks =>
            tasks = acc ++ concat (imap (λ k, answered c (i + k * 100)) (described t))
            ∧ ∀ k call, described t !! k = Some call → answers c (i + k * 100) call
        | inl err =>
            ∃ earlier last e,
              described t = earlier ++ [last]
              ∧ (∀ k call, earlier !! k = Some call → answers c (i + k * 100) call)
              ∧ ecs.DescribeTasks c (i + length earlier * 100) last.1 last.2 = inl e
              ∧ err = "failed to describe ECS tasks batch (starting index "
                      +:+ fmtInt (Z.of_nat (i + length earlier * 100)) +:+ "): " +:+ e
        end.
Proof.
  induction fuel as [|fuel IH]; intros i acc Hfuel; [lia|].
  cbn [ecs.describeBatches]. destruct (decide (i < length l)%nat) as [Hi|Hi].
  - destruct (batch_slice l i Hi) as [-> Hne].
    jstep. jstep.
    assert (i + 0 * 100 = i)%nat as H0 by lia.
    assert (∀ k, i + ecs.batchSize + k * 100 = i + S k * 100)%nat as HS
      by (intros k; unfold ecs.batchSize; lia).
    destruct (ecs.DescribeTasks c i cluster (take 100 (drop i l)))
      as [e|[tasks failures]] eqn:Hd.
    + eexists _, _. split; [reflexivity|].
      unfold jprepend. cbn [fst snd mret J_ret]. rewrite app_nil_r.
      rewrite prompts_app, attached_app, core_app, described_app.
      destruct (onlyLogsJ_idle _ (onlyLogsJ_if v
        ("Describing batch of " +:+ fmtInt (Z.of_nat (length (take 100 (drop i l))))
         +:+ " tasks (starting index " +:+ fmtInt (Z.of_nat i) +:+ ")...")))
        as (-> & -> & ->).
      cbn [prompts attached described core app].
      split; [done|]. split; [done|]. split.
      { rewrite app_nil_r. apply onlyLogsJ_core, onlyLogsJ_if. }
      split.
      { intros [|k] call; [|done]. intros [= <-]. cbn [snd]. by rewrite H0. }
      split.
      { exists (drop 100 (drop i l)). cbn. rewrite app_nil_r.
        split; [by rewrite take_drop|done]. }
      exists [], (cluster, take 100 (drop i l)), e. cbn [fst snd length app].
      split; [done|]. split; [intros k call; done|]. rewrite H0. by split.
    + destruct (forJ_logs v (λ failure : ecs.Failure,
        "Warning: Failed to describe task " +:+ default "N/A" (ecs.Arn failure)
        +:+ ": " +:+ default "N/A" (ecs.Reason failure)) failures) as (flogs & Hf & Hfl).
      rewrite ?jbind_assoc. erewrite jbind_ret by exact Hf.
      destruct (IH (i + ecs.batchSize)%nat (acc ++ tasks))
        as (t & r & -> & Hp & Ha & Hc & Hk & (rest & Hrest & Hnil) & Hr).
      { unfold ecs.batchSize. lia. }
      eexists _, r. split; [reflexivity|].
      unfold jprepend. cbn [fst snd].
      rewrite !prompts_app, !attached_app, !core_app, !described_app.
      destruct (onlyLogsJ_idle _ (onlyLogsJ_if v
        ("Describing batch of " +:+ fmtInt (Z.of_nat (length (take 100 (drop i l))))
         +:+ " tasks (starting index " +:+ fmtInt (Z.of_nat i) +:+ ")...")))
        as (-> & -> & ->).
      destruct (onlyLogsJ_idle _ Hfl) as (-> & -> & ->).
      cbn [prompts attached described core app]. rewrite Hp, Ha.
      split; [done|]. split; [done|]. split.
      { apply onlyLogs_app; [apply onlyLogsJ_core, onlyLogsJ_if|].
        apply onlyLogs_app; [by apply onlyLogsJ_core|exact Hc]. }
      split.
      { intros [|k] call.
        - intros [= <-]. cbn [snd]. by rewrite H0.
        - cbn. intros Hl. destruct (Hk k call Hl) as [-> Hn]. split; [|exact Hn].
          by rewrite HS. }
      split.
      { exists rest. cbn. rewrite <- app_assoc, <- Hrest.
        split; [|exact Hnil].
        replace (drop (i + ecs.batchSize) l) with (drop 100 (drop i l))
          by (rewrite drop_drop; f_equal; unfold ecs.batchSize; lia).
        by rewrite take_drop. }
      destruct r as [err|ts].
      * destruct Hr as (earlier & last & e & He & Hok & Hlast & ->).
        exists ((cluster, take 100 (drop i l)) :: earlier), last, e.
        rewrite He. split; [done|]. split.
        { intros [|k] call.
          - intros [= <-]. rewrite H0. eexists. exact Hd.
          - intros Hl. rewrite <- HS. exact (Hok k call Hl). }
        cbn [length]. rewrite <- !HS. by split.
      * destruct Hr as (-> & Hok). split.
        { assert (answered c i (cluster, take 100 (drop i l)) = tasks) as Hans
            by (unfold answered; cbn [fst snd]; by rewrite Hd).
          rewrite imap_cons. cbn [concat]. rewrite H0, Hans, <- app_assoc.
          do 3 f_equal. apply imap_ext. intros k call _. cbn [compose].
          by rewrite HS. }
        intros [|k] call.
        -- intros [= <-]. rewrite H0. eexists. exact Hd.
        -- intros Hl. rewrite <- HS. exact (Hok k call Hl).
  - exists [], (inr acc). split; [reflexivity|].
    split; [done|]. split; [done|]. split; [constructor|].
    split; [intros k call; done|]. split.
    { exists []. split; [|done]. cbn. apply drop_ge. lia. }
    cbn. split; [by rewrite app_nil_r|intros k call; done].
Qed.

(** X18: [describeEcsTasks] always returns, and it asks [DescribeTasks]
    for the tasks in batches of at most 100: the k-th call is for the given
    cluster and for the tasks from position [100 * k] on, 100 of them or
    those that are left, never none. When it gives the tasks, the batches
    together are the tasks asked for, in their order, every call was
    answered and the result is the answers in the order of the calls. It
    gives an error when the SDK configuration does not load, before any
    call, or at the first call that fails, which is the last one made: the
    answers of the calls before are dropped, and the text names the
    position of the first task of the failed batch. Without tasks nothing
    is loaded and nothing is called. Nothing is asked of the user and
    nothing is printed but lines of the verbose log. *)
Theorem describe_tasks_in_batches {Task} (c : ecs.Client Task) (v : bool)
    (credsaws : string * string * string) (region clusterArn : string)
    (taskArns : list string) :
  ∃ t r,
    ecs.describeEcsTasks c v credsaws region clusterArn taskArns = (t, Ret (Some r))
    ∧ prompts t = [] ∧ attached t = [] ∧ onlyLogs (core t)
    ∧ (∀ k call, described t !! k = Some call →
         call = (clusterArn, take 100 (drop (k * 100) taskArns))
         ∧ call.2 ≠ [] ∧ (length call.2 ≤ 100)%nat)
    ∧ (∃ rest, taskArns = concat (map snd (described t)) ++ rest)
    ∧ (taskArns = [] → t = [] ∧ r = inr [])
    ∧ match r with
      | inr tasks =>
          concat (map snd (described t)) = taskArns
          ∧ tasks = concat (imap (λ k, answered c (k * 100)) (described t))
          ∧ (∀ k call, described t !! k = Some call → answers c (k * 100) call)
          ∧ (taskArns ≠ [] → ecs.LoadSDKConfig c credsaws region = None)
      | inl err =>
          taskArns ≠ []
          ∧ match ecs.LoadSDKConfig c credsaws region with
            | Some e =>
                described t = []
                ∧ err = "failed to load SDK config for ECS describe tasks: " +:+ e
            | None =>
                ∃ earlier last e,
                  described t = earlier ++ [last]
                  ∧ (∀ k call, earlier !! k = Some call → answers c (k * 100) call)
                  ∧ ecs.DescribeTasks c (length earlier * 100) last.1 last.2 = inl e
                  ∧ err = "failed to describe ECS tasks batch (starting index "
                          +:+ fmtInt (Z.of_nat (length earlier * 100)) +:+ "): " +:+ e
            end
      end.
Proof.
  unfold ecs.describeEcsTasks.
  destruct (decide (length taskArns = 0%nat)) as [Hz|Hz].
  { apply length_zero_iff_nil in Hz as ->. exists [], (inr []).
    split; [reflexivity|]. split; [done|]. split; [done|]. split; [constructor|].
    split; [intros k call; done|]. split; [by exists []|]. split; [done|].
    split; [done|]. split; [done|]. split; [intros k call; done|done]. }
  assert (taskArns ≠ []) as Hne by (by intros ->).
  destruct (ecs.LoadSDKConfig c credsaws region) as [e|] eqn:Hload.
  { exists [], (inl ("failed to load SDK config for ECS describe tasks: " +:+ e)).
    split; [reflexivity|]. split; [done|]. split; [done|]. split; [constructor|].
    split; [intros k call; done|]. split; [by exists taskArns|]. split; [done|].
    split; [exact Hne|]. done. }
  destruct (describeBatches_run c v clusterArn taskArns (S (length taskArns)) 0%nat [])
    as (t & r & Hrun & Hp & Ha & Hc & Hk & (rest & Hrest & Hnil) & Hr); [lia|].
  rewrite drop_0 in Hrest.
  assert (∀ k call, described t !! k = Some call →
            call = (clusterArn, take 100 (drop (k * 100) taskArns))
            ∧ call.2 ≠ [] ∧ (length call.2 ≤ 100)%nat) as Hcalls.
  { intros k call Hl. destruct (Hk k call Hl) as [-> Hn]. cbn [snd] in *.
    split; [done|]. split; [exact Hn|]. rewrite length_take. lia. }
  destruct r as [err|tasks].
  - exists t, (inl err). erewrite jbind_ret by exact Hrun.
    unfold jprepend. cbn [fst snd mret J_ret]. rewrite app_nil_r.
    split; [reflexivity|]. split; [exact Hp|]. split; [exact Ha|]. split; [exact Hc|].
    split; [exact Hcalls|]. split; [by exists rest|]. split; [done|].
    split; [exact Hne|]. exact Hr.
  - destruct Hr as (-> & Hok). rewrite (Hnil _ eq_refl), app_nil_r in Hrest.
    erewrite jbind_ret by exact Hrun. cbv beta iota. jstep.
    eexists _, (inr _). split; [reflexivity|].
    unfold jprepend. cbn [fst snd mret J_ret]. rewrite app_nil_r.
    rewrite prompts_app, attached_app, core_app, described_app, Hp, Ha.
    match goal with |- context [if v then [Core (LogLine ?line)] else []] =>
      destruct (onlyLogsJ_idle _ (onlyLogsJ_if v line)) as (-> & -> & ->);
      pose proof (onlyLogsJ_core _ (onlyLogsJ_if v line)) as Hlog
    end.
    rewrite !app_nil_r.
    split; [done|]. split; [done|]. split; [by apply onlyLogs_app|].
    split; [exact Hcalls|]. split; [exists []; by rewrite app_nil_r|]. split; [done|].
    split; [by symmetry|]. split; [reflexivity|]. split; [exact Hok|]. done.
Qed.

(** 250 tasks are asked for in three calls, of 100, 100 and 50 tasks, at
    the indices 0, 100 and 200. *)
Example describe_250_tasks :
  let c := {| ecs.LoadSDKConfig := λ _ _, None;
              ecs.DescribeTasks := λ i _ batch, inr ([(i, length batch)], []) |} in
  let run := ecs.describeEcsTasks c false ("k", "sk", "tk") "eu-west-1" "cluster"
               (replicate 250 "task") in
  run.2 = Ret (Some (inr [(0, 100); (100, 100); (200, 50)]%nat))
  ∧ map (λ call : string * list string, length call.2) (described run.1)
    = [100; 100; 50]%nat.
Proof. by vm_compute. Qed.
